(** * Tenant resolution, provisioning and context switching

    A shallow embedding of the multi-tenancy core of the DED inventory
    system:

    - [app/tenant_manager.py]      (module [TenantManager])
    - [app/auth/multi_tenant_login.py] (module [MultiTenantLogin])
    - [app/tenant_middleware.py]   (module [TenantMiddleware])
    - [license_control.py]         (module [LicenseControl])

    The Flask application, the SQLAlchemy session, the Flask [session] and
    [g] objects, the master registry and the tenant stores are gathered in
    one explicit state, [world]; every Python function that touches them
    is a computation in a state-and-exception monad over [world].  *)

From Stdlib Require Import String Ascii ZArith List Bool Lia DecimalString.
From stdpp Require Import gmap strings list.

Local Open Scope string_scope.
Local Open Scope Z_scope.

(** ** Python string operations used by the sources *)

Module PyStr.

(** [s.replace(a, b)] for one-character [a] and [b]. *)
Fixpoint replace (a b : ascii) (s : string) : string :=
  match s with
  | EmptyString => EmptyString
  | String c s' => String (if Ascii.eqb c a then b else c) (replace a b s')
  end.

(** [c.lower()] on the ASCII letters; the license keys and paths handled
    here are ASCII, other characters are left as they are. *)
Definition lower_char (c : ascii) : ascii :=
  let n := N_of_ascii c in
  if ((65 <=? n) && (n <=? 90))%N then ascii_of_N (n + 32) else c.

(** [s.lower()] *)
Fixpoint lower (s : string) : string :=
  match s with
  | EmptyString => EmptyString
  | String c s' => String (lower_char c) (lower s')
  end.

(** [s.startswith(p)] *)
Definition startswith (s p : string) : bool := String.prefix p s.

(** [sub in s] *)
Fixpoint contains (sub s : string) : bool :=
  String.prefix sub s ||
  match s with
  | EmptyString => false
  | String _ s' => contains sub s'
  end.

(** [s.split(c)[0]]: the part of [s] before the first [c]. *)
Fixpoint split_head (c : ascii) (s : string) : string :=
  match s with
  | EmptyString => EmptyString
  | String d s' => if Ascii.eqb d c then EmptyString else String d (split_head c s')
  end.

(** Truth value of a nullable string: [None] and [''] are false. *)
Definition truthy (o : option string) : bool :=
  match o with
  | Some s => negb (String.eqb s "")
  | None => false
  end.

(** [o or d] for a nullable string [o]. *)
Definition or_default (o : option string) (d : string) : string :=
  match o with
  | Some s => if String.eqb s "" then d else s
  | None => d
  end.

(** The rest of [s] after the prefix [p], when [s] starts with [p]. *)
Fixpoint strip_prefix (p s : string) : option string :=
  match p with
  | EmptyString => Some s
  | String a p' =>
      match s with
      | EmptyString => None
      | String b s' => if Ascii.eqb a b then strip_prefix p' s' else None
      end
  end.

(** [str(n)] for an integer. *)
Definition of_Z (n : Z) : string := DecimalString.NilZero.string_of_int (Z.to_int n).

(** [c.upper()] on the ASCII letters. *)
Definition upper_char (c : ascii) : ascii :=
  let n := N_of_ascii c in
  if ((97 <=? n) && (n <=? 122))%N then ascii_of_N (n - 32) else c.

(** [s.upper()] *)
Fixpoint upper (s : string) : string :=
  match s with
  | EmptyString => EmptyString
  | String c s' => String (upper_char c) (upper s')
  end.

(** [s.endswith(p)] *)
Definition endswith (s p : string) : bool :=
  (String.length p <=? String.length s)%nat &&
  String.eqb (String.substring (String.length s - String.length p) (String.length p) s) p.

(** [s[start:-stop]] for [stop > 0]: the slice is empty when the two
    ends meet or cross. *)
Definition slice (start stop : nat) (s : string) : string :=
  String.substring start (String.length s - stop - start) s.

(** [s.replace(old, new)] for a non-empty [old]: the occurrences of
    [old] are replaced from left to right, without overlap; [skip]
    counts the characters of an occurrence still to be passed over. *)
Fixpoint replace_from (old new : string) (skip : nat) (s : string) : string :=
  match s with
  | EmptyString => EmptyString
  | String c s' =>
      match skip with
      | S n => replace_from old new n s'
      | O =>
          if String.prefix old s
          then new +:+ replace_from old new (String.length old - 1) s'
          else String c (replace_from old new 0 s')
      end
  end.

Definition replace_str (old new s : string) : string := replace_from old new 0 s.

End PyStr.

(** ** [os.path] on a POSIX host *)

Module OsPath.

Fixpoint ends_with_sep (s : string) : bool :=
  match s with
  | EmptyString => false
  | String c EmptyString => Ascii.eqb c "/"
  | String _ s' => ends_with_sep s'
  end.

(** [os.path.join(a, b)] (posixpath): an absolute [b] discards [a]; a
    separator is inserted unless [a] is empty or already ends with one. *)
Definition join (a b : string) : string :=
  if PyStr.startswith b "/" then b
  else if String.eqb a "" || ends_with_sep a then a +:+ b
  else a +:+ "/" +:+ b.

End OsPath.

(** ** Records of the master registry and of a tenant store *)

(** A row of [licenses] as the ORM class [License] exposes it
    ([app/models_license.py]); [expires_at] is a naive UTC timestamp in
    microseconds, [None] meaning a perpetual license. *)
Module License.
Record t := mk {
  id : Z;
  license_key : string;
  client_name : option string;
  client_email : option string;
  client_company : option string;
  client_phone : option string;
  license_type : option string;
  is_active : bool;
  is_suspended : bool;
  suspension_reason : option string;
  expires_at : option Z;
  admin_username : option string;
  admin_password_hash : option string
}.
End License.

Module Role.
Record t := mk { id : Z; name : string; name_ar : string; description : string }.
End Role.

Module Branch.
Record t := mk { id : Z; name : string; name_en : string; code : string; is_active : bool }.
End Branch.

Module User.
Record t := mk {
  id : Z;
  username : string;
  email : string;
  full_name : option string;
  phone : option string;
  is_active : bool;
  is_admin : bool;
  role_id : Z;
  branch_id : Z;
  password_hash : string;
  last_login : option Z
}.

Definition with_last_login (now : Z) (u : t) : t :=
  mk (id u) (username u) (email u) (full_name u) (phone u) (is_active u)
     (is_admin u) (role_id u) (branch_id u) (password_hash u) (Some now).
End User.

Module Account.
Record t := mk {
  id : Z;
  code : string;
  name : string;
  name_en : string;
  account_type : string;
  is_system : bool
}.
End Account.

(** The tables of a tenant store the seeding code reads and writes. *)
Record tables := mkTables {
  roles : list Role.t;
  branches : list Branch.t;
  users : list User.t;
  accounts : list Account.t
}.

Definition empty_tables : tables := mkTables [] [] [] [].

(** A storage target: a PostgreSQL schema or a SQLite file.  [db_tables]
    is the committed content ([None]: the target exists but the schema
    bundle was never instantiated in it); [db_txn] is the working copy of
    a transaction that was neither committed nor rolled back. *)
Record tenant_db := mkDb {
  db_tables : option tables;
  db_txn : option tables
}.

(** The snapshot the middleware publishes in [g.license_data]. *)
Record license_data := mkLicenseData {
  ld_id : Z;
  ld_license_key : string;
  ld_client_name : option string;
  ld_client_email : option string;
  ld_license_type : option string;
  ld_expires_at : option Z;
  ld_is_active : bool;
  ld_is_suspended : bool
}.

(** ** Exceptions, fault points and the call log *)

(** The storage operations at which a run may be made to raise. *)
Inductive fault_point :=
  | AtCreateSchema      (* create: CREATE SCHEMA / create_engine *)
  | AtCreateTables      (* create: db.create_all / metadata.create_all *)
  | AtSeedOpen          (* seed: SET search_path / create_engine, before [sess] is bound *)
  | AtSeedRoles         (* seed: role queries, adds and flush *)
  | AtSeedBranch        (* seed: branch query, add and flush *)
  | AtSeedAdmin         (* seed: admin user queries and add *)
  | AtSeedAccounts      (* seed: chart of accounts *)
  | AtSeedCommit        (* seed: sess.commit() *)
  | AtSeedCleanup       (* seed: the statements after sess.commit() *)
  | AtBindMaster        (* middleware: binding to the master store *)
  | AtLicenseLookup     (* middleware: License.query ... .first() *)
  | AtSnapshot.         (* middleware: building g.license_data *)

#[global] Instance fault_point_eq_dec : EqDecision fault_point.
Proof. solve_decision. Defined.

Inductive exn :=
  | StorageFault (p : fault_point)   (* the storage layer raised at [p] *)
  | OperationalError (target : string) (* no such schema, file or table *)
  | NameError (var : string)         (* use of an unbound local *)
  | RuntimeError (msg : string)      (* flask: working outside of request context *)
  | InFailedSqlTransaction.          (* PostgreSQL: statement in an aborted transaction *)

(** Calls into the provisioner and the session, in program order. *)
Inductive event :=
  | CreateTenantDatabase (license_key : string)
  | InitializeTenantData (license_key : string)
  | SessRollback (target : string)
  | SessCommit (target : string).

(** ** The state all components share *)

Record world := mkState {
  (* read by the code, never written *)
  basedir : string;        (* abspath(dirname(dirname(__file__))) of app/ *)
  check_password_hash : string -> string -> bool;
                           (* User.check_password: stored hash, password *)
  utcnow : Z;              (* datetime.utcnow(), in microseconds *)
  is_authenticated : bool; (* current_user.is_authenticated *)
  storage_fault : option fault_point;
  (* the active binding *)
  config_uri : string;     (* app.config['SQLALCHEMY_DATABASE_URI'] *)
  search_path : list string; (* search_path of db.session's connection *)
  committed_search_path : list string;
                           (* the search_path a rollback of db.session returns to:
                              a SET takes effect at once, and lasts only if the
                              transaction it is part of is committed *)
  (* flask.session, None outside of a request context; flask.g; flash() *)
  session : option (gmap string string);
  g_license_data : option license_data;
  g_tenant_license_key : option string;
  flashes : list (string * string);
  (* storage *)
  licenses : list License.t;        (* master registry *)
  stores : gmap string tenant_db;   (* storage targets by schema name or file path *)
  (* ghost *)
  trace : list event
}.

(** A state in which no [SET] is pending on [db.session]. *)
Definition mkWorld (basedir : string) (check_password_hash : string -> string -> bool)
    (utcnow : Z) (is_authenticated : bool) (storage_fault : option fault_point)
    (config_uri : string) (search_path : list string)
    (session : option (gmap string string)) (g_license_data : option license_data)
    (g_tenant_license_key : option string) (flashes : list (string * string))
    (licenses : list License.t) (stores : gmap string tenant_db) (trace : list event)
    : world :=
  mkState basedir check_password_hash utcnow is_authenticated storage_fault config_uri
    search_path search_path session g_license_data g_tenant_license_key flashes licenses
    stores trace.

Definition set_config_uri (u : string) (w : world) : world :=
  mkState (basedir w) (check_password_hash w) (utcnow w) (is_authenticated w)
    (storage_fault w) u (search_path w) (committed_search_path w) (session w)
    (g_license_data w) (g_tenant_license_key w) (flashes w) (licenses w) (stores w) (trace w).

Definition set_search_path (p : list string) (w : world) : world :=
  mkState (basedir w) (check_password_hash w) (utcnow w) (is_authenticated w)
    (storage_fault w) (config_uri w) p (committed_search_path w) (session w)
    (g_license_data w) (g_tenant_license_key w) (flashes w) (licenses w) (stores w) (trace w).

Definition set_committed_search_path (p : list string) (w : world) : world :=
  mkState (basedir w) (check_password_hash w) (utcnow w) (is_authenticated w)
    (storage_fault w) (config_uri w) (search_path w) p (session w)
    (g_license_data w) (g_tenant_license_key w) (flashes w) (licenses w) (stores w) (trace w).

Definition set_session (s : option (gmap string string)) (w : world) : world :=
  mkState (basedir w) (check_password_hash w) (utcnow w) (is_authenticated w)
    (storage_fault w) (config_uri w) (search_path w) (committed_search_path w) s
    (g_license_data w) (g_tenant_license_key w) (flashes w) (licenses w) (stores w) (trace w).

Definition set_g (d : option license_data) (k : option string) (w : world) : world :=
  mkState (basedir w) (check_password_hash w) (utcnow w) (is_authenticated w)
    (storage_fault w) (config_uri w) (search_path w) (committed_search_path w) (session w)
    d k (flashes w) (licenses w) (stores w) (trace w).

Definition set_flashes (f : list (string * string)) (w : world) : world :=
  mkState (basedir w) (check_password_hash w) (utcnow w) (is_authenticated w)
    (storage_fault w) (config_uri w) (search_path w) (committed_search_path w) (session w)
    (g_license_data w) (g_tenant_license_key w) f (licenses w) (stores w) (trace w).

Definition set_stores (s : gmap string tenant_db) (w : world) : world :=
  mkState (basedir w) (check_password_hash w) (utcnow w) (is_authenticated w)
    (storage_fault w) (config_uri w) (search_path w) (committed_search_path w) (session w)
    (g_license_data w) (g_tenant_license_key w) (flashes w) (licenses w) s (trace w).

Definition set_trace (t : list event) (w : world) : world :=
  mkState (basedir w) (check_password_hash w) (utcnow w) (is_authenticated w)
    (storage_fault w) (config_uri w) (search_path w) (committed_search_path w) (session w)
    (g_license_data w) (g_tenant_license_key w) (flashes w) (licenses w) (stores w) t.

(** ** State and exception monad *)

Inductive outcome (A : Type) :=
  | Ret (a : A)
  | Raise (e : exn).
Arguments Ret {A} a.
Arguments Raise {A} e.

Definition M (A : Type) : Type := world -> outcome A * world.

Definition ret {A} (a : A) : M A := fun w => (Ret a, w).
Definition raise {A} (e : exn) : M A := fun w => (Raise e, w).
Definition bind {A B} (m : M A) (f : A -> M B) : M B :=
  fun w => match m w with
           | (Ret a, w') => f a w'
           | (Raise e, w') => (Raise e, w')
           end.
Definition gets {A} (f : world -> A) : M A := fun w => (Ret (f w), w).
Definition modify (f : world -> world) : M unit := fun w => (Ret tt, f w).

(** [try: m  except Exception: h  else: k] *)
Definition try_except {A B} (m : M A) (h : exn -> M B) (k : A -> M B) : M B :=
  fun w => match m w with
           | (Ret a, w') => k a w'
           | (Raise e, w') => h e w'
           end.

(** [try: m  finally: f]; an exception of [f] replaces the outcome of [m]. *)
Definition try_finally {A} (m : M A) (f : M unit) : M A :=
  fun w => match m w with
           | (r, w') => match f w' with
                        | (Ret _, w'') => (r, w'')
                        | (Raise e, w'') => (Raise e, w'')
                        end
           end.

(** [try: m  finally: f], where what [f] does depends on how [m] left
    the session it runs its statements on; see [in_failed_transaction]. *)
Definition try_finally_on {A} (m : M A) (f : outcome A -> M unit) : M A :=
  fun w => match m w with
           | (r, w') => match f r w' with
                        | (Ret _, w'') => (r, w'')
                        | (Raise e, w'') => (Raise e, w'')
                        end
           end.

Declare Scope monad_scope.
Delimit Scope monad_scope with monad.
Notation "x <- m ;; k" := (bind m (fun x => k))
  (at level 100, m at next level, right associativity) : monad_scope.
Notation "m ;;; k" := (bind m (fun _ => k))
  (at level 100, right associativity) : monad_scope.
Local Open Scope monad_scope.

Definition when (b : bool) (m : M unit) : M unit := if b then m else ret tt.

(** A storage operation that raises when the run is set to fail at [p]. *)
Definition storage_op (p : fault_point) : M unit :=
  fun w => if decide (storage_fault w = Some p) then (Raise (StorageFault p), w)
           else (Ret tt, w).

Definition log (e : event) : M unit := modify (fun w => set_trace (trace w ++ [e])%list w).

(** A function with early [return]s: [inl r] leaves the function with
    [r], [inr a] falls through to the next stage with [a]. *)
Definition stage (R A : Type) : Type := M (R + A).

Definition next {R A B} (m : stage R A) (k : A -> stage R B) : stage R B :=
  x <- m ;;
  match x with
  | inl r => ret (inl r)
  | inr a => k a
  end.

Definition finish {R} (m : stage R R) : M R :=
  x <- m ;; ret (match x with inl r => r | inr r => r end).

(** ** The SQLAlchemy layer: sessions, transactions and the catalog *)

(** A session the code reads and writes through: the application-wide
    [db.session], which resolves tables through the active binding, or a
    session made for an engine on one SQLite file. *)
Inductive sess :=
  | SharedSession
  | EngineSession (path : string).

Module Sql.

Definition SQLITE_PREFIX : string := "sqlite:///".

(** The storage target [db.session] resolves to: the file of the
    configured URI when that is a SQLite URI, else (PostgreSQL) the first
    schema of the search path. *)
Definition active_target (w : world) : option string :=
  match PyStr.strip_prefix SQLITE_PREFIX (config_uri w) with
  | Some path => Some path
  | None => head (search_path w)
  end.

Definition target_of (s : sess) (w : world) : option string :=
  match s with
  | SharedSession => active_target w
  | EngineSession p => Some p
  end.

(** [create_engine(uri)] followed by [sessionmaker(bind=engine)()] *)
Definition create_engine (uri : string) : M sess :=
  match PyStr.strip_prefix SQLITE_PREFIX uri with
  | Some p => ret (EngineSession p)
  | None => raise (OperationalError uri)
  end.

(** What a session sees of a target: the working copy of its open
    transaction, else the committed tables. *)
Definition view (db : tenant_db) : option tables :=
  match db_txn db with
  | Some t => Some t
  | None => db_tables db
  end.

Definition view_at (w : world) (tg : string) : option tables :=
  match stores w !! tg with
  | Some db => view db
  | None => None
  end.

(** A change to the storage targets. *)
Definition on_stores (g : gmap string tenant_db -> gmap string tenant_db) (w : world) : world :=
  set_stores (g (stores w)) w.

(** Whether [s] is a session on a SQLite file: every engine session is,
    and [db.session] when the configured URI is a SQLite URI. *)
Definition on_file (s : sess) (w : world) : bool :=
  match s with
  | SharedSession =>
      match PyStr.strip_prefix SQLITE_PREFIX (config_uri w) with
      | Some _ => true
      | None => false
      end
  | EngineSession _ => true
  end.

(** The first statement of a session connects it.  [sqlite3.connect]
    creates the file when it is not there, without tables; a schema that
    is not there is not created by naming it. *)
Definition opened (s : sess) (tg : string) (w : world) : world :=
  match stores w !! tg with
  | Some _ => w
  | None => if on_file s w then on_stores (insert tg (mkDb None None)) w else w
  end.

Definition connect (s : sess) : M unit :=
  fun w =>
    match target_of s w with
    | None => (Ret tt, w)
    | Some tg => (Ret tt, opened s tg w)
    end.

(** A query through [s]; it raises when the target does not exist or
    has no tables. *)
Definition read (s : sess) : M tables :=
  fun w =>
    match target_of s w with
    | None => (Raise (OperationalError ""), w)
    | Some tg =>
        match view_at w tg with
        | Some t => (Ret t, w)
        | None => (Raise (OperationalError tg), opened s tg w)
        end
    end.

(** A change made through a session stays in its transaction. *)
Definition put_db (t : tables) (db : tenant_db) : tenant_db := mkDb (db_tables db) (Some t).

(** Commit makes the working copy the committed tables; rollback drops it. *)
Definition commit_db (db : tenant_db) : tenant_db := mkDb (view db) None.
Definition drop_db (db : tenant_db) : tenant_db := mkDb (db_tables db) None.

Definition end_db (keep : bool) (db : tenant_db) : tenant_db :=
  if keep then commit_db db else drop_db db.

(** [sess.add(...)], attribute assignment and flush. *)
Definition write (s : sess) (t : tables) : M unit :=
  fun w =>
    match target_of s w with
    | None => (Raise (OperationalError ""), w)
    | Some tg =>
        match stores w !! tg with
        | None => (Raise (OperationalError tg), opened s tg w)
        | Some _ => (Ret tt, on_stores (alter (put_db t) tg) w)
        end
    end.

(** Run a query-and-add step [f] inside the transaction of [s]. *)
Definition run {A} (s : sess) (f : tables -> tables * A) : M A :=
  t <- read s ;;
  let '(t', a) := f t in
  write s t' ;;;
  ret a.

(** What the end of a transaction of [s] does to the settings of its
    connection.  A [SET search_path] on PostgreSQL is part of the
    transaction it is issued in: a commit makes it last, a rollback
    returns the search path to what was last committed.  A SQLite
    session has no search path. *)
Definition settle (keep : bool) (s : sess) (w : world) : world :=
  if on_file s w then w
  else if keep then set_committed_search_path (search_path w) w
  else set_search_path (committed_search_path w) w.

(** [sess.commit()] *)
Definition commit (s : sess) : M unit :=
  fun w =>
    match target_of s w with
    | None => (Ret tt, settle true s w)
    | Some tg =>
        (Ret tt, settle true s
                   (set_trace (trace w ++ [SessCommit tg])%list
                      (on_stores (alter (end_db true) tg) w)))
    end.

(** [sess.rollback()] *)
Definition rollback (s : sess) : M unit :=
  fun w =>
    match target_of s w with
    | None => (Ret tt, settle false s w)
    | Some tg =>
        (Ret tt, settle false s
                   (set_trace (trace w ++ [SessRollback tg])%list
                      (on_stores (alter (end_db false) tg) w)))
    end.

(** [db.session.remove()], at the end of an application context: the
    session of the context is closed and what it has not committed is
    rolled back.  Each block of the code that ends with it has committed
    or rolled back the rows it wrote by then, so that its [SET]s are what
    the removal undoes. *)
Definition remove : M unit := modify (settle false SharedSession).

(** [sess.close()] and [engine.dispose()]: an open transaction is dropped. *)
Definition close (s : sess) : M unit :=
  fun w =>
    match target_of s w with
    | None => (Ret tt, w)
    | Some tg => (Ret tt, on_stores (alter (end_db false) tg) w)
    end.

(** The schema catalog and [os.path.exists] on a database file. *)
Definition target_exists (tg : string) : M bool :=
  gets (fun w => match stores w !! tg with Some _ => true | None => false end).

(** [CREATE SCHEMA IF NOT EXISTS tg]; opening a connection to a SQLite
    file that does not exist creates it likewise. *)
Definition ensure_db (o : option tenant_db) : option tenant_db :=
  match o with
  | Some db => Some db
  | None => Some (mkDb None None)
  end.

Definition create_target (tg : string) : M unit :=
  modify (on_stores (partial_alter ensure_db tg)).

(** [create_all] into the target [tg]: the tables that are missing are
    created, empty; existing tables and their rows are kept. *)
Definition with_tables (db : tenant_db) : tenant_db :=
  mkDb (Some (default empty_tables (db_tables db))) (db_txn db).

Definition create_all (tg : string) : M unit :=
  fun w =>
    match stores w !! tg with
    | None => (Raise (OperationalError tg), w)
    | Some _ => (Ret tt, on_stores (alter with_tables tg) w)
    end.

(** The id a newly flushed row receives. *)
Definition next_id {A} (id : A -> Z) (l : list A) : Z :=
  1 + fold_right Z.max 0 (map id l).

(** [DROP SCHEMA IF EXISTS tg CASCADE], [os.remove(tg)] *)
Definition drop_target (tg : string) : M unit :=
  modify (on_stores (delete tg)).

(** The names of the storage targets: the schema catalog, the database
    files.  The code relies on no order of theirs. *)
Definition catalog (w : world) : list string := (map_to_list (stores w)).*1.

End Sql.

(** ** Flask's application context, [session] and [flash] *)

Module Flask.

(** [with app.app_context(): m].  When the block is left, by its end, by
    a [return] or by an exception, the context is torn down, and
    Flask-SQLAlchemy removes [db.session] with it. *)
Definition with_app_context {A} (m : M A) : M A := try_finally m Sql.remove.

Definition NO_REQUEST_CONTEXT : string := "Working outside of request context.".

(** [session.get(k)] *)
Definition session_get (k : string) : M (option string) :=
  fun w =>
    match session w with
    | None => (Raise (RuntimeError NO_REQUEST_CONTEXT), w)
    | Some s => (Ret (s !! k), w)
    end.

(** [session[k] = v] *)
Definition session_set (k v : string) : M unit :=
  fun w =>
    match session w with
    | None => (Raise (RuntimeError NO_REQUEST_CONTEXT), w)
    | Some s => (Ret tt, set_session (Some (<[k := v]> s)) w)
    end.

(** [session.pop(k, None)] *)
Definition session_pop (k : string) : M unit :=
  fun w =>
    match session w with
    | None => (Raise (RuntimeError NO_REQUEST_CONTEXT), w)
    | Some s => (Ret tt, set_session (Some (delete k s)) w)
    end.

(** [flash(message, category)] *)
Definition flash (message category : string) : M unit :=
  modify (fun w => set_flashes (flashes w ++ [(message, category)])%list w).

End Flask.

(** ** [app/tenant_manager.py] *)

Module TenantManager.

(** [_is_postgres(app)]: the isolation strategy, read off the configured
    database URI at every call. *)
Definition _is_postgres (app : world) : bool :=
  let uri := config_uri app in
  PyStr.contains "postgresql" uri || PyStr.contains "postgres" uri.

Definition MASTER_DB : string := "licenses_master.db".
Definition TENANTS_DIR : string := "tenant_databases".

(** *** The store locator *)

Definition _schema_name (license_key : string) : string :=
  "tenant_" +:+ PyStr.lower (PyStr.replace "-" "_" license_key).

Definition get_master_db_path (basedir : string) : string :=
  OsPath.join basedir MASTER_DB.

(** The directory is created on first use; only its path matters here. *)
Definition get_tenants_dir (basedir : string) : string :=
  OsPath.join basedir TENANTS_DIR.

Definition get_tenant_db_path (basedir license_key : string) : string :=
  let safe_key := PyStr.replace "-" "_" license_key in
  OsPath.join (get_tenants_dir basedir) ("tenant_" +:+ safe_key +:+ ".db").

Definition get_tenant_db_uri (current_app : world) (license_key : string) : string :=
  if _is_postgres current_app then config_uri current_app
  else "sqlite:///" +:+ get_tenant_db_path (basedir current_app) license_key.

(** *** Schema switching (PostgreSQL) *)

(** [SET search_path TO {schema}, public] on [db.session] *)
Definition switch_schema (license_key : string) : M unit :=
  let schema := _schema_name license_key in
  modify (set_search_path [schema; "public"]).

(** [SET search_path TO public] *)
Definition switch_to_public : M unit :=
  modify (set_search_path ["public"]).

(** *** Creating a tenant store *)

Definition create_tenant_database (license_key : string) : M bool :=
  log (CreateTenantDatabase license_key) ;;;
  try_except
    (pg <- gets _is_postgres ;;
     if pg then
       let schema := _schema_name license_key in
       Flask.with_app_context
         (storage_op AtCreateSchema ;;;
          Sql.create_target schema ;;;
          modify (set_search_path [schema; "public"]) ;;;
          Sql.commit SharedSession ;;;
          storage_op AtCreateTables ;;;
          Sql.create_all schema ;;;
          switch_to_public ;;;
          Sql.commit SharedSession) ;;;
       ret true
     else
       db_path <- gets (fun w => get_tenant_db_path (basedir w) license_key) ;;
       ex <- Sql.target_exists db_path ;;
       if ex then ret true
       else
         storage_op AtCreateSchema ;;;
         Sql.create_target db_path ;;;
         storage_op AtCreateTables ;;;
         Sql.create_all db_path ;;;
         ret true)
    (fun _ => ret false)
    ret.

(** *** Seeding a tenant store *)

Definition has {A} (p : A -> bool) (l : list A) : bool :=
  match find p l with Some _ => true | None => false end.

Definition role_named (n : string) (r : Role.t) : bool := String.eqb (Role.name r) n.

(** [sess.add(Role(...))] unless a role of that name is there. *)
Definition add_role (n n_ar d : string) (rs : list Role.t) : list Role.t :=
  if has (role_named n) rs then rs
  else (rs ++ [Role.mk (Sql.next_id Role.id rs) n n_ar d])%list.

(** The three roles; the value is [admin_role], the row found or the one
    just added (its id is set by the flush that follows the add). *)
Definition seed_roles (t : tables) : tables * Role.t :=
  let '(admin_role, rs) :=
    match find (role_named "admin") (roles t) with
    | Some r => (r, roles t)
    | None =>
        let r := Role.mk (Sql.next_id Role.id (roles t))
                         "admin" "مدير النظام" "Full system access" in
        (r, (roles t ++ [r])%list)
    end in
  let rs := add_role "manager" "مدير" "Manager access" rs in
  let rs := add_role "user" "مستخدم" "Basic user access" rs in
  (mkTables rs (branches t) (users t) (accounts t), admin_role).

Definition branch_coded (c : string) (b : Branch.t) : bool := String.eqb (Branch.code b) c.

(** The default branch; the value is [main_branch]. *)
Definition seed_branch (t : tables) : tables * Branch.t :=
  let '(main_branch, bs) :=
    match find (branch_coded "MAIN") (branches t) with
    | Some b => (b, branches t)
    | None =>
        let b := Branch.mk (Sql.next_id Branch.id (branches t))
                           "الفرع الرئيسي" "Main Branch" "MAIN" true in
        (b, (branches t ++ [b])%list)
    end in
  (mkTables (roles t) bs (users t) (accounts t), main_branch).

Definition user_named (n : string) (u : User.t) : bool := String.eqb (User.username u) n.
Definition user_mailed (e : string) (u : User.t) : bool := String.eqb (User.email u) e.

(** [email] as the admin branch computes it: the client's address when it
    has an [@], else one made up from the user and company names. *)
Definition admin_email (license_obj : License.t) (admin_username : string) : string :=
  let fallback :=
    admin_username +:+ "@" +:+
    PyStr.or_default (License.client_company license_obj) "company" +:+ ".com" in
  match License.client_email license_obj with
  | Some email =>
      if negb (PyStr.truthy (Some email)) || negb (PyStr.contains "@" email)
      then fallback else email
  | None => fallback
  end.

(** The admin user of the license, unless the license carries no admin
    credentials or the user name or e-mail address is taken. *)
Definition seed_admin_user (license_obj : License.t)
    (admin_role : Role.t) (main_branch : Branch.t) (t : tables) : tables * unit :=
  match License.admin_username license_obj, License.admin_password_hash license_obj with
  | Some admin_username, Some admin_password_hash =>
      if PyStr.truthy (Some admin_username) && PyStr.truthy (Some admin_password_hash)
      then
        let email := admin_email license_obj admin_username in
        if negb (has (user_named admin_username) (users t))
           && negb (has (user_mailed email) (users t))
        then
          let admin_user :=
            User.mk (Sql.next_id User.id (users t)) admin_username email
                    (License.client_name license_obj) (License.client_phone license_obj)
                    true true (Role.id admin_role) (Branch.id main_branch)
                    admin_password_hash None in
          (mkTables (roles t) (branches t) (users t ++ [admin_user])%list (accounts t), tt)
        else (t, tt)
      else (t, tt)
  | _, _ => (t, tt)
  end.

Definition account_coded (c : string) (a : Account.t) : bool := String.eqb (Account.code a) c.

(** code, name, name_en, account_type of the chart-of-accounts skeleton *)
Definition CHART_OF_ACCOUNTS : list (string * string * string * string) :=
  [ ("1000", "الأصول", "Assets", "asset");
    ("2000", "الخصوم", "Liabilities", "liability");
    ("3000", "حقوق الملكية", "Equity", "equity");
    ("4000", "الإيرادات", "Revenue", "revenue");
    ("5000", "المصروفات", "Expenses", "expense") ].

Definition add_account (acs : list Account.t) (acc : string * string * string * string)
    : list Account.t :=
  let '(code, name, name_en, account_type) := acc in
  if has (account_coded code) acs then acs
  else (acs ++ [Account.mk (Sql.next_id Account.id acs) code name name_en account_type true])%list.

Definition seed_accounts (t : tables) : tables * unit :=
  (mkTables (roles t) (branches t) (users t) (fold_left add_account CHART_OF_ACCOUNTS (accounts t)), tt).

(** The statements of the [try] block up to the binding of [sess].
    Under PostgreSQL the [SET] is the one statement of a
    [with app.app_context()] block of its own: the block ends before the
    first query, and [sess], which is [db.session], is used after it. *)
Definition seed_open (license_key : string) : M sess :=
  pg <- gets _is_postgres ;;
  if pg then
    Flask.with_app_context
      (storage_op AtSeedOpen ;;;
       modify (set_search_path [_schema_name license_key; "public"])) ;;;
    ret SharedSession
  else
    uri <- gets (fun w => get_tenant_db_uri w license_key) ;;
    storage_op AtSeedOpen ;;;
    Sql.create_engine uri.

(** A local that the code dereferences without testing it. *)
Definition bound {A} (var : string) (o : option A) : M A :=
  match o with
  | Some a => ret a
  | None => raise (NameError var)
  end.

(** The [try] block from the first query to [sess.commit()]; the first
    query connects the session. *)
Definition seed_rows (sess : sess) (license_obj : License.t) : M unit :=
  Sql.connect sess ;;;
  storage_op AtSeedRoles ;;;
  admin_role <- Sql.run sess seed_roles ;;
  storage_op AtSeedBranch ;;;
  main_branch <- Sql.run sess seed_branch ;;
  storage_op AtSeedAdmin ;;;
  Sql.run sess (seed_admin_user license_obj admin_role main_branch) ;;;
  storage_op AtSeedAccounts ;;;
  Sql.run sess seed_accounts ;;;
  storage_op AtSeedCommit ;;;
  Sql.commit sess.

(** The statements between [sess.commit()] and [return True]. *)
Definition seed_cleanup (sess : sess) : M unit :=
  storage_op AtSeedCleanup ;;;
  pg <- gets _is_postgres ;;
  if pg then switch_to_public ;;; Sql.commit SharedSession
  else Sql.close sess.

(** The rest of the [try] block, once [sess] is bound. *)
Definition seed_body (sess : sess) (license_obj : License.t) : M bool :=
  seed_rows sess license_obj ;;;
  seed_cleanup sess ;;;
  ret true.

(** The [except Exception] handler; [sess] is unbound when the exception
    came before its assignment, and whatever the cleanup raises is
    swallowed by the bare [except: pass]. *)
Definition seed_except (sess : option sess) : M bool :=
  try_except
    (s <- bound "sess" sess ;;
     Sql.rollback s ;;;
     pg <- gets _is_postgres ;;
     if negb pg then Sql.close s else switch_to_public)
    (fun _ => ret tt)
    ret ;;;
  ret false.

Definition initialize_tenant_data (license_key : string) (license_obj : License.t) : M bool :=
  log (InitializeTenantData license_key) ;;;
  try_except (seed_open license_key)
    (fun _ => seed_except None)
    (fun sess =>
       try_except (seed_body sess license_obj)
         (fun _ => seed_except (Some sess))
         ret).

(** The rows a store holds once it has been seeded from the rows [t]. *)
Definition seed_tables (license_obj : License.t) (t : tables) : tables :=
  let '(t, admin_role) := seed_roles t in
  let '(t, main_branch) := seed_branch t in
  let '(t, _) := seed_admin_user license_obj admin_role main_branch t in
  fst (seed_accounts t).

(** Provision, then seed. *)
Definition provision_then_seed (license_key : string) (license_obj : License.t) : M unit :=
  create_tenant_database license_key ;;;
  initialize_tenant_data license_key license_obj ;;;
  ret tt.

(** *** Tenant context helpers *)

Definition set_current_tenant (license_key : string) : M unit :=
  modify (fun w => set_g (g_license_data w) (Some license_key) w) ;;;
  Flask.session_set "tenant_license_key" license_key.

Definition get_current_tenant : M (option string) :=
  g_key <- gets g_tenant_license_key ;;
  match g_key with
  | Some license_key => ret (Some license_key)
  | None => Flask.session_get "tenant_license_key"
  end.

(** [TenantManager.switch_tenant_database(app, license_key)] *)
Definition switch_tenant_database (license_key : string) : M bool :=
  try_except
    (pg <- gets _is_postgres ;;
     if pg then
       switch_schema license_key ;;;
       set_current_tenant license_key ;;;
       ret true
     else
       db_path <- gets (fun w => get_tenant_db_path (basedir w) license_key) ;;
       ex <- Sql.target_exists db_path ;;
       if negb ex then ret false
       else
         modify (set_config_uri ("sqlite:///" +:+ db_path)) ;;;
         set_current_tenant license_key ;;;
         ret true)
    (fun _ => ret false)
    ret.

Definition delete_tenant_database (license_key : string) : M bool :=
  try_except
    (pg <- gets _is_postgres ;;
     if pg then
       let schema := _schema_name license_key in
       Sql.drop_target schema ;;;
       Sql.commit SharedSession ;;;
       ret true
     else
       db_path <- gets (fun w => get_tenant_db_path (basedir w) license_key) ;;
       ex <- Sql.target_exists db_path ;;
       if ex then
         Sql.drop_target db_path ;;;
         ret true
       else ret false)
    (fun _ => ret false)
    ret.

(** [schema_name LIKE 'tenant_%']: in a LIKE pattern [_] stands for any
    one character and [%] for any sequence of characters. *)
Definition like_tenant (schema_name : string) : bool :=
  PyStr.startswith schema_name "tenant" && (7 <=? String.length schema_name)%nat.

(** The license key [list_all_tenants] reads off a schema name. *)
Definition key_of_schema (schema_name : string) : string :=
  PyStr.upper (PyStr.replace "_" "-" (PyStr.replace_str "tenant_" "" schema_name)).

(** [os.listdir(dir)] on the database files: the names of the files
    that lie in [dir] itself. *)
Definition listdir (dir : string) (w : world) : list string :=
  omap (fun path =>
          match PyStr.strip_prefix (OsPath.join dir "") path with
          | Some name =>
              if String.eqb name "" || PyStr.contains "/" name then None else Some name
          | None => None
          end)
       (Sql.catalog w).

(** The license key [list_all_tenants] reads off a file name. *)
Definition key_of_file (f : string) : string :=
  PyStr.replace "_" "-" (PyStr.slice 7 3 f).

Definition list_all_tenants : M (list string) :=
  try_except
    (pg <- gets _is_postgres ;;
     if pg then
       result <- gets (fun w => filter (fun n => like_tenant n = true) (Sql.catalog w)) ;;
       ret (map key_of_schema result)
     else
       tenants_dir <- gets (fun w => get_tenants_dir (basedir w)) ;;
       names <- gets (listdir tenants_dir) ;;
       let files :=
         filter (fun f => PyStr.startswith f "tenant_" && PyStr.endswith f ".db" = true) names in
       ret (map key_of_file files))
    (fun _ => ret [])
    ret.

End TenantManager.

(** ** [app/auth/multi_tenant_login.py] *)

Module MultiTenantLogin.

Import TenantManager.

(** [(success, message, user)] *)
Definition login_result : Type := bool * string * option User.t.

Definition MSG_BAD_KEY : string := "🔑 مفتاح الترخيص غير صحيح".
Definition MSG_INACTIVE : string := "🔑 الترخيص غير نشط".
Definition MSG_SUSPENDED (reason : option string) : string :=
  "🔑 الترخيص معلق: " +:+ PyStr.or_default reason "يرجى الاتصال بالدعم".
Definition MSG_EXPIRED : string := "🔑 انتهت صلاحية الترخيص".
Definition MSG_CREATE_FAILED : string := "❌ فشل إنشاء قاعدة بيانات الترخيص".
Definition MSG_INIT_FAILED : string := "❌ فشل تهيئة بيانات الترخيص".
Definition MSG_NO_USER : string := "❌ اسم المستخدم غير موجود".
Definition MSG_WRONG_PASSWORD : string := "❌ كلمة المرور غير صحيحة".
Definition MSG_ACCOUNT_INACTIVE : string := "❌ الحساب غير نشط".
Definition MSG_LOAD_ERROR : string := "❌ خطأ في تحميل بيانات المستخدم".
Definition MSG_OK : string := "✅ تم تسجيل الدخول بنجاح".

Definition fail {A} (message : string) : stage login_result A :=
  ret (inl (false, message, None)).

(** [lic.expires_at and lic.expires_at < datetime.utcnow()] *)
Definition expired (lic : License.t) (now : Z) : bool :=
  match License.expires_at lic with
  | Some e => (e <? now)%Z
  | None => false
  end.

(** Binding to the master store: the public schema, or the master file. *)
Definition bind_master : M unit :=
  pg <- gets _is_postgres ;;
  if pg then modify (set_search_path ["public"])
  else modify (fun w => set_config_uri ("sqlite:///" +:+ get_master_db_path (basedir w)) w).

(** [License.query.filter_by(license_key=k).first()] *)
Definition license_by_key (k : string) (w : world) : option License.t :=
  find (fun l => String.eqb (License.license_key l) k) (licenses w).

(** Step 1: verify the license in master/public. *)
Definition verify_license (license_key : string) : stage login_result License.t :=
  bind_master ;;;
  lic <- gets (license_by_key license_key) ;;
  match lic with
  | None => fail MSG_BAD_KEY
  | Some lic =>
      if negb (License.is_active lic) then fail MSG_INACTIVE
      else if License.is_suspended lic then fail (MSG_SUSPENDED (License.suspension_reason lic))
      else
        now <- gets utcnow ;;
        if expired lic now then fail MSG_EXPIRED
        else ret (inr lic)
  end.

Definition provision (license_key : string) (lic : License.t) : stage login_result unit :=
  ok <- create_tenant_database license_key ;;
  if negb ok then fail MSG_CREATE_FAILED
  else
    ok <- initialize_tenant_data license_key lic ;;
    if negb ok then fail MSG_INIT_FAILED
    else ret (inr tt).

(** Step 2: ensure the tenant schema/DB exists. *)
Definition ensure_tenant (license_key : string) (lic : License.t) : stage login_result unit :=
  pg <- gets _is_postgres ;;
  if pg then
    let schema := _schema_name license_key in
    ex <- Sql.target_exists schema ;;
    if negb ex then provision license_key lic else ret (inr tt)
  else
    tenant_db_path <- gets (fun w => get_tenant_db_path (basedir w) license_key) ;;
    ex <- Sql.target_exists tenant_db_path ;;
    if negb ex then provision license_key lic else ret (inr tt).

Definition user_by_username (s : sess) (username : string) : M (option User.t) :=
  t <- Sql.read s ;;
  ret (find (user_named username) (users t)).

(** Step 3 under PostgreSQL: the search path of [db.session] is set to
    the tenant schema and the user is read through [db.session]. *)
Definition find_user_in_schema (username license_key : string) : M (option User.t) :=
  switch_schema license_key ;;;
  user_by_username SharedSession username.

(** Step 3 under SQLite: the user is read through a session on an engine
    of its own, closed and disposed of in the [finally] block. *)
Definition find_user_in_file (username license_key : string) : M (option User.t) :=
  tenant_db_path <- gets (fun w => get_tenant_db_path (basedir w) license_key) ;;
  tsess <- Sql.create_engine ("sqlite:///" +:+ tenant_db_path) ;;
  try_finally (user_by_username tsess username) (Sql.close tsess).

(** The three checks on the row that was found. *)
Definition check_credentials (password : string) (user : option User.t)
    : stage login_result User.t :=
  match user with
  | None => fail MSG_NO_USER
  | Some user =>
      check <- gets check_password_hash ;;
      if negb (check (User.password_hash user) password) then fail MSG_WRONG_PASSWORD
      else if negb (User.is_active user) then fail MSG_ACCOUNT_INACTIVE
      else ret (inr user)
  end.

(** Step 3: authenticate the user in the tenant schema/DB. *)
Definition authenticate_user (username password license_key : string)
    : stage login_result User.t :=
  pg <- gets _is_postgres ;;
  user <- (if pg then find_user_in_schema username license_key
           else find_user_in_file username license_key) ;;
  check_credentials password user.

Definition user_with_id (i : Z) (u : User.t) : bool := (User.id u =? i)%Z.

(** [db.session.get(User, user_id)] *)
Definition get_user (user_id : Z) : M (option User.t) :=
  t <- Sql.read SharedSession ;;
  ret (find (user_with_id user_id) (users t)).

(** [user.last_login = datetime.utcnow()] on the row of [db.session] *)
Definition touch_last_login (user_id : Z) : M unit :=
  now <- gets utcnow ;;
  Sql.run SharedSession (fun t =>
    (mkTables (roles t) (branches t)
       (map (fun u => if user_with_id user_id u then User.with_last_login now u else u) (users t))
       (accounts t), tt)).

(** Step 4 under PostgreSQL: already in the tenant schema. *)
Definition reload_user_in_schema (user_id : Z) : M (option User.t) :=
  touch_last_login user_id ;;;
  Sql.commit SharedSession ;;;
  get_user user_id.

(** Step 4 under SQLite: Flask-SQLAlchemy is switched to the tenant
    database and the user is reloaded through it. *)
Definition reload_user_in_file (license_key : string) (user_id : Z) : M (option User.t) :=
  tenant_db_uri <- gets (fun w => get_tenant_db_uri w license_key) ;;
  modify (set_config_uri tenant_db_uri) ;;;
  user <- get_user user_id ;;
  match user with
  | Some _ =>
      touch_last_login user_id ;;;
      Sql.commit SharedSession ;;;
      get_user user_id
  | None => ret None
  end.

(** The end of step 4: the session is bound and the login succeeds. *)
Definition bind_session (license_key : string) (user : option User.t)
    : stage login_result login_result :=
  match user with
  | None => fail MSG_LOAD_ERROR
  | Some user =>
      try_except (Flask.session_set "tenant_license_key" license_key)
        (fun e => match e with RuntimeError _ => ret tt | _ => raise e end)
        ret ;;;
      ret (inr (true, MSG_OK, Some user))
  end.

(** Step 4: switch to the tenant DB/schema for the rest of the request. *)
Definition bind_tenant (license_key : string) (user : User.t)
    : stage login_result login_result :=
  let user_id := User.id user in
  pg <- gets _is_postgres ;;
  user <- (if pg then reload_user_in_schema user_id
           else reload_user_in_file license_key user_id) ;;
  bind_session license_key user.

(** The four steps, each of which may return. *)
Definition login_steps (username password license_key : string)
    : stage login_result login_result :=
  next (verify_license license_key) (fun lic =>
  next (ensure_tenant license_key lic) (fun _ =>
  next (authenticate_user username password license_key) (fun user =>
  bind_tenant license_key user))).

(** The whole body is one [with app.app_context()] block. *)
Definition authenticate_with_license (username password license_key : string)
    : M login_result :=
  Flask.with_app_context (finish (login_steps username password license_key)).

End MultiTenantLogin.

(** ** [app/tenant_middleware.py] *)

Module TenantMiddleware.

Import TenantManager.

Definition EXEMPT_ROUTES : list string :=
  [ "/static/"; "/auth/login"; "/auth/logout"; "/auth/register";
    "/security/license"; "/security/create_license"; "/_debug_toolbar/";
    "/favicon.ico" ].

(** [redirect(url_for(endpoint))] *)
Inductive response := Redirect (endpoint : string).

Definition is_exempt (path : string) : bool :=
  existsb (fun exempt_route => PyStr.startswith path exempt_route) EXEMPT_ROUTES.

Definition snapshot (license : License.t) : license_data :=
  mkLicenseData (License.id license) (License.license_key license)
    (License.client_name license) (License.client_email license)
    (License.license_type license) (License.expires_at license)
    (License.is_active license) (License.is_suspended license).

(** [License.query.filter_by(license_key=k, is_active=True,
    is_suspended=False).first()] *)
Definition active_license (k : string) (w : world) : option License.t :=
  find (fun l => String.eqb (License.license_key l) k
                 && License.is_active l && negb (License.is_suspended l))
       (licenses w).

(** The body of the [try] block; its value is what the function returns
    from inside the block, [None] when it falls through. *)
Definition validate (tenant_license_key : string) : M (option response) :=
  pg <- gets _is_postgres ;;
  (if pg then
     storage_op AtBindMaster ;;;
     switch_to_public
   else
     modify (fun w => set_config_uri ("sqlite:///" +:+ get_master_db_path (basedir w)) w) ;;;
     storage_op AtBindMaster) ;;;
  storage_op AtLicenseLookup ;;;
  license <- gets (active_license tenant_license_key) ;;
  match license with
  | None =>
      Flask.flash "الترخيص غير نشط أو معلق. يرجى الاتصال بالدعم." "error" ;;;
      Flask.session_pop "tenant_license_key" ;;;
      ret (Some (Redirect "auth.login"))
  | Some license =>
      now <- gets utcnow ;;
      if MultiTenantLogin.expired license now then
        Flask.flash "انتهت صلاحية الترخيص. يرجى تجديد الترخيص." "error" ;;;
        Flask.session_pop "tenant_license_key" ;;;
        ret (Some (Redirect "auth.login"))
      else
        storage_op AtSnapshot ;;;
        modify (set_g (Some (snapshot license)) (Some tenant_license_key)) ;;;
        ret None
  end.

(** Whether the [try] block has left the transaction of [db.session]
    aborted.  PostgreSQL refuses every statement of a transaction after
    one of its statements has failed, until the transaction is rolled
    back.  The statements of the block are the [SET] and the license
    query; the hook runs them and the [SET] of the [finally] block in
    one transaction and rolls nothing back in between. *)
Definition in_failed_transaction {A} (r : outcome A) : bool :=
  match r with
  | Raise (StorageFault AtBindMaster) | Raise (StorageFault AtLicenseLookup) => true
  | _ => false
  end.

(** The [finally] block: switch to the tenant schema/database.  Under
    PostgreSQL the switch is a statement on [db.session], refused when
    the transaction is [aborted]. *)
Definition switch_to_tenant (aborted : bool) (tenant_license_key : string) : M unit :=
  pg <- gets _is_postgres ;;
  if pg then
    if aborted then raise InFailedSqlTransaction
    else switch_schema tenant_license_key
  else
    tenant_db_uri <- gets (fun w => get_tenant_db_uri w tenant_license_key) ;;
    modify (set_config_uri tenant_db_uri).

(** The [before_request] hook, for a request to [path]. *)
Definition switch_tenant_database (path : string) : M (option response) :=
  if is_exempt path then ret None
  else
    tenant_license_key <- Flask.session_get "tenant_license_key" ;;
    if negb (PyStr.truthy tenant_license_key) then
      auth <- gets is_authenticated ;;
      if auth then
        Flask.flash "خطأ في تحديد الترخيص. يرجى تسجيل الدخول مرة أخرى." "error" ;;;
        ret (Some (Redirect "auth.logout"))
      else ret (Some (Redirect "auth.login"))
    else
      let tenant_license_key := PyStr.or_default tenant_license_key "" in
      try_finally_on (validate tenant_license_key)
        (fun r => switch_to_tenant (in_failed_transaction r) tenant_license_key).

(** The context processor: [getattr(g, 'license_data', None)], handed to
    every template as [license]. *)
Definition inject_license : M (option license_data) := gets g_license_data.

End TenantMiddleware.

(** ** [license_control.py] *)

Module LicenseControl.

(** A row of the [licenses] table as the control panel reads it through
    [sqlite3]; [expires_at] is the stored text, [None] for NULL. *)
Record row := mkRow {
  license_key : string;
  client_name : option string;
  client_company : option string;
  admin_username : option string;
  is_active : bool;
  is_suspended : bool;
  suspension_reason : option string;
  expires_at : option string;
  created_at : option string;
  max_users : option Z;
  client_email : option string;
  client_phone : option string
}.

Definition with_expires_at (e : option string) (r : row) : row :=
  mkRow (license_key r) (client_name r) (client_company r) (admin_username r)
        (is_active r) (is_suspended r) (suspension_reason r) e
        (created_at r) (max_users r) (client_email r) (client_phone r).

(** Python's [datetime] text conversions.  A [datetime] is a count of
    microseconds since 0001-01-01 00:00:00; [strptime text format] is
    [None] where Python raises [ValueError]. *)
Record datetime_lib := mkDatetimeLib {
  strptime : string -> string -> option Z;
  strftime : Z -> string -> string
}.

Definition US_PER_DAY : Z := 86400000000.

(** One past [datetime.max] (9999-12-31 23:59:59.999999). *)
Definition DATETIME_END : Z := 3652059 * US_PER_DAY.

(** [timedelta(days=days)], or the message of its [OverflowError] *)
Definition timedelta (days : Z) : string + Z :=
  if Z.abs days <=? 999999999 then inr (days * US_PER_DAY)
  else inl ("days=" +:+ PyStr.of_Z days +:+ "; must have magnitude <= 999999999").

(** [dt + td], or the message of its [OverflowError] *)
Definition datetime_add (dt td : Z) : string + Z :=
  let r := dt + td in
  if (0 <=? r) && (r <? DATETIME_END) then inr r
  else inl "date value out of range".

(** The values a [datetime] takes. *)
Definition representable (dt : Z) : Prop := 0 <= dt < DATETIME_END.

Definition FORMAT : string := "%Y-%m-%d %H:%M:%S".

(** The expiration to extend from: the stored one when it parses, with
    or without a fractional part, else the current time. *)
Definition parse_expires (py : datetime_lib) (now : Z) (current_expires : option string) : Z :=
  if PyStr.truthy current_expires then
    let text := PyStr.or_default current_expires "" in
    match strptime py text FORMAT with
    | Some expires_dt => expires_dt
    | None =>
        match strptime py (PyStr.split_head "." text) FORMAT with
        | Some expires_dt => expires_dt
        | None => now
        end
    end
  else now.

(** [WHERE license_key = ?] *)
Definition keyed (key : string) (r : row) : bool := String.eqb (license_key r) key.

Definition with_is_active (a : bool) (r : row) : row :=
  mkRow (license_key r) (client_name r) (client_company r) (admin_username r)
        a (is_suspended r) (suspension_reason r) (expires_at r)
        (created_at r) (max_users r) (client_email r) (client_phone r).

Definition with_suspension (s : bool) (reason : option string) (r : row) : row :=
  mkRow (license_key r) (client_name r) (client_company r) (admin_username r)
        (is_active r) s reason (expires_at r)
        (created_at r) (max_users r) (client_email r) (client_phone r).

(** [UPDATE licenses SET ... WHERE license_key = ?]: the table afterwards
    and [cursor.rowcount]. *)
Definition update_keyed (key : string) (set : row -> row) (licenses : list row)
    : list row * Z :=
  (map (fun r => if keyed key r then set r else r) licenses,
   Z.of_nat (length (filter (fun r => keyed key r = true) licenses))).

(** [activate_license(license_key)] on the table [licenses]: the result
    pair and the table afterwards. *)
Definition activate_license (licenses : list row) (key : string)
    : (bool * string) * list row :=
  let '(licenses', affected) :=
    update_keyed key (fun r => with_suspension false None (with_is_active true r)) licenses in
  ((0 <? affected,
    if 0 <? affected then "تم تفعيل الترخيص بنجاح" else "الترخيص غير موجود"),
   licenses').

(** [suspend_license(license_key, reason)] *)
Definition suspend_license (licenses : list row) (key reason : string)
    : (bool * string) * list row :=
  let '(licenses', affected) :=
    update_keyed key (with_suspension true (Some reason)) licenses in
  ((0 <? affected,
    if 0 <? affected then "تم إيقاف الترخيص بنجاح" else "الترخيص غير موجود"),
   licenses').

(** [deactivate_license(license_key)] *)
Definition deactivate_license (licenses : list row) (key : string)
    : (bool * string) * list row :=
  let '(licenses', affected) := update_keyed key (with_is_active false) licenses in
  ((0 <? affected,
    if 0 <? affected then "تم إلغاء تفعيل الترخيص بنجاح" else "الترخيص غير موجود"),
   licenses').

Definition NEWLINE : string := String (ascii_of_nat 10) EmptyString.

(** [extend_license(license_key, days)] at local time [now] on the table
    [licenses]: the result pair and the table afterwards. *)
Definition extend_license (py : datetime_lib) (now : Z) (licenses : list row)
    (key : string) (days : Z) : (bool * string) * list row :=
  match find (keyed key) licenses with
  | None => ((false, "الترخيص غير موجود"), licenses)
  | Some r =>
      let current_expires := expires_at r in
      let expires_dt := parse_expires py now current_expires in
      match timedelta days with
      | inl e => ((false, "خطأ: " +:+ e), licenses)
      | inr td =>
          match datetime_add expires_dt td with
          | inl e => ((false, "خطأ: " +:+ e), licenses)
          | inr new_expires =>
              ((true,
                "تم تمديد الترخيص لمدة " +:+ PyStr.of_Z days +:+ " يوم" +:+ NEWLINE +:+
                "تاريخ الانتهاء الجديد: " +:+ strftime py new_expires "%Y-%m-%d"),
               map (fun r => if keyed key r
                             then with_expires_at (Some (strftime py new_expires FORMAT)) r
                             else r)
                   licenses)
          end
      end
  end.

End LicenseControl.

(** ** Notions used to state the properties *)

(** Normalization of case and separator characters, as the specification
    words the equivalence of tenant identifiers: the separator [-] is read
    as [_] and letters are read in lower case, character by character. *)
Definition spec_normalize_char (c : ascii) : ascii :=
  PyStr.lower_char (if Ascii.eqb c "-" then "_"%char else c).

Fixpoint spec_normalize (s : string) : string :=
  match s with
  | EmptyString => EmptyString
  | String c s' => String (spec_normalize_char c) (spec_normalize s')
  end.

Definition equivalent_ids (a b : string) : Prop := spec_normalize a = spec_normalize b.

(** The outcome and the final state of a run. *)
Definition result_of {A} (m : M A) (w : world) : outcome A := fst (m w).
Definition state_after {A} (m : M A) (w : world) : world := snd (m w).

(** The URI of the master file of a SQLite deployment. *)
Definition master_uri (w : world) : string :=
  "sqlite:///" +:+ TenantManager.get_master_db_path (basedir w).

(** The URI of the tenant file of a SQLite deployment. *)
Definition tenant_uri (w : world) (license_key : string) : string :=
  "sqlite:///" +:+ TenantManager.get_tenant_db_path (basedir w) license_key.

(** A PostgreSQL deployment: the configured URI reads as PostgreSQL to
    [_is_postgres] and is no SQLite URI. *)
Definition postgres_deployment (w : world) : Prop :=
  TenantManager._is_postgres w = true /\
  PyStr.strip_prefix Sql.SQLITE_PREFIX (config_uri w) = None.

(** A SQLite deployment: neither the configured URI nor the URI of the
    master file reads as PostgreSQL to [_is_postgres]. *)
Definition sqlite_deployment (w : world) : Prop :=
  TenantManager._is_postgres w = false /\
  TenantManager._is_postgres (set_config_uri (master_uri w) w) = false.

(** The storage target of a tenant under the strategy in force. *)
Definition target_for (w : world) (license_key : string) : string :=
  if TenantManager._is_postgres w then TenantManager._schema_name license_key
  else TenantManager.get_tenant_db_path (basedir w) license_key.

(** A license the login sequence rejects: inactive, suspended, or with an
    expiry earlier than the current time. *)
Definition invalid_license (now : Z) (l : License.t) : Prop :=
  License.is_active l = false \/
  License.is_suspended l = true \/
  exists e, License.expires_at l = Some e /\ e < now.

Definition valid_license (now : Z) (l : License.t) : Prop :=
  License.is_active l = true /\
  License.is_suspended l = false /\
  MultiTenantLogin.expired l now = false.

(** The deployments the two strategies are meant for. *)
Definition coherent_deployment (w : world) : Prop :=
  postgres_deployment w \/ sqlite_deployment w.

(** The state in which binding to the master store leaves a deployment. *)
Definition at_master (w : world) : world :=
  if TenantManager._is_postgres w then set_search_path ["public"] w
  else set_config_uri (master_uri w) w.

(** The fault points inside the [try] block of [initialize_tenant_data],
    and those among them that come before the commit has gone through. *)
Definition is_seed_point (p : fault_point) : bool :=
  match p with
  | AtSeedOpen | AtSeedRoles | AtSeedBranch | AtSeedAdmin | AtSeedAccounts
  | AtSeedCommit | AtSeedCleanup => true
  | _ => false
  end.

Definition before_commit (p : fault_point) : bool :=
  match p with
  | AtSeedOpen | AtSeedRoles | AtSeedBranch | AtSeedAdmin | AtSeedAccounts
  | AtSeedCommit => true
  | _ => false
  end.

(** [after] is [before] rolled back: every target is still there with the
    committed tables it had, and no target holds an open transaction that
    it did not hold before. *)
Definition rolled_back_db (before after : option tenant_db) : Prop :=
  match before, after with
  | Some db, Some db' =>
      db_tables db' = db_tables db /\ (db_txn db' = None \/ db_txn db' = db_txn db)
  | None, None => True
  | _, _ => False
  end.

Definition rolled_back (before after : gmap string tenant_db) : Prop :=
  forall tg, rolled_back_db (before !! tg) (after !! tg).

(** The same, but for the SQLite file [created] to which a session has
    connected: [sqlite3.connect] creates a file that does not exist, and
    a rollback leaves it there, empty. *)
Definition rolled_back_from (created : option string)
    (before after : gmap string tenant_db) : Prop :=
  forall tg,
    match before !! tg with
    | Some db => rolled_back_db (Some db) (after !! tg)
    | None =>
        after !! tg = None \/
        (created = Some tg /\ after !! tg = Some (mkDb None None))
    end.

(** The SQLite file to which the session of the seeding connects when
    the storage fails at [p]: none when the failure comes before the
    session is opened; the file of the tenant under SQLite; under
    PostgreSQL [db.session], which connects to a file only when the
    configured URI is a SQLite URI. *)
Definition seed_connects (w : world) (license_key : string) (p : fault_point)
    : option string :=
  if decide (p = AtSeedOpen) then None
  else if TenantManager._is_postgres w
       then PyStr.strip_prefix Sql.SQLITE_PREFIX (config_uri w)
       else Some (TenantManager.get_tenant_db_path (basedir w) license_key).

(** What [provision_then_seed] does to the storage target [k] holds, where
    [tg] is the target of the tenant: its rows are seeded and
    committed (a SQLite file that exists without tables stays as it is);
    under PostgreSQL a transaction left open on [public] is committed. *)
Definition seeded_db (license_obj : License.t) (t : tables) : tenant_db :=
  mkDb (Some (TenantManager.seed_tables license_obj t)) None.

Definition pair_effect (pg : bool) (tg : string) (license_obj : License.t)
    (k : string) (o : option tenant_db) : option tenant_db :=
  if decide (k = tg) then
    match o with
    | None => Some (seeded_db license_obj empty_tables)
    | Some db =>
        match Sql.view db with
        | Some t => Some (seeded_db license_obj t)
        | None => if pg then Some (seeded_db license_obj empty_tables) else Some db
        end
    end
  else if pg && bool_decide (k = "public") then Sql.commit_db <$> o
  else o.

(** [new] is [old] followed by rows whose natural key (the column [key])
    no row of [old] carries and no two of which share. *)
Definition appends_fresh {A} (key : A -> string) (old new : list A) : Prop :=
  exists added,
    new = (old ++ added)%list /\
    NoDup (map key added) /\
    Forall (fun x => TenantManager.has (fun y => String.eqb (key y) (key x)) old = false) added.

(** The roles and the branches that the first two steps of the seeding
    leave, from those they find. *)
Definition seeded_roles (rs : list Role.t) : list Role.t :=
  TenantManager.add_role "user" "مستخدم" "Basic user access"
    (TenantManager.add_role "manager" "مدير" "Manager access"
       (TenantManager.add_role "admin" "مدير النظام" "Full system access" rs)).

Definition seeded_branches (bs : list Branch.t) : list Branch.t :=
  if TenantManager.has (TenantManager.branch_coded "MAIN") bs then bs
  else (bs ++ [Branch.mk (Sql.next_id Branch.id bs)
                 "الفرع الرئيسي" "Main Branch" "MAIN" true])%list.

(** A store that holds every row the seeding looks for: the three roles,
    the default branch, the chart of accounts, and, when the license
    carries admin credentials, a user with the admin's name or e-mail
    address. *)
Definition fully_seeded (license_obj : License.t) (t : tables) : Prop :=
  TenantManager.has (TenantManager.role_named "admin") (roles t) = true /\
  TenantManager.has (TenantManager.role_named "manager") (roles t) = true /\
  TenantManager.has (TenantManager.role_named "user") (roles t) = true /\
  TenantManager.has (TenantManager.branch_coded "MAIN") (branches t) = true /\
  (forall u h,
     License.admin_username license_obj = Some u ->
     License.admin_password_hash license_obj = Some h ->
     u <> "" -> h <> "" ->
     TenantManager.has (TenantManager.user_named u) (users t)
     || TenantManager.has
          (TenantManager.user_mailed (TenantManager.admin_email license_obj u)) (users t)
     = true) /\
  Forall (fun acc : string * string * string * string =>
            TenantManager.has (TenantManager.account_coded acc.1.1.1) (accounts t) = true)
         TenantManager.CHART_OF_ACCOUNTS.

(** A condition on the state that a computation keeps, whether it
    returns or raises. *)
Definition invariant {A} (I : world -> Prop) (m : M A) : Prop :=
  forall w, I w -> I (state_after m w).

(** A computation that raises from every state satisfying [I]. *)
Definition raises_under {A} (I : world -> Prop) (m : M A) : Prop :=
  forall w, I w -> exists e, result_of m w = Raise e.

(** ** Sample deployments *)

Module Sample.

Definition license : License.t :=
  License.mk 1 "LIC-0001" (Some "Acme Trading") (Some "owner@acme.test") (Some "acme")
    None (Some "standard") true false None None (Some "admin") (Some "hash:secret").

Definition suspended_license : License.t :=
  License.mk 1 "LIC-0001" (Some "Acme Trading") (Some "owner@acme.test") (Some "acme")
    None (Some "standard") true true (Some "unpaid") None (Some "admin") (Some "hash:secret").

Definition admin : User.t :=
  User.mk 1 "admin" "owner@acme.test" (Some "Acme Trading") None true true 1 1 "hash:secret" None.

(** A verifier that accepts the password whose hash is ["hash:" + password]. *)
Definition check (hash password : string) : bool := String.eqb hash ("hash:" +:+ password).

Definition POSTGRES_URI : string := "postgresql://ded@db.internal/ded".
Definition SQLITE_URI : string := "sqlite:////srv/ded/licenses_master.db".

Definition seeded : tables :=
  mkTables [Role.mk 1 "admin" "مدير النظام" "Full system access"]
           [Branch.mk 1 "الفرع الرئيسي" "Main Branch" "MAIN" true]
           [admin] [].

(** A deployment at rest, bound to the master store. *)
Definition deployment (uri : string) (fault : option fault_point)
    (sess : option (gmap string string)) (lics : list License.t)
    (dbs : gmap string tenant_db) : world :=
  mkWorld "/srv/ded" check 1000 false fault uri ["public"] sess None None [] lics dbs [].

End Sample.

Module SampleWorlds.

(** A provisioned PostgreSQL deployment, bound to the master schema. *)
Definition postgres (sess : option (gmap string string)) : world :=
  Sample.deployment Sample.POSTGRES_URI None sess [Sample.license]
    {[ "tenant_lic_0001" := mkDb (Some Sample.seeded) None ]}.

(** A provisioned SQLite deployment, bound to the master file. *)
Definition sqlite (sess : option (gmap string string)) : world :=
  Sample.deployment Sample.SQLITE_URI None sess [Sample.license]
    {[ "/srv/ded/tenant_databases/tenant_LIC_0001.db" := mkDb (Some Sample.seeded) None ]}.

(** A stand-in for Python's [datetime] conversions: nothing parses, and
    a [datetime] prints as its count of microseconds. *)
Definition py : LicenseControl.datetime_lib :=
  LicenseControl.mkDatetimeLib (fun _ _ => None) (fun dt _ => PyStr.of_Z dt).

(** A perpetual license in the table of the control panel. *)
Definition perpetual : LicenseControl.row :=
  LicenseControl.mkRow "LIC-0001" (Some "Acme Trading") (Some "acme") (Some "admin")
    true false None None (Some "2025-01-01 00:00:00") (Some 5) None None.

(** Some time in 2025, in microseconds since 0001-01-01. *)
Definition NOW : Z := 63900000000000000.

(** A stand-in that reads one timestamp, as [NOW]. *)
Definition clock : LicenseControl.datetime_lib :=
  LicenseControl.mkDatetimeLib
    (fun text _ => if String.eqb text "2025-12-01 00:00:00" then Some NOW else None)
    (fun dt _ => PyStr.of_Z dt).

(** A suspended license with an expiry in the table of the control panel. *)
Definition suspended : LicenseControl.row :=
  LicenseControl.mkRow "LIC-0001" (Some "Acme Trading") (Some "acme") (Some "admin")
    true true (Some "unpaid") (Some "2025-12-01 00:00:00") (Some "2025-01-01 00:00:00")
    (Some 5) None None.

End SampleWorlds.

(** * Properties *)

(** ** Strings and paths *)

Lemma append_cons (c : ascii) (s1 s2 : string) :
  String c s1 +:+ s2 = String c (s1 +:+ s2).
Proof. reflexivity. Qed.

Lemma append_nil_l (s : string) : "" +:+ s = s.
Proof. reflexivity. Qed.

Lemma append_assoc (s1 s2 s3 : string) : (s1 +:+ s2) +:+ s3 = s1 +:+ (s2 +:+ s3).
Proof.
  induction s1 as [|c s1 IH]; [reflexivity|].
  rewrite !append_cons. now rewrite IH.
Qed.

Lemma append_length (s1 s2 : string) :
  String.length (s1 +:+ s2) = (String.length s1 + String.length s2)%nat.
Proof.
  induction s1 as [|c s1 IH]; [reflexivity|].
  rewrite append_cons. simpl. now rewrite IH.
Qed.

Lemma append_inj_r (s x y : string) : x +:+ s = y +:+ s -> x = y.
Proof.
  revert y; induction x as [|a x IH]; intros [|b y] H.
  - reflexivity.
  - apply (f_equal String.length) in H.
    rewrite !append_length in H; simpl in H; lia.
  - apply (f_equal String.length) in H.
    rewrite !append_length in H; simpl in H; lia.
  - rewrite !append_cons in H. injection H as -> H. f_equal. now apply IH.
Qed.

Lemma strip_prefix_append (p s : string) : PyStr.strip_prefix p (p +:+ s) = Some s.
Proof.
  induction p as [|a p IH]; [reflexivity|].
  rewrite append_cons. simpl. now rewrite Ascii.eqb_refl.
Qed.

Lemma spec_normalize_lower_replace (s : string) :
  spec_normalize s = PyStr.lower (PyStr.replace "-" "_" s).
Proof.
  induction s as [|c s IH]; simpl; [reflexivity|].
  now rewrite IH.
Qed.

(** Joining a fixed directory with a relative name only prefixes the name. *)
Lemma join_relative (a b : string) :
  PyStr.startswith b "/" = false ->
  exists prefix, forall b', PyStr.startswith b' "/" = false -> OsPath.join a b' = prefix +:+ b'.
Proof.
  intros _. unfold OsPath.join.
  destruct (String.eqb a "" || OsPath.ends_with_sep a) eqn:E.
  - exists a. intros b' ->. reflexivity.
  - exists (a +:+ "/"). intros b' ->.
    now rewrite append_assoc.
Qed.

Lemma get_tenant_db_path_inj (basedir a b : string) :
  TenantManager.get_tenant_db_path basedir a = TenantManager.get_tenant_db_path basedir b ->
  PyStr.replace "-" "_" a = PyStr.replace "-" "_" b.
Proof.
  unfold TenantManager.get_tenant_db_path. intros H.
  destruct (join_relative (TenantManager.get_tenants_dir basedir) "tenant_" eq_refl)
    as [prefix Hp].
  rewrite !Hp in H by reflexivity.
  apply String.app_inj in H. apply (String.app_inj "tenant_") in H.
  now apply append_inj_r in H.
Qed.

Section Locator.

Variables (basedir A B : string).

(** C1: tenant identifiers that are not equivalent after normalization of
    case and separator characters never share a storage target: their
    schema names differ and their database file paths differ. *)
Theorem locator_collision_free :
  ~ equivalent_ids A B ->
  TenantManager._schema_name A <> TenantManager._schema_name B /\
  TenantManager.get_tenant_db_path basedir A <> TenantManager.get_tenant_db_path basedir B.
Proof.
  unfold equivalent_ids. rewrite !spec_normalize_lower_replace. intros Hne. split.
  - unfold TenantManager._schema_name. intros H.
    apply String.app_inj in H. contradiction.
  - intros H. apply get_tenant_db_path_inj in H. apply Hne. now rewrite H.
Qed.

End Locator.

Lemma locator_collision_free_witness :
  ~ equivalent_ids "LIC-0001" "lic_0002" /\
  TenantManager._schema_name "LIC-0001" <> TenantManager._schema_name "lic_0002" /\
  TenantManager.get_tenant_db_path "/srv/ded" "LIC-0001"
    <> TenantManager.get_tenant_db_path "/srv/ded" "lic_0002".
Proof.
  assert (H : ~ equivalent_ids "LIC-0001" "lic_0002") by (vm_compute; discriminate).
  split; [exact H | exact (locator_collision_free "/srv/ded" "LIC-0001" "lic_0002" H)].
Defined.

(** ** Reasoning about computations *)

Lemma bind_ret_eq {A B} (m : M A) (k : A -> M B) (w w' : world) (a : A) :
  m w = (Ret a, w') -> bind m k w = k a w'.
Proof. unfold bind. now intros ->. Qed.

Lemma bind_raise_eq {A B} (m : M A) (k : A -> M B) (w w' : world) (e : exn) :
  m w = (Raise e, w') -> bind m k w = (Raise e, w').
Proof. unfold bind. now intros ->. Qed.

Lemma next_inl {R A B} (m : stage R A) (k : A -> stage R B) (w w' : world) (r : R) :
  m w = (Ret (inl r), w') -> next m k w = (Ret (inl r), w').
Proof. unfold next, bind, ret. now intros ->. Qed.

Lemma next_inr {R A B} (m : stage R A) (k : A -> stage R B) (w w' : world) (a : A) :
  m w = (Ret (inr a), w') -> next m k w = k a w'.
Proof. unfold next, bind. now intros ->. Qed.

Lemma next_raise {R A B} (m : stage R A) (k : A -> stage R B) (w w' : world) (e : exn) :
  m w = (Raise e, w') -> next m k w = (Raise e, w').
Proof. unfold next, bind. now intros ->. Qed.

Lemma finish_inl {R} (m : stage R R) (w w' : world) (r : R) :
  m w = (Ret (inl r), w') -> finish m w = (Ret r, w').
Proof. unfold finish, bind, ret. now intros ->. Qed.

Lemma finish_inr {R} (m : stage R R) (w w' : world) (r : R) :
  m w = (Ret (inr r), w') -> finish m w = (Ret r, w').
Proof. unfold finish, bind, ret. now intros ->. Qed.

(** How a staged function came to return. *)
Lemma next_returns {R A B} (m : stage R A) (k : A -> stage R B) (w w' : world) (x : R + B) :
  next m k w = (Ret x, w') ->
  (exists r, m w = (Ret (inl r), w') /\ x = inl r) \/
  (exists a w1, m w = (Ret (inr a), w1) /\ k a w1 = (Ret x, w')).
Proof.
  unfold next, bind, ret. destruct (m w) as [[[r|a]|e] w1]; intros H.
  - injection H as <- <-. left; eauto.
  - right; eauto.
  - discriminate.
Qed.

Lemma finish_returns {R} (m : stage R R) (w w' : world) (r : R) :
  finish m w = (Ret r, w') -> m w = (Ret (inl r), w') \/ m w = (Ret (inr r), w').
Proof.
  unfold finish, bind, ret. destruct (m w) as [[[x|x]|e] w1]; intros H.
  - injection H as <- <-. now left.
  - injection H as <- <-. now right.
  - discriminate.
Qed.

(** *** The end of an application context *)

Lemma with_app_context_run {A} (m : M A) (w w' : world) (r : outcome A) :
  m w = (r, w') -> Flask.with_app_context m w = (r, Sql.settle false SharedSession w').
Proof.
  intros H. unfold Flask.with_app_context, try_finally, Sql.remove, modify. now rewrite H.
Qed.

Lemma with_app_context_inv {A} (m : M A) (w w' : world) (r : outcome A) :
  Flask.with_app_context m w = (r, w') ->
  exists w0, m w = (r, w0) /\ w' = Sql.settle false SharedSession w0.
Proof.
  destruct (m w) as [r0 w0] eqn:E. rewrite (with_app_context_run m w w0 r0 E).
  intros H. injection H as <- <-. eauto.
Qed.

Lemma with_app_context_result {A} (m : M A) (w : world) :
  result_of (Flask.with_app_context m) w = result_of m w.
Proof.
  unfold result_of. destruct (m w) as [r w'] eqn:E.
  now rewrite (with_app_context_run m w w' r E).
Qed.

Lemma with_app_context_state {A} (m : M A) (w : world) :
  state_after (Flask.with_app_context m) w = Sql.settle false SharedSession (state_after m w).
Proof.
  unfold state_after. destruct (m w) as [r w'] eqn:E.
  now rewrite (with_app_context_run m w w' r E).
Qed.

(** The end of a transaction touches the search path and nothing else. *)
Ltac settle_frame := unfold Sql.settle; repeat destruct (Sql.on_file _ _); try reflexivity;
                     match goal with |- context [if ?b then _ else _] => now destruct b end.

Lemma settle_trace (keep : bool) (s : sess) (w : world) :
  trace (Sql.settle keep s w) = trace w.
Proof. settle_frame. Qed.

Lemma settle_stores (keep : bool) (s : sess) (w : world) :
  stores (Sql.settle keep s w) = stores w.
Proof. settle_frame. Qed.

Lemma settle_session (keep : bool) (s : sess) (w : world) :
  session (Sql.settle keep s w) = session w.
Proof. settle_frame. Qed.

Lemma settle_config (keep : bool) (s : sess) (w : world) :
  config_uri (Sql.settle keep s w) = config_uri w.
Proof. settle_frame. Qed.

Lemma settle_basedir (keep : bool) (s : sess) (w : world) :
  basedir (Sql.settle keep s w) = basedir w.
Proof. settle_frame. Qed.

Lemma settle_fault (keep : bool) (s : sess) (w : world) :
  storage_fault (Sql.settle keep s w) = storage_fault w.
Proof. settle_frame. Qed.

Lemma settle_licenses (keep : bool) (s : sess) (w : world) :
  licenses (Sql.settle keep s w) = licenses w.
Proof. settle_frame. Qed.

Lemma settle_commit_search_path (s : sess) (w : world) :
  search_path (Sql.settle true s w) = search_path w.
Proof. unfold Sql.settle. now destruct (Sql.on_file s w). Qed.

Lemma settle_on_file (keep : bool) (s s' : sess) (w : world) :
  Sql.on_file s' (Sql.settle keep s w) = Sql.on_file s' w.
Proof. destruct s'; [|reflexivity]. unfold Sql.on_file. now rewrite settle_config. Qed.

(** *** Invariants *)

Section Invariants.

Context {A B : Type} (I : world -> Prop).

Lemma invariant_pure (m : M A) : (forall w, state_after m w = w) -> invariant I m.
Proof. intros H w Hw. now rewrite H. Qed.

Lemma invariant_ret (a : A) : invariant I (ret a).
Proof. now apply invariant_pure. Qed.

Lemma invariant_raise (e : exn) : invariant I (@raise A e).
Proof. now apply invariant_pure. Qed.

Lemma invariant_gets (f : world -> A) : invariant I (gets f).
Proof. now apply invariant_pure. Qed.

Lemma invariant_modify (g : world -> world) :
  (forall w, I w -> I (g w)) -> invariant I (modify g).
Proof. intros H w Hw. now apply H. Qed.

Lemma invariant_bind (m : M A) (k : A -> M B) :
  invariant I m -> (forall a, invariant I (k a)) -> invariant I (bind m k).
Proof.
  intros Hm Hk w Hw. specialize (Hm w Hw). unfold state_after, bind in *.
  destruct (m w) as [[a|e] w1]; simpl in *; [now apply Hk | exact Hm].
Qed.

(** A continuation that is never reached need not keep the invariant. *)
Lemma invariant_bind_raises (m : M A) (k : A -> M B) :
  invariant I m -> raises_under I m -> invariant I (bind m k).
Proof.
  intros Hm Hr w Hw. specialize (Hm w Hw). destruct (Hr w Hw) as [e He].
  unfold state_after, result_of, bind in *.
  destruct (m w) as [[a|e'] w1]; simpl in *; [discriminate | exact Hm].
Qed.

Lemma invariant_try_except (m : M A) (h : exn -> M B) (k : A -> M B) :
  invariant I m -> (forall e, invariant I (h e)) -> (forall a, invariant I (k a)) ->
  invariant I (try_except m h k).
Proof.
  intros Hm Hh Hk w Hw. specialize (Hm w Hw). unfold state_after, try_except in *.
  destruct (m w) as [[a|e] w1]; simpl in *; [now apply Hk | now apply Hh].
Qed.

Lemma invariant_try_finally (m : M A) (f : M unit) :
  invariant I m -> invariant I f -> invariant I (try_finally m f).
Proof.
  intros Hm Hf w Hw. specialize (Hm w Hw). unfold state_after, try_finally in *.
  destruct (m w) as [r w1]; simpl in *. specialize (Hf w1 Hm).
  unfold state_after in Hf.
  destruct (f w1) as [[[]|e] w2]; simpl in *; exact Hf.
Qed.

Lemma raises_bind_l (m : M A) (k : A -> M B) :
  raises_under I m -> raises_under I (bind m k).
Proof.
  intros Hr w Hw. destruct (Hr w Hw) as [e He]. unfold result_of, bind in *.
  destruct (m w) as [[a|e'] w1]; simpl in *; [discriminate | eauto].
Qed.

Lemma raises_bind_r (m : M A) (k : A -> M B) :
  invariant I m -> (forall a, raises_under I (k a)) -> raises_under I (bind m k).
Proof.
  intros Hm Hk w Hw. specialize (Hm w Hw). unfold state_after, result_of, bind in *.
  destruct (m w) as [[a|e'] w1]; simpl in *; [now apply Hk | eauto].
Qed.

End Invariants.

(** Conditions that the session layer, the log and the binding leave alone. *)
Definition stable_trace (I : world -> Prop) : Prop :=
  forall w t, I w -> I (set_trace t w).
Definition stable_search_path (I : world -> Prop) : Prop :=
  forall w p, I w -> I (set_search_path p w).
Definition stable_config (I : world -> Prop) : Prop :=
  forall w u, I w -> I (set_config_uri u w).
Definition stable_stores (I : world -> Prop) : Prop :=
  forall w s, I w -> I (set_stores s w).
Definition stable_committed (I : world -> Prop) : Prop :=
  forall w p, I w -> I (set_committed_search_path p w).
(** Conditions that only opening, changing or dropping a transaction
    leaves alone. *)
Definition stable_txn (I : world -> Prop) : Prop :=
  forall w tg x, I w ->
    I (Sql.on_stores (alter (fun db => mkDb (db_tables db) x) tg) w).

Lemma stable_stores_txn (I : world -> Prop) : stable_stores I -> stable_txn I.
Proof. intros H w tg x. apply H. Qed.

Section SqlInvariants.

Context (I : world -> Prop).

Lemma invariant_storage_op (p : fault_point) : invariant I (storage_op p).
Proof.
  apply invariant_pure. intros w. unfold state_after, storage_op.
  now destruct (decide _).
Qed.

Lemma invariant_log (e : event) : stable_trace I -> invariant I (log e).
Proof. intros H. apply invariant_modify. intros w. apply H. Qed.

Lemma opened_keeps (s : sess) (tg : string) (w : world) :
  stable_stores I -> I w -> I (Sql.opened s tg w).
Proof.
  intros H Hw. unfold Sql.opened.
  destruct (stores w !! tg); [exact Hw|]. destruct (Sql.on_file s w); [now apply H | exact Hw].
Qed.

Lemma settle_keeps (keep : bool) (s : sess) (w : world) :
  (if keep then stable_committed I else stable_search_path I) -> I w ->
  I (Sql.settle keep s w).
Proof.
  intros H Hw. unfold Sql.settle.
  destruct (Sql.on_file s w); [exact Hw|]. destruct keep; now apply H.
Qed.

Lemma invariant_connect (s : sess) : stable_stores I -> invariant I (Sql.connect s).
Proof.
  intros H w Hw. unfold state_after, Sql.connect.
  destruct (Sql.target_of s w); [now apply opened_keeps | exact Hw].
Qed.

Lemma invariant_read (s : sess) : stable_stores I -> invariant I (Sql.read s).
Proof.
  intros H w Hw. unfold state_after, Sql.read.
  destruct (Sql.target_of s w); [|exact Hw].
  destruct (Sql.view_at w _); [exact Hw | now apply opened_keeps].
Qed.

Lemma invariant_write (s : sess) (t : tables) : stable_stores I -> invariant I (Sql.write s t).
Proof.
  intros H w Hw. unfold state_after, Sql.write.
  destruct (Sql.target_of s w) as [tg|]; [|exact Hw].
  destruct (stores w !! tg) as [db|] eqn:E; [|now apply opened_keeps]. simpl.
  now apply H.
Qed.

Lemma invariant_run {A} (s : sess) (f : tables -> tables * A) :
  stable_stores I -> invariant I (Sql.run s f).
Proof.
  intros H. unfold Sql.run. apply invariant_bind; [now apply invariant_read|].
  intros t. destruct (f t) as [t' a].
  apply invariant_bind; [now apply invariant_write | intros; apply invariant_ret].
Qed.

Lemma invariant_rollback (s : sess) :
  stable_txn I -> stable_trace I -> stable_search_path I -> invariant I (Sql.rollback s).
Proof.
  intros H Ht Hp w Hw. unfold state_after, Sql.rollback.
  destruct (Sql.target_of s w) as [tg|]; simpl; apply (settle_keeps false); try exact Hp;
    [|exact Hw].
  apply Ht. exact (H w tg None Hw).
Qed.

Lemma invariant_remove : stable_search_path I -> invariant I Sql.remove.
Proof. intros Hp. apply invariant_modify. intros w. now apply (settle_keeps false). Qed.

Lemma invariant_close (s : sess) : stable_txn I -> invariant I (Sql.close s).
Proof.
  intros H w Hw. unfold state_after, Sql.close.
  destruct (Sql.target_of s w) as [tg|]; [|exact Hw]. simpl.
  exact (H w tg None Hw).
Qed.

Lemma invariant_commit (s : sess) :
  stable_stores I -> stable_trace I -> stable_committed I -> invariant I (Sql.commit s).
Proof.
  intros H Ht Hc w Hw. unfold state_after, Sql.commit.
  destruct (Sql.target_of s w) as [tg|]; simpl; apply (settle_keeps true); try exact Hc;
    [|exact Hw].
  apply Ht. now apply H.
Qed.

Lemma invariant_target_exists (tg : string) : invariant I (Sql.target_exists tg).
Proof. apply invariant_gets. Qed.

Lemma invariant_create_target (tg : string) :
  stable_stores I -> invariant I (Sql.create_target tg).
Proof. intros H. apply invariant_modify. intros w Hw. now apply H. Qed.

Lemma invariant_create_all (tg : string) : stable_stores I -> invariant I (Sql.create_all tg).
Proof.
  intros H w Hw. unfold state_after, Sql.create_all.
  destruct (stores w !! tg); simpl; [now apply H | exact Hw].
Qed.

Lemma invariant_create_engine (uri : string) : invariant I (Sql.create_engine uri).
Proof.
  unfold Sql.create_engine. destruct (PyStr.strip_prefix _ _);
    [apply invariant_ret | apply invariant_raise].
Qed.

End SqlInvariants.

Create HintDb stable discriminated.
#[local] Hint Resolve stable_stores_txn : stable.

(** One step of an invariant proof, following the shape of the code. *)
Ltac invariant_step :=
  first
    [ apply invariant_ret | apply invariant_raise | apply invariant_gets
    | apply invariant_storage_op
    | apply invariant_target_exists | apply invariant_create_engine
    | apply invariant_read; solve [eauto with stable]
    | apply invariant_connect; solve [eauto with stable]
    | apply invariant_remove; solve [eauto with stable]
    | apply invariant_log; solve [eauto with stable]
    | apply invariant_run; solve [eauto with stable]
    | apply invariant_write; solve [eauto with stable]
    | apply invariant_rollback; solve [eauto with stable]
    | apply invariant_close; solve [eauto with stable]
    | apply invariant_commit; solve [eauto with stable]
    | apply invariant_create_target; solve [eauto with stable]
    | apply invariant_create_all; solve [eauto with stable]
    | apply invariant_modify; solve [eauto with stable]
    | apply invariant_bind; [|intros ?]
    | apply invariant_try_except; [|intros ?|intros ?]
    | apply invariant_try_finally
    | match goal with
      | |- invariant _ (if ?b then _ else _) => destruct b
      | |- invariant _ (match ?x with _ => _ end) => destruct x
      | |- invariant _ (let '(_, _) := ?x in _) => destruct x
      end ].

Ltac invariant_auto := repeat invariant_step.

Section TenantManagerInvariants.

Import TenantManager.

Context (I : world -> Prop).
Hypothesis I_stores : stable_stores I.
Hypothesis I_trace : stable_trace I.
Hypothesis I_search_path : stable_search_path I.
Hypothesis I_committed : stable_committed I.

#[local] Hint Resolve I_stores I_trace I_search_path I_committed : stable.

Lemma invariant_with_app_context {A} (m : M A) :
  invariant I m -> invariant I (Flask.with_app_context m).
Proof.
  intros Hm. apply invariant_try_finally; [exact Hm|].
  apply invariant_remove. exact I_search_path.
Qed.

Lemma invariant_set_search_path (p : list string) : invariant I (modify (set_search_path p)).
Proof. apply invariant_modify. intros w. apply I_search_path. Qed.

Lemma invariant_switch_schema (k : string) : invariant I (switch_schema k).
Proof. apply invariant_set_search_path. Qed.

Lemma invariant_switch_to_public : invariant I switch_to_public.
Proof. apply invariant_set_search_path. Qed.

Lemma invariant_create_tenant_database (k : string) : invariant I (create_tenant_database k).
Proof.
  unfold create_tenant_database.
  repeat first [ apply invariant_set_search_path | apply invariant_switch_to_public
               | apply invariant_with_app_context | invariant_step ].
Qed.

Lemma invariant_seed_except (s : option sess) : invariant I (seed_except s).
Proof.
  unfold seed_except, bound.
  repeat first [ apply invariant_switch_to_public | invariant_step ].
Qed.

Lemma invariant_seed_open (k : string) : invariant I (seed_open k).
Proof.
  unfold seed_open.
  repeat first [ apply invariant_set_search_path | apply invariant_with_app_context
               | invariant_step ].
Qed.

Lemma invariant_seed_body (s : sess) (lic : License.t) : invariant I (seed_body s lic).
Proof.
  unfold seed_body, seed_rows, seed_cleanup.
  repeat first [ apply invariant_switch_to_public | invariant_step ].
Qed.

Lemma invariant_initialize_tenant_data (k : string) (lic : License.t) :
  invariant I (initialize_tenant_data k lic).
Proof.
  unfold initialize_tenant_data.
  repeat first [ apply invariant_seed_open | apply invariant_seed_except
               | apply invariant_seed_body | invariant_step ].
Qed.

End TenantManagerInvariants.

(** ** The login sequence *)

Section LoginInvariants.

Import TenantManager MultiTenantLogin.

Context (I : world -> Prop).
Hypothesis I_stores : stable_stores I.
Hypothesis I_trace : stable_trace I.
Hypothesis I_search_path : stable_search_path I.
Hypothesis I_committed : stable_committed I.
Hypothesis I_config : stable_config I.

#[local] Hint Resolve I_stores I_trace I_search_path I_committed I_config : stable.

Lemma invariant_set_config (u : string) : invariant I (modify (set_config_uri u)).
Proof. apply invariant_modify. intros w. apply I_config. Qed.

Lemma invariant_bind_master : invariant I bind_master.
Proof.
  unfold bind_master. apply invariant_bind; [apply invariant_gets|]. intros [|].
  - now apply invariant_set_search_path.
  - apply invariant_modify. intros w. apply I_config.
Qed.

Lemma invariant_verify_license (k : string) : invariant I (verify_license k).
Proof.
  unfold verify_license, fail.
  repeat first [ apply invariant_bind_master | invariant_step ].
Qed.

Lemma invariant_provision (k : string) (lic : License.t) : invariant I (provision k lic).
Proof.
  unfold provision, fail.
  repeat first [ apply invariant_create_tenant_database
               | apply invariant_initialize_tenant_data
               | solve [eauto with stable] | invariant_step ].
Qed.

Lemma invariant_ensure_tenant (k : string) (lic : License.t) :
  invariant I (ensure_tenant k lic).
Proof.
  unfold ensure_tenant.
  repeat first [ apply invariant_provision | invariant_step ].
Qed.

Lemma invariant_user_by_username (s : sess) (n : string) : invariant I (user_by_username s n).
Proof. unfold user_by_username. invariant_auto. Qed.

Lemma invariant_find_user_in_schema (u k : string) : invariant I (find_user_in_schema u k).
Proof.
  unfold find_user_in_schema.
  repeat first [ apply invariant_switch_schema; solve [eauto with stable]
               | apply invariant_user_by_username | invariant_step ].
Qed.

Lemma invariant_find_user_in_file (u k : string) : invariant I (find_user_in_file u k).
Proof.
  unfold find_user_in_file.
  repeat first [ apply invariant_user_by_username | invariant_step ].
Qed.

Lemma invariant_check_credentials (p : string) (u : option User.t) :
  invariant I (check_credentials p u).
Proof. unfold check_credentials, fail. invariant_auto. Qed.

Lemma invariant_authenticate_user (u p k : string) : invariant I (authenticate_user u p k).
Proof.
  unfold authenticate_user.
  repeat first [ apply invariant_find_user_in_schema | apply invariant_find_user_in_file
               | apply invariant_check_credentials | solve [eauto with stable]
               | invariant_step ].
Qed.

Lemma invariant_touch_last_login (i : Z) : invariant I (touch_last_login i).
Proof. unfold touch_last_login. invariant_auto. Qed.

Lemma invariant_get_user (i : Z) : invariant I (get_user i).
Proof. unfold get_user. invariant_auto. Qed.

End LoginInvariants.

(** The stages before the last only ever leave the function with a failure. *)
Definition failure (r : MultiTenantLogin.login_result) : Prop := fst (fst r) = false.

Definition fails_only {A} (m : stage MultiTenantLogin.login_result A) : Prop :=
  forall w w' r, m w = (Ret (inl r), w') -> failure r.

Lemma fails_only_fail {A} (message : string) : fails_only (@MultiTenantLogin.fail A message).
Proof. intros w w' r H. injection H as <- _. reflexivity. Qed.

Lemma fails_only_ret {A} (a : A) : fails_only (ret (inr a)).
Proof. intros w w' r H. discriminate. Qed.

Lemma fails_only_bind {A B} (m : M A) (k : A -> stage MultiTenantLogin.login_result B) :
  (forall a, fails_only (k a)) -> fails_only (bind m k).
Proof.
  intros Hk w w' r. unfold bind. destruct (m w) as [[a|e] w1]; [apply Hk | discriminate].
Qed.

Ltac fails_only_step :=
  first
    [ apply fails_only_fail | apply fails_only_ret
    | apply fails_only_bind; intros ?
    | match goal with
      | |- fails_only (if ?b then _ else _) => destruct b
      | |- fails_only (match ?x with _ => _ end) => destruct x
      end ].

Section LoginFailures.

Import MultiTenantLogin.

Lemma verify_license_fails_only (k : string) : fails_only (verify_license k).
Proof. unfold verify_license. repeat fails_only_step. Qed.

Lemma ensure_tenant_fails_only (k : string) (lic : License.t) :
  fails_only (ensure_tenant k lic).
Proof. unfold ensure_tenant, provision. repeat fails_only_step. Qed.

Lemma authenticate_user_fails_only (u p k : string) : fails_only (authenticate_user u p k).
Proof. unfold authenticate_user, check_credentials. repeat fails_only_step. Qed.

End LoginFailures.

Section LicenseGating.

Import MultiTenantLogin.

Variables (w : world) (username password license_key : string) (lic : License.t).

Hypothesis submitted : license_by_key license_key w = Some lic.

Lemma verify_license_rejects :
  invalid_license (utcnow w) lic ->
  exists message w',
    verify_license license_key w = (Ret (inl (false, message, None)), w') /\
    trace w' = trace w /\ stores w' = stores w /\ session w' = session w.
Proof.
  intros Hinv. unfold verify_license, bind_master, bind, gets, modify, fail, ret.
  destruct (TenantManager._is_postgres w); cbn.
  all: unfold license_by_key in *; cbn; rewrite submitted.
  all: destruct (License.is_active lic) eqn:Ha; cbn; [|eauto 10].
  all: destruct (License.is_suspended lic) eqn:Hs; cbn; [eauto 10|].
  all: destruct Hinv as [?|[?|(e & He & Hlt)]]; try congruence.
  all: unfold expired; rewrite He.
  all: destruct (Z.ltb_spec e (utcnow w)); [eauto 10 | lia].
Qed.

(** C2: a login with a license that is inactive, suspended or expired
    returns a failure, and it does so without a call to
    [create_tenant_database] or [initialize_tenant_data] (the call log is
    as it was) and without touching any tenant store. *)
Theorem license_gating :
  invalid_license (utcnow w) lic ->
  let run := authenticate_with_license username password license_key in
  (exists message, result_of run w = Ret (false, message, None)) /\
  trace (state_after run w) = trace w /\
  stores (state_after run w) = stores w.
Proof.
  intros Hinv run. destruct (verify_license_rejects Hinv) as (message & w' & Hv & Ht & Hs & _).
  subst run. unfold result_of, state_after, authenticate_with_license.
  erewrite with_app_context_run
    by (unfold login_steps; apply finish_inl, next_inl; exact Hv).
  cbn [fst snd]. rewrite settle_trace, settle_stores. eauto.
Qed.

End LicenseGating.

Lemma license_gating_witness :
  let w := Sample.deployment Sample.POSTGRES_URI None (Some ∅) [Sample.suspended_license] ∅ in
  let run := MultiTenantLogin.authenticate_with_license "admin" "secret" "LIC-0001" in
  (exists message, result_of run w = Ret (false, message, None)) /\
  trace (state_after run w) = trace w /\
  stores (state_after run w) = stores w.
Proof.
  apply (license_gating
           (Sample.deployment Sample.POSTGRES_URI None (Some ∅) [Sample.suspended_license] ∅)
           "admin" "secret" "LIC-0001" Sample.suspended_license).
  - reflexivity.
  - right; left; reflexivity.
Defined.

Lemma bind_gets {A B} (f : world -> A) (k : A -> M B) (w : world) :
  bind (gets f) k w = k (f w) w.
Proof. reflexivity. Qed.

Lemma bind_modify {B} (g : world -> world) (k : unit -> M B) (w : world) :
  bind (modify g) k w = k tt (g w).
Proof. reflexivity. Qed.

(** A condition established by the first part of a sequence and kept by
    the rest holds at its end. *)
Lemma state_after_bind {A B} (J : world -> Prop) (m : M A) (k : A -> M B) (w : world) :
  J (state_after m w) -> (forall a, invariant J (k a)) -> J (state_after (bind m k) w).
Proof.
  unfold state_after, bind. intros Hm Hk.
  destruct (m w) as [[a|e] w1]; simpl in *; [now apply Hk | exact Hm].
Qed.

(** ** Step 3 and the active binding *)

Section Stage3.

Import TenantManager MultiTenantLogin.

Variables (w : world) (username password license_key : string).

(** C4 (as the code has it): step 3 never changes the configured
    database URI.  Under SQLite it reads through a session of its own and
    leaves the search path alone as well; under PostgreSQL it sets the
    search path of the shared [db.session] to the tenant schema followed
    by [public]. *)
Theorem stage3_binding :
  let w' := state_after (authenticate_user username password license_key) w in
  config_uri w' = config_uri w /\
  search_path w' =
    if _is_postgres w then [_schema_name license_key; "public"] else search_path w.
Proof.
  cbv zeta. unfold state_after, authenticate_user. rewrite bind_gets.
  destruct (_is_postgres w).
  - apply (state_after_bind
             (fun w' => config_uri w' = config_uri w /\
                        search_path w' = [_schema_name license_key; "public"])).
    + unfold find_user_in_schema. apply state_after_bind.
      * split; reflexivity.
      * intros _. apply invariant_user_by_username. intros w0 st H. exact H.
    + intros u. apply invariant_check_credentials.
  - apply (invariant_bind (fun w' => config_uri w' = config_uri w /\
                                     search_path w' = search_path w)).
    + apply invariant_find_user_in_file. intros w0 st H. exact H.
    + intros u. apply invariant_check_credentials.
    + split; reflexivity.
Qed.

End Stage3.

(** C4, counterexample: on a PostgreSQL deployment bound to the master
    schema, step 3 of a login leaves the shared session bound to the
    tenant schema. *)
Lemma stage3_moves_shared_binding :
  let w := Sample.deployment Sample.POSTGRES_URI None (Some ∅) [Sample.license]
             {[ "tenant_lic_0001" := mkDb (Some Sample.seeded) None ]} in
  let w' := state_after (MultiTenantLogin.authenticate_user "admin" "secret" "LIC-0001") w in
  TenantManager._is_postgres w = true /\
  search_path w = ["public"] /\
  search_path w' = ["tenant_lic_0001"; "public"] /\
  search_path w' <> search_path w.
Proof. vm_compute. repeat split; try reflexivity. discriminate. Qed.

(** ** Running the login sequence stage by stage *)

#[local] Arguments TenantManager._is_postgres : simpl never.
#[local] Arguments TenantManager._schema_name : simpl never.
#[local] Arguments TenantManager.get_tenant_db_path : simpl never.
#[local] Arguments TenantManager.get_master_db_path : simpl never.
#[local] Arguments PyStr.strip_prefix : simpl never.
#[local] Arguments master_uri : simpl never.

Section LoginStages.

Import TenantManager MultiTenantLogin.

Lemma bind_master_eq (w : world) : bind_master w = (Ret tt, at_master w).
Proof.
  unfold bind_master, at_master. rewrite bind_gets.
  now destruct (_is_postgres w).
Qed.

Lemma at_master_is_postgres (w : world) :
  coherent_deployment w -> _is_postgres (at_master w) = _is_postgres w.
Proof.
  unfold at_master. intros [[Hpg _]|[Hpg Hm]]; rewrite Hpg; [exact Hpg | exact Hm].
Qed.

Lemma at_master_postgres (w : world) :
  postgres_deployment w -> postgres_deployment (at_master w).
Proof. unfold at_master. intros [Hpg Hs]. rewrite Hpg. now split. Qed.

Lemma at_master_stores (w : world) : stores (at_master w) = stores w.
Proof. unfold at_master. now destruct (_is_postgres w). Qed.

Lemma at_master_session (w : world) : session (at_master w) = session w.
Proof. unfold at_master. now destruct (_is_postgres w). Qed.

Lemma at_master_basedir (w : world) : basedir (at_master w) = basedir w.
Proof. unfold at_master. now destruct (_is_postgres w). Qed.


Lemma at_master_check (w : world) : check_password_hash (at_master w) = check_password_hash w.
Proof. unfold at_master. now destruct (_is_postgres w). Qed.

Lemma at_master_trace (w : world) : trace (at_master w) = trace w.
Proof. unfold at_master. now destruct (_is_postgres w). Qed.

Lemma at_master_view (w : world) (tg : string) :
  Sql.view_at (at_master w) tg = Sql.view_at w tg.
Proof. unfold Sql.view_at. now rewrite at_master_stores. Qed.

Lemma at_master_target_for (w : world) (k : string) :
  coherent_deployment w -> target_for (at_master w) k = target_for w k.
Proof.
  intros H. unfold target_for. now rewrite at_master_is_postgres, at_master_basedir.
Qed.

Lemma verify_license_accepts (w : world) (k : string) (lic : License.t) :
  license_by_key k w = Some lic -> valid_license (utcnow w) lic ->
  verify_license k w = (Ret (inr lic), at_master w).
Proof.
  intros Hk (Ha & Hs & He). unfold verify_license.
  erewrite bind_ret_eq by apply bind_master_eq. rewrite bind_gets.
  assert (license_by_key k (at_master w) = Some lic) as ->.
  { unfold at_master. now destruct (_is_postgres w). }
  rewrite Ha, Hs. simpl. rewrite bind_gets.
  assert (utcnow (at_master w) = utcnow w) as ->.
  { unfold at_master. now destruct (_is_postgres w). }
  now rewrite He.
Qed.

Lemma ensure_tenant_existing (w : world) (k : string) (lic : License.t) (db : tenant_db) :
  stores w !! target_for w k = Some db ->
  ensure_tenant k lic w = (Ret (inr tt), w).
Proof.
  unfold target_for, ensure_tenant. rewrite bind_gets. intros H.
  destruct (_is_postgres w).
  - unfold Sql.target_exists. rewrite bind_gets, H. reflexivity.
  - rewrite bind_gets. unfold Sql.target_exists. rewrite bind_gets, H. reflexivity.
Qed.

Lemma read_eq (s : sess) (w : world) (tg : string) (t : tables) :
  Sql.target_of s w = Some tg -> Sql.view_at w tg = Some t -> Sql.read s w = (Ret t, w).
Proof. unfold Sql.read. now intros -> ->. Qed.

Lemma user_by_username_eq (s : sess) (w : world) (tg n : string) (t : tables) :
  Sql.target_of s w = Some tg -> Sql.view_at w tg = Some t ->
  user_by_username s n w = (Ret (find (user_named n) (users t)), w).
Proof.
  intros Htg Hv. unfold user_by_username.
  now erewrite bind_ret_eq by (eapply read_eq; eauto).
Qed.

Lemma active_target_postgres (w : world) (p : list string) :
  postgres_deployment w -> Sql.active_target (set_search_path p w) = head p.
Proof. intros [_ Hs]. unfold Sql.active_target. simpl. now rewrite Hs. Qed.

(** Step 3 on an existing store: the row of the user is found; under
    PostgreSQL the shared session is left in the tenant schema. *)
Lemma find_user_in_schema_eq (w : world) (u k : string) (t : tables) :
  postgres_deployment w -> Sql.view_at w (_schema_name k) = Some t ->
  find_user_in_schema u k w =
    (Ret (find (user_named u) (users t)), set_search_path [_schema_name k; "public"] w).
Proof.
  intros Hpg Hv. unfold find_user_in_schema, switch_schema. rewrite bind_modify.
  eapply user_by_username_eq; [|exact Hv].
  simpl. now rewrite active_target_postgres.
Qed.

Lemma close_session (s : sess) (w : world) :
  exists w', Sql.close s w = (Ret tt, w') /\ session w' = session w /\
             config_uri w' = config_uri w /\ search_path w' = search_path w.
Proof.
  unfold Sql.close. destruct (Sql.target_of s w) as [tg|]; [|eauto].
  eexists; split; [reflexivity|]. now simpl.
Qed.

Lemma find_user_in_file_eq (w : world) (u k : string) (t : tables) :
  Sql.view_at w (get_tenant_db_path (basedir w) k) = Some t ->
  exists w', find_user_in_file u k w = (Ret (find (user_named u) (users t)), w') /\
             session w' = session w /\ config_uri w' = config_uri w /\
             search_path w' = search_path w.
Proof.
  intros Hv. unfold find_user_in_file. rewrite bind_gets.
  unfold Sql.create_engine, Sql.SQLITE_PREFIX. rewrite strip_prefix_append.
  unfold bind at 1, ret. unfold try_finally.
  erewrite user_by_username_eq by (try exact Hv; reflexivity).
  destruct (close_session (EngineSession (get_tenant_db_path (basedir w) k)) w)
    as (w' & -> & ?). eauto.
Qed.

End LoginStages.

(** ** Wrong password *)

Section WrongPassword.

Import TenantManager MultiTenantLogin.

Variables (w : world) (username password license_key : string).
Variables (lic : License.t) (t : tables) (user : User.t).

Hypothesis deployment : coherent_deployment w.
Hypothesis license_found : license_by_key license_key w = Some lic.
Hypothesis license_valid : valid_license (utcnow w) lic.
Hypothesis store_exists : Sql.view_at w (target_for w license_key) = Some t.
Hypothesis user_found : find (user_named username) (users t) = Some user.
Hypothesis mismatch : check_password_hash w (User.password_hash user) password = false.




End WrongPassword.


(** ** Successful login *)

Lemma bind_returns {A B} (m : M A) (k : A -> M B) (w w' : world) (b : B) :
  bind m k w = (Ret b, w') -> exists a w1, m w = (Ret a, w1) /\ k a w1 = (Ret b, w').
Proof. unfold bind. destruct (m w) as [[a|e] w1]; [eauto | discriminate]. Qed.

Lemma invariant_run_eq {A} (I : world -> Prop) (m : M A) (w w' : world) (r : outcome A) :
  invariant I m -> I w -> m w = (r, w') -> I w'.
Proof.
  intros H Hw E. specialize (H w Hw). unfold state_after in H. now rewrite E in H.
Qed.

Section Success.

Import TenantManager MultiTenantLogin.

Variables (w : world) (username password license_key : string).

Lemma session_stable (s : option (gmap string string)) :
  let I := fun x => session x = s in
  stable_stores I /\ stable_trace I /\ stable_search_path I /\ stable_config I /\
  stable_committed I.
Proof. repeat split; intros ? ? H; exact H. Qed.

Lemma bind_session_success (w0 w' : world) (ou : option User.t)
    (x : login_result + login_result) (s : gmap string string) :
  session w0 = Some s ->
  bind_session license_key ou w0 = (Ret x, w') ->
  (exists r, x = inl r /\ failure r) \/
  (exists s', session w' = Some s' /\ s' !! "tenant_license_key" = Some license_key).
Proof.
  intros Hs. unfold bind_session. destruct ou as [u|].
  - unfold bind, try_except, Flask.session_set, ret. rewrite Hs.
    intros H. injection H as <- <-. right. eexists; split; [reflexivity|].
    apply lookup_insert_eq.
  - unfold fail, ret. intros H. injection H as <- <-. left. eexists; split; reflexivity.
Qed.

Lemma bind_tenant_success (w0 w' : world) (u : User.t)
    (x : login_result + login_result) (s : gmap string string) :
  session w0 = Some s ->
  bind_tenant license_key u w0 = (Ret x, w') ->
  (exists r, x = inl r /\ failure r) \/
  (exists s', session w' = Some s' /\ s' !! "tenant_license_key" = Some license_key).
Proof.
  intros Hs. unfold bind_tenant. rewrite bind_gets. intros H.
  apply bind_returns in H as (ou & w1 & Hr & Hb).
  destruct (session_stable (Some s)) as (H1 & H2 & H3 & H4 & H5).
  eapply bind_session_success; [|exact Hb].
  destruct (_is_postgres w0).
  - eapply (invariant_run_eq (fun x => session x = Some s)); [|exact Hs|exact Hr].
    unfold reload_user_in_schema.
    repeat first [ apply invariant_touch_last_login | apply invariant_get_user
                 | solve [eauto with stable] | invariant_step ].
  - eapply (invariant_run_eq (fun x => session x = Some s)); [|exact Hs|exact Hr].
    unfold reload_user_in_file.
    repeat first [ apply invariant_touch_last_login | apply invariant_get_user
                 | apply invariant_set_config | solve [eauto with stable] | invariant_step ].
Qed.

(** C9 (as the code has it): a login that is reported as successful
    from within a request context has stored the submitted license key
    under ['tenant_license_key'] in the Flask session. *)
Theorem success_binds_session (s : gmap string string) (message : string)
    (user : option User.t) :
  session w = Some s ->
  let run := authenticate_with_license username password license_key in
  result_of run w = Ret (true, message, user) ->
  exists s', session (state_after run w) = Some s' /\
             s' !! "tenant_license_key" = Some license_key.
Proof.
  intros Hs run. unfold result_of, state_after. subst run.
  destruct (authenticate_with_license username password license_key w) as [r w'] eqn:E.
  simpl. intros ->. unfold authenticate_with_license in E.
  apply with_app_context_inv in E as (w0 & E & ->). rewrite settle_session.
  unfold login_steps in E.
  destruct (session_stable (Some s)) as (H1 & H2 & H3 & H4 & H5).
  apply finish_returns in E.
  assert (exists x, (x = inl (true, message, user) \/ x = inr (true, message, user)) /\
            next (verify_license license_key) (fun lic =>
            next (ensure_tenant license_key lic) (fun _ =>
            next (authenticate_user username password license_key) (fun user =>
            bind_tenant license_key user))) w = (Ret x, w0)) as (x & Hx & E')
    by (destruct E; eauto).
  clear E.
  apply next_returns in E' as [(r & Hv & ->)|(lic & w1 & Hv & E')].
  { apply verify_license_fails_only in Hv. exfalso.
    destruct Hx as [Hx|Hx]; [injection Hx as ->; discriminate Hv | discriminate]. }
  assert (session w1 = Some s) as Hs1
    by (eapply (invariant_run_eq (fun x => session x = Some s));
        [apply invariant_verify_license; assumption | exact Hs | exact Hv]).
  apply next_returns in E' as [(r & He & ->)|([] & w2 & He & E')].
  { apply ensure_tenant_fails_only in He. exfalso.
    destruct Hx as [Hx|Hx]; [injection Hx as ->; discriminate He | discriminate]. }
  assert (session w2 = Some s) as Hs2
    by (eapply (invariant_run_eq (fun x => session x = Some s));
        [apply invariant_ensure_tenant; assumption | exact Hs1 | exact He]).
  apply next_returns in E' as [(r & Ha & ->)|(u & w3 & Ha & E')].
  { apply authenticate_user_fails_only in Ha. exfalso.
    destruct Hx as [Hx|Hx]; [injection Hx as ->; discriminate Ha | discriminate]. }
  assert (session w3 = Some s) as Hs3
    by (eapply (invariant_run_eq (fun x => session x = Some s));
        [apply invariant_authenticate_user; assumption | exact Hs2 | exact Ha]).
  destruct (bind_tenant_success w3 w0 u x s Hs3 E') as [(r & -> & Hf)|Hok]; [|exact Hok].
  exfalso. destruct Hx as [Hx|Hx]; [injection Hx as ->; discriminate Hf | discriminate].
Qed.

End Success.

Lemma success_binds_session_witness :
  session (SampleWorlds.sqlite (Some ∅)) = Some ∅ /\
  let run := MultiTenantLogin.authenticate_with_license "admin" "secret" "LIC-0001" in
  exists s', session (state_after run (SampleWorlds.sqlite (Some ∅))) = Some s' /\
             s' !! "tenant_license_key" = Some "LIC-0001".
Proof.
  split; [reflexivity|].
  apply (success_binds_session (SampleWorlds.sqlite (Some ∅)) "admin" "secret" "LIC-0001"
           ∅ MultiTenantLogin.MSG_OK
           (Some (User.with_last_login 1000 Sample.admin))).
  - reflexivity.
  - vm_compute. reflexivity.
Defined.

(** C9, counterexample: outside of a request context the assignment to
    the Flask session raises [RuntimeError], the code swallows it, and
    the login is reported as successful with no session binding. *)
Lemma success_without_session_binding :
  let w := SampleWorlds.postgres None in
  let run := MultiTenantLogin.authenticate_with_license "admin" "secret" "LIC-0001" in
  result_of run w
    = Ret (true, MultiTenantLogin.MSG_OK, Some (User.with_last_login 1000 Sample.admin)) /\
  session (state_after run w) = None.
Proof. vm_compute. split; reflexivity. Qed.

(** ** The middleware *)

Definition stable_request (I : world -> Prop) : Prop :=
  (forall w s, I w -> I (set_session s w)) /\
  (forall w f, I w -> I (set_flashes f w)) /\
  (forall w d k, I w -> I (set_g d k w)).

(** Stability of a condition that does not mention what is updated. *)
Ltac stable :=
  unfold stable_request, stable_search_path, stable_stores, stable_trace,
    stable_config, stable_committed, stable_txn;
  repeat split; intros; cbv beta in *;
  repeat match goal with H : _ /\ _ |- _ => destruct H end;
  assumption.

Section FlaskInvariants.

Context (I : world -> Prop).
Hypothesis I_request : stable_request I.

Lemma invariant_flash (m c : string) : invariant I (Flask.flash m c).
Proof. apply invariant_modify. intros w. apply I_request. Qed.

Lemma invariant_session_pop (k : string) : invariant I (Flask.session_pop k).
Proof.
  intros w Hw. unfold state_after, Flask.session_pop.
  destruct (session w); [now apply I_request | exact Hw].
Qed.

Lemma invariant_session_get (k : string) : invariant I (Flask.session_get k).
Proof.
  apply invariant_pure. intros w. unfold state_after, Flask.session_get.
  now destruct (session w).
Qed.

Lemma invariant_set_g (d : option license_data) (k : option string) :
  invariant I (modify (set_g d k)).
Proof. apply invariant_modify. intros w. apply I_request. Qed.

End FlaskInvariants.

Lemma is_postgres_config (a b : world) :
  config_uri a = config_uri b -> TenantManager._is_postgres a = TenantManager._is_postgres b.
Proof. unfold TenantManager._is_postgres. now intros ->. Qed.

Lemma try_finally_state {A} (m : M A) (f : M unit) (w : world) :
  state_after (try_finally m f) w = state_after f (state_after m w).
Proof.
  unfold state_after, try_finally. destruct (m w) as [r w1]. simpl.
  now destruct (f w1) as [[[]|e] w2].
Qed.

Lemma try_finally_result {A} (m : M A) (f : M unit) (w : world) :
  (forall w1, result_of f w1 = Ret tt) ->
  result_of (try_finally m f) w = result_of m w.
Proof.
  intros Hf. unfold result_of, try_finally in *. destruct (m w) as [r w1]. simpl.
  specialize (Hf w1). now destruct (f w1) as [[[]|e] w2].
Qed.

Lemma try_finally_on_run {A} (m : M A) (f : outcome A -> M unit) (w w1 : world)
    (r : outcome A) :
  m w = (r, w1) ->
  try_finally_on m f w =
    match f r w1 with
    | (Ret _, w2) => (r, w2)
    | (Raise e, w2) => (Raise e, w2)
    end.
Proof. intros H. unfold try_finally_on. now rewrite H. Qed.

Section Middleware.

Import TenantManager TenantMiddleware.

Variables (w : world) (path tenant_license_key : string) (s : gmap string string).

Hypothesis not_exempt : is_exempt path = false.
Hypothesis in_request : session w = Some s.
Hypothesis bound_session : s !! "tenant_license_key" = Some tenant_license_key.
Hypothesis key_not_empty : tenant_license_key <> "".

Lemma switch_tenant_database_unfold :
  switch_tenant_database path w =
    try_finally_on (validate tenant_license_key)
      (fun r => switch_to_tenant (in_failed_transaction r) tenant_license_key) w.
Proof.
  unfold switch_tenant_database. rewrite not_exempt.
  unfold bind at 1, Flask.session_get. rewrite in_request, bound_session.
  unfold PyStr.truthy, PyStr.or_default.
  destruct (String.eqb_spec tenant_license_key ""); [contradiction | reflexivity].
Qed.

Lemma storage_op_ok (p : fault_point) (w0 : world) :
  storage_fault w0 <> Some p -> storage_op p w0 = (Ret tt, w0).
Proof. unfold storage_op. intros H. now destruct (decide _). Qed.

Lemma storage_op_raises (p : fault_point) (w0 : world) :
  storage_fault w0 = Some p -> storage_op p w0 = (Raise (StorageFault p), w0).
Proof. unfold storage_op. intros H. now destruct (decide _). Qed.

(** The switch when the transaction has not failed. *)
Lemma switch_to_tenant_returns (k : string) (w0 : world) :
  result_of (switch_to_tenant false k) w0 = Ret tt /\
  session (state_after (switch_to_tenant false k) w0) = session w0.
Proof.
  unfold result_of, state_after, switch_to_tenant. rewrite bind_gets.
  now destruct (_is_postgres w0).
Qed.

(** The switch under SQLite does not go through [db.session]. *)
Lemma switch_to_tenant_file (aborted : bool) (k : string) (w0 : world) :
  _is_postgres w0 = false ->
  switch_to_tenant aborted k w0 = (Ret tt, set_config_uri (tenant_uri w0 k) w0).
Proof.
  intros Hpg. unfold switch_to_tenant. rewrite bind_gets, Hpg, bind_gets.
  unfold get_tenant_db_uri. now rewrite Hpg.
Qed.

Lemma switch_to_tenant_schema (aborted : bool) (k : string) (w0 : world) :
  _is_postgres w0 = true ->
  switch_to_tenant aborted k w0 =
    if aborted then (Raise InFailedSqlTransaction, w0)
    else (Ret tt, set_search_path [_schema_name k; "public"] w0).
Proof.
  intros Hpg. unfold switch_to_tenant. rewrite bind_gets, Hpg. now destruct aborted.
Qed.

(** A hook whose validation block returns: the switch goes through. *)
Lemma hook_returns (r : option response) (w1 : world) :
  validate tenant_license_key w = (Ret r, w1) ->
  switch_tenant_database path w =
    (Ret r, state_after (switch_to_tenant false tenant_license_key) w1).
Proof.
  intros Hv. rewrite switch_tenant_database_unfold.
  rewrite (try_finally_on_run _ _ _ _ _ Hv). cbn [in_failed_transaction].
  destruct (switch_to_tenant_returns tenant_license_key w1) as [Hr _].
  unfold result_of, state_after in *.
  destruct (switch_to_tenant false tenant_license_key w1) as [[[]|e] w2];
    [reflexivity | discriminate].
Qed.


(** The validation block leaves the configured URI alone under
    PostgreSQL, and at the master file under SQLite. *)
Lemma validate_config_postgres :
  _is_postgres w = true ->
  config_uri (state_after (validate tenant_license_key) w) = config_uri w.
Proof.
  intros Hpg. unfold state_after, validate. rewrite bind_gets, Hpg.
  match goal with
  | |- config_uri (snd (?m w)) = _ =>
      enough (invariant (fun x => config_uri x = config_uri w) m) as H
        by (apply H; reflexivity)
  end.
  repeat first [ apply invariant_flash | apply invariant_session_pop
               | apply invariant_set_g | apply invariant_switch_to_public
               | invariant_step ];
    stable.
Qed.

Lemma validate_config_sqlite :
  _is_postgres w = false ->
  config_uri (state_after (validate tenant_license_key) w) = master_uri w /\
  basedir (state_after (validate tenant_license_key) w) = basedir w.
Proof.
  intros Hpg. unfold state_after, validate. rewrite bind_gets, Hpg.
  match goal with
  | |- config_uri (snd (bind ?m ?k w)) = _ /\ _ =>
      apply (state_after_bind
               (fun x => config_uri x = master_uri w /\ basedir x = basedir w) m k w)
  end.
  - apply state_after_bind; [split; reflexivity|].
    intros _. apply invariant_storage_op.
  - intros _.
    repeat first [ apply invariant_flash | apply invariant_session_pop
                 | apply invariant_set_g | invariant_step ];
      stable.
Qed.






End Middleware.




(** ** Extending a license from the control panel *)

Section ExtendLicense.

Import LicenseControl.

Variables (py : datetime_lib) (now : Z) (licenses : list row) (key : string) (days : Z).

Lemma find_keyed_update (f : row -> row) (l : list row) :
  (forall r, license_key (f r) = license_key r) ->
  find (keyed key) (map (fun r => if keyed key r then f r else r) l)
    = option_map f (find (keyed key) l).
Proof.
  intros Hf. induction l as [|r l IH]; simpl; [reflexivity|].
  destruct (keyed key r) eqn:E.
  - unfold keyed in *. rewrite Hf, E. reflexivity.
  - rewrite E. exact IH.
Qed.

Lemma timedelta_in_range :
  representable now -> representable (now + days * US_PER_DAY) ->
  timedelta days = inr (days * US_PER_DAY).
Proof.
  unfold representable, timedelta, DATETIME_END, US_PER_DAY. intros Hn Hd.
  destruct (Z.leb_spec (Z.abs days) 999999999); [reflexivity | lia].
Qed.

(** C10: extending a perpetual license (one whose [expires_at] is NULL)
    by a number of days that keeps the date within the range of
    [datetime] reports success and stores the current time plus that
    many days as the expiry of every row with that key: the license is
    no longer perpetual. *)
Theorem extend_perpetual_license (r : row) :
  find (keyed key) licenses = Some r ->
  expires_at r = None ->
  representable now ->
  representable (now + days * US_PER_DAY) ->
  let new_expires := strftime py (now + days * US_PER_DAY) FORMAT in
  let out := extend_license py now licenses key days in
  fst (fst out) = true /\
  find (keyed key) (snd out) = Some (with_expires_at (Some new_expires) r) /\
  (forall r', In r' (snd out) -> license_key r' = key ->
              expires_at r' = Some new_expires /\ expires_at r' <> None).
Proof.
  intros Hfind Hnull Hnow Hnew. cbv zeta. unfold extend_license.
  rewrite Hfind, Hnull. unfold parse_expires. simpl PyStr.truthy. cbv iota.
  rewrite (timedelta_in_range Hnow Hnew).
  unfold datetime_add.
  assert ((0 <=? now + days * US_PER_DAY) && (now + days * US_PER_DAY <? DATETIME_END) = true)
    as -> by (unfold representable in Hnew; apply andb_true_intro; split;
              [apply Z.leb_le | apply Z.ltb_lt]; lia).
  simpl fst. simpl snd. split; [reflexivity|]. split.
  - rewrite find_keyed_update by reflexivity. now rewrite Hfind.
  - intros r' Hin Hkey. apply in_map_iff in Hin as (r0 & <- & _).
    unfold keyed in *. destruct (String.eqb (license_key r0) key) eqn:E.
    + split; [reflexivity | discriminate].
    + apply String.eqb_neq in E. contradiction.
Qed.

End ExtendLicense.

(** ** Failures while seeding *)

Section SeedingFailure.

Import TenantManager MultiTenantLogin.

Lemma try_swallow_returns (m : M unit) (w : world) :
  result_of (try_except m (fun _ => ret tt) ret) w = Ret tt.
Proof. unfold result_of, try_except, ret. now destruct (m w) as [[[]|e] w1]. Qed.

Lemma seed_except_returns (os : option sess) (w : world) :
  result_of (seed_except os) w = Ret false.
Proof.
  unfold seed_except, result_of, bind.
  match goal with
  | |- context [try_except ?m ?h ?k w] =>
      pose proof (try_swallow_returns m w) as H; unfold result_of in H;
      destruct (try_except m h k w) as [r w1]
  end.
  simpl in H. now rewrite H.
Qed.

(** The run is set to fail at [p]. *)
Definition faulty (p : fault_point) (w : world) : Prop := storage_fault w = Some p.

Lemma faulty_stable (p : fault_point) :
  stable_stores (faulty p) /\ stable_trace (faulty p) /\
  stable_search_path (faulty p) /\ stable_config (faulty p) /\
  stable_committed (faulty p).
Proof. unfold faulty. stable. Qed.

Lemma raises_storage_op (I : world -> Prop) (p : fault_point) :
  (forall w, I w -> faulty p w) -> raises_under I (storage_op p).
Proof.
  intros H w Hw. apply H in Hw. unfold result_of, storage_op.
  destruct (decide _); [eauto | contradiction].
Qed.

Lemma raises_with_app_context {A} (I : world -> Prop) (m : M A) :
  raises_under I m -> raises_under I (Flask.with_app_context m).
Proof. intros H w Hw. rewrite with_app_context_result. now apply H. Qed.

(** The way to the operation that raises. *)
Ltac raises_search stable_tac :=
  first
    [ apply raises_storage_op; solve [auto]
    | apply raises_with_app_context; raises_search stable_tac
    | apply raises_bind_l; raises_search stable_tac
    | apply raises_bind_r;
      [ repeat first [ apply invariant_switch_to_public | apply invariant_with_app_context
                     | invariant_step ];
        stable_tac
      | intros ?; raises_search stable_tac ]
    | match goal with
      | |- raises_under _ (if ?b then _ else _) => destruct b; raises_search stable_tac
      end ].

Lemma seed_body_raises (p : fault_point) (s : sess) (lic : License.t) :
  is_seed_point p = true -> p <> AtSeedOpen -> raises_under (faulty p) (seed_body s lic).
Proof.
  destruct (faulty_stable p) as (H1 & H2 & H3 & H4 & H5).
  intros Hp Hne. unfold seed_body, seed_rows, seed_cleanup.
  destruct p; try discriminate; try contradiction;
    raises_search ltac:(eauto with stable).
Qed.

Lemma seed_open_raises (k : string) : raises_under (faulty AtSeedOpen) (seed_open k).
Proof.
  destruct (faulty_stable AtSeedOpen) as (H1 & H2 & H3 & H4 & H5).
  unfold seed_open. raises_search ltac:(eauto with stable).
Qed.

Lemma initialize_fails_under_fault (p : fault_point) (w : world) (k : string) (lic : License.t) :
  is_seed_point p = true -> faulty p w ->
  result_of (initialize_tenant_data k lic) w = Ret false.
Proof.
  destruct (faulty_stable p) as (H1 & H2 & H3 & H4 & H5).
  intros Hp Hw. unfold initialize_tenant_data, result_of.
  unfold bind at 1, log, modify.
  set (w0 := set_trace _ w). assert (faulty p w0) as Hw0 by exact Hw.
  unfold try_except at 1.
  destruct (seed_open k w0) as [[s|e] w1] eqn:Eo.
  - assert (faulty p w1) as Hw1
      by (eapply invariant_run_eq; [apply invariant_seed_open; assumption | exact Hw0 | exact Eo]).
    assert (p <> AtSeedOpen) as Hne.
    { intros ->. destruct (seed_open_raises k w0 Hw0) as [e He].
      unfold result_of in He. rewrite Eo in He. discriminate. }
    destruct (seed_body_raises p s lic Hp Hne w1 Hw1) as [e He].
    unfold try_except, result_of in *.
    destruct (seed_body s lic w1) as [[b|e'] w2]; [discriminate|].
    apply seed_except_returns.
  - apply seed_except_returns.
Qed.

Lemma initialize_never_raises (w : world) (k : string) (lic : License.t) :
  exists b, result_of (initialize_tenant_data k lic) w = Ret b.
Proof.
  unfold initialize_tenant_data, result_of. unfold bind at 1, log, modify.
  unfold try_except at 1.
  destruct (seed_open k _) as [[s|e] w1].
  - unfold try_except. destruct (seed_body s lic w1) as [[b|e'] w2].
    + exists b. reflexivity.
    + exists false. apply seed_except_returns.
  - exists false. apply seed_except_returns.
Qed.

(** *** Rolling back *)

Lemma rolled_back_refl (S0 : gmap string tenant_db) : rolled_back S0 S0.
Proof. intros tg. unfold rolled_back_db. destruct (S0 !! tg); auto. Qed.

Lemma rolled_back_drop (S0 S : gmap string tenant_db) (tg : string) :
  rolled_back S0 S -> rolled_back S0 (alter (Sql.end_db false) tg S).
Proof.
  intros H tg'. specialize (H tg'). rewrite lookup_alter.
  destruct (decide (tg = tg')) as [<-|Hne]; [|exact H].
  unfold rolled_back_db in *.
  destruct (S0 !! tg) as [db0|], (S !! tg) as [db|]; simpl; try exact H.
  split; [apply H | now left].
Qed.

(** Connecting a session that is connected changes nothing. *)
Lemma opened_opened (s : sess) (tg : string) (w : world) :
  Sql.opened s tg (Sql.opened s tg w) = Sql.opened s tg w.
Proof.
  unfold Sql.opened at 2 3. destruct (stores w !! tg) eqn:E.
  - unfold Sql.opened. now rewrite E.
  - destruct (Sql.on_file s w) eqn:F.
    + unfold Sql.opened. cbn [stores Sql.on_stores set_stores].
      now rewrite lookup_insert_eq.
    + unfold Sql.opened. now rewrite E, F.
Qed.

Lemma target_of_opened (s : sess) (tg : string) (w : world) :
  Sql.target_of s (Sql.opened s tg w) = Sql.target_of s w.
Proof.
  unfold Sql.opened. destruct (stores w !! tg); [reflexivity|].
  destruct (Sql.on_file s w); [|reflexivity]. now destruct s.
Qed.

Lemma fault_opened (s : sess) (tg : string) (w : world) :
  storage_fault (Sql.opened s tg w) = storage_fault w.
Proof.
  unfold Sql.opened. destruct (stores w !! tg); [reflexivity|].
  now destruct (Sql.on_file s w).
Qed.

(** What connecting does to the storage targets. *)
Lemma stores_connect (s : sess) (w : world) :
  stores (state_after (Sql.connect s) w) =
    match Sql.target_of s w with
    | Some tg =>
        match stores w !! tg with
        | Some _ => stores w
        | None => if Sql.on_file s w then <[tg := mkDb None None]> (stores w) else stores w
        end
    | None => stores w
    end.
Proof.
  unfold state_after, Sql.connect, Sql.opened.
  destruct (Sql.target_of s w) as [tg|]; [|reflexivity]. cbn [snd].
  destruct (stores w !! tg); [reflexivity|]. now destruct (Sql.on_file s w).
Qed.

(** While the seeding runs on the session [s], once [s] is connected,
    only the open transaction of the target of [s] changes. *)
Definition seeding (s : sess) (otg : option string) (S0 : gmap string tenant_db)
    (p : fault_point) (x : world) : Prop :=
  faulty p x /\ Sql.target_of s x = otg /\
  forall tg,
    (otg = Some tg ->
     Sql.opened s tg x = x /\
     option_map db_tables (stores x !! tg) = option_map db_tables (S0 !! tg)) /\
    (otg <> Some tg -> stores x !! tg = S0 !! tg).

Section Seeding.

Variables (s : sess) (otg : option string) (S0 : gmap string tenant_db).

Lemma seeding_faulty (p : fault_point) (x : world) : seeding s otg S0 p x -> faulty p x.
Proof. now intros [H _]. Qed.

(** The state in which the first statement of [s] leaves it. *)
Lemma seeding_connected (p : fault_point) (w : world) :
  faulty p w ->
  seeding s (Sql.target_of s w) (stores (state_after (Sql.connect s) w)) p
    (state_after (Sql.connect s) w).
Proof.
  intros Hf. unfold state_after, Sql.connect.
  destruct (Sql.target_of s w) as [tg|] eqn:Ht; cbn [snd].
  - split; [unfold faulty; now rewrite fault_opened|].
    split; [now rewrite target_of_opened|].
    intros tg'. split; [|reflexivity].
    intros H. injection H as <-. split; [apply opened_opened | reflexivity].
  - split; [exact Hf|]. split; [exact Ht|]. intros tg. split; [discriminate | reflexivity].
Qed.

Lemma invariant_connect_seeding (p : fault_point) :
  invariant (seeding s otg S0 p) (Sql.connect s).
Proof.
  intros w (Hf & Ht & Hs). unfold state_after, Sql.connect. rewrite Ht.
  destruct otg as [tg|]; cbn [snd]; [|exact (conj Hf (conj Ht Hs))].
  destruct (Hs tg) as [Hc _]. destruct (Hc eq_refl) as [-> _].
  exact (conj Hf (conj Ht Hs)).
Qed.

Lemma invariant_read_seeding (p : fault_point) :
  invariant (seeding s otg S0 p) (Sql.read s).
Proof.
  intros w (Hf & Ht & Hs). unfold state_after, Sql.read. rewrite Ht.
  destruct otg as [tg|]; cbn [snd]; [|exact (conj Hf (conj Ht Hs))].
  destruct (Sql.view_at w tg); cbn [snd]; [exact (conj Hf (conj Ht Hs))|].
  destruct (Hs tg) as [Hc _]. destruct (Hc eq_refl) as [-> _].
  exact (conj Hf (conj Ht Hs)).
Qed.

Lemma invariant_write_seeding (p : fault_point) (t : tables) :
  invariant (seeding s otg S0 p) (Sql.write s t).
Proof.
  intros w (Hf & Ht & Hs). unfold state_after, Sql.write. rewrite Ht.
  destruct otg as [tg|]; [|exact (conj Hf (conj Ht Hs))].
  destruct (stores w !! tg) as [db|] eqn:E; cbn [snd].
  2: { destruct (Hs tg) as [Hc _]. destruct (Hc eq_refl) as [-> _].
       exact (conj Hf (conj Ht Hs)). }
  split; [exact Hf|]. split.
  { destruct s; exact Ht. }
  intros tg'. cbn [stores Sql.on_stores set_stores]. rewrite lookup_alter. split.
  - intros H. injection H as <-. rewrite decide_True by reflexivity. split.
    + unfold Sql.opened. cbn [stores Sql.on_stores set_stores].
      now rewrite lookup_alter, decide_True, E by reflexivity.
    + destruct (Hs tg) as [Hc _]. destruct (Hc eq_refl) as [_ <-]. now rewrite E.
  - intros Hne. rewrite decide_False by congruence. now apply Hs.
Qed.

Lemma invariant_run_seeding {A} (p : fault_point) (f : tables -> tables * A) :
  invariant (seeding s otg S0 p) (Sql.run s f).
Proof.
  unfold Sql.run. apply invariant_bind; [apply invariant_read_seeding|].
  intros t. destruct (f t) as [t' a].
  apply invariant_bind; [apply invariant_write_seeding | intros; apply invariant_ret].
Qed.

(** The seeding up to the operation that raises. *)
Ltac seeding_raises :=
  first
    [ apply raises_storage_op; apply seeding_faulty
    | apply raises_bind_l; seeding_raises
    | apply raises_bind_r; [seeding_inv | intros ?; seeding_raises] ]
with seeding_inv :=
  first
    [ apply invariant_storage_op
    | apply invariant_connect_seeding
    | apply invariant_run_seeding
    | apply invariant_bind_raises; [seeding_inv | seeding_raises]
    | apply invariant_bind; [seeding_inv | intros ?; seeding_inv] ].

Lemma invariant_seed_body_seeding (p : fault_point) (lic : License.t) :
  before_commit p = true -> p <> AtSeedOpen ->
  invariant (seeding s otg S0 p) (TenantManager.seed_body s lic).
Proof.
  intros Hp Hne. unfold TenantManager.seed_body, TenantManager.seed_rows.
  destruct p; try discriminate; try contradiction; seeding_inv.
Qed.

Lemma rollback_rolls_back (p : fault_point) (w : world) :
  seeding s otg S0 p w -> rolled_back S0 (stores (state_after (Sql.rollback s) w)).
Proof.
  intros (Hf & Ht & Hs). unfold state_after, Sql.rollback. rewrite Ht.
  destruct otg as [tg|]; cbn [snd]; rewrite settle_stores; simpl.
  - intros tg'. rewrite lookup_alter.
    destruct (decide (tg = tg')) as [<-|Hne].
    + destruct (Hs tg) as [Hc _]. destruct (Hc eq_refl) as [_ Hc']. unfold rolled_back_db.
      destruct (S0 !! tg) as [db0|], (stores w !! tg) as [db|]; simpl in *; try discriminate;
        [|exact I].
      injection Hc' as Hc'. auto.
    + rewrite (proj2 (Hs tg')) by congruence. apply rolled_back_refl.
  - intros tg'. rewrite (proj2 (Hs tg')) by discriminate. apply rolled_back_refl.
Qed.

End Seeding.

Lemma invariant_close_rolled_back (S0 : gmap string tenant_db) (s : sess) :
  invariant (fun x => rolled_back S0 (stores x)) (Sql.close s).
Proof.
  intros w H. unfold state_after, Sql.close.
  destruct (Sql.target_of s w) as [tg|]; [|exact H]. simpl.
  now apply rolled_back_drop.
Qed.

Lemma seed_except_rolls_back (s : sess) (otg : option string) (S0 : gmap string tenant_db)
    (p : fault_point) (w : world) :
  seeding s otg S0 p w ->
  rolled_back S0 (stores (state_after (seed_except (Some s)) w)).
Proof.
  intros H. unfold seed_except.
  apply (state_after_bind (fun x => rolled_back S0 (stores x)));
    [|intros; apply invariant_ret].
  unfold state_after, try_except. unfold bound. unfold bind at 1, ret.
  pose proof (rollback_rolls_back s otg S0 p w H) as Hr.
  match goal with
  | |- context [bind (Sql.rollback s) ?k w] =>
      assert (rolled_back S0 (stores (state_after (bind (Sql.rollback s) k) w))) as Hb
  end.
  { apply (state_after_bind (fun x => rolled_back S0 (stores x))); [exact Hr|].
    intros _. apply invariant_bind; [apply invariant_gets|].
    intros [|]; simpl.
    - apply invariant_modify. intros x Hx. exact Hx.
    - apply invariant_close_rolled_back. }
  unfold state_after in Hb.
  match goal with
  | |- context [match ?m with _ => _ end] => destruct m as [[[]|e] w1]
  end; exact Hb.
Qed.

Lemma seed_except_unbound (w : world) : state_after (seed_except None) w = w.
Proof. reflexivity. Qed.

Lemma bind_connect {B C} (s : sess) (R : unit -> M B) (K : B -> M C) (w : world) :
  bind (bind (Sql.connect s) R) K w = bind (R tt) K (state_after (Sql.connect s) w).
Proof. unfold bind, state_after, Sql.connect. now destruct (Sql.target_of s w). Qed.

Lemma connect_connect (s : sess) (w : world) :
  state_after (Sql.connect s) (state_after (Sql.connect s) w) = state_after (Sql.connect s) w.
Proof.
  unfold state_after, Sql.connect.
  destruct (Sql.target_of s w) as [tg|] eqn:Ht; cbn [snd].
  - rewrite target_of_opened, Ht. cbn [snd]. apply opened_opened.
  - now rewrite Ht.
Qed.

(** The body of the seeding from the state in which its first statement
    has connected the session. *)
Lemma seed_body_connected (s : sess) (lic : License.t) (w : world) :
  seed_body s lic w = seed_body s lic (state_after (Sql.connect s) w).
Proof.
  unfold seed_body, seed_rows. rewrite !bind_connect. now rewrite connect_connect.
Qed.

(** The session a seeding opens, when it opens one, and the state it
    opens it in. *)
Lemma seed_open_frame (k : string) (w w1 : world) (r : outcome sess) :
  seed_open k w = (r, w1) ->
  stores w1 = stores w /\ storage_fault w1 = storage_fault w /\
  config_uri w1 = config_uri w /\ basedir w1 = basedir w.
Proof.
  intros E.
  apply (invariant_run_eq
           (fun x => stores x = stores w /\ storage_fault x = storage_fault w /\
                     config_uri x = config_uri w /\ basedir x = basedir w)
           (seed_open k) w w1 r); [|now repeat split|exact E].
  apply invariant_seed_open; intros x q Hx; exact Hx.
Qed.

Lemma seed_open_session (k : string) (w w1 : world) (s : sess) :
  seed_open k w = (Ret s, w1) ->
  s = if _is_postgres w then SharedSession
      else EngineSession (get_tenant_db_path (basedir w) k).
Proof.
  unfold seed_open. rewrite bind_gets. destruct (_is_postgres w) eqn:Hpg.
  - unfold bind, ret. destruct (Flask.with_app_context _ w) as [[[]|e] w2]; [|discriminate].
    now intros [= <- _].
  - rewrite bind_gets. unfold get_tenant_db_uri. rewrite Hpg.
    unfold bind, storage_op. destruct (decide _); [discriminate|].
    unfold Sql.create_engine, Sql.SQLITE_PREFIX. rewrite strip_prefix_append.
    now intros [= <- _].
Qed.

(** The stores a failed seeding leaves are those that its session
    found once it was connected, rolled back. *)
Lemma initialize_rolls_back (p : fault_point) (w : world) (k : string) (lic : License.t) :
  before_commit p = true -> faulty p w ->
  exists S1,
    rolled_back S1 (stores (state_after (initialize_tenant_data k lic) w)) /\
    (S1 = stores w \/
     exists s w1, seed_open k (set_trace (trace w ++ [InitializeTenantData k])%list w)
                    = (Ret s, w1) /\
                  S1 = stores (state_after (Sql.connect s) w1)).
Proof.
  destruct (faulty_stable p) as (H1 & H2 & H3 & H4 & H5).
  intros Hp Hw. unfold initialize_tenant_data, state_after.
  unfold bind at 1, log, modify.
  set (w0 := set_trace _ w).
  assert (faulty p w0) as Hw0 by exact Hw.
  unfold try_except at 1.
  destruct (seed_open k w0) as [[s|e] w1] eqn:Eo.
  - destruct (seed_open_frame k w0 w1 _ Eo) as (Hs1 & Hf1' & _).
    assert (faulty p w1) as Hf1 by (unfold faulty; now rewrite Hf1').
    assert (p <> AtSeedOpen) as Hne.
    { intros ->. destruct (seed_open_raises k w0 Hw0) as [e He].
      unfold result_of in He. rewrite Eo in He. discriminate. }
    exists (stores (snd (Sql.connect s w1))). split; [|right; exists s, w1; now split].
    pose proof (seeding_connected s p w1 Hf1) as Hseed.
    assert (is_seed_point p = true) as Hsp by (now destruct p).
    unfold try_except. rewrite seed_body_connected.
    change (snd (Sql.connect s w1)) with (state_after (Sql.connect s) w1).
    set (w1' := state_after (Sql.connect s) w1) in *.
    assert (faulty p w1') as Hf1c by (apply (seeding_faulty _ _ _ _ _ Hseed)).
    destruct (seed_body_raises p s lic Hsp Hne w1' Hf1c) as [e He].
    pose proof (invariant_seed_body_seeding s _ _ p lic Hp Hne w1' Hseed) as Hinv.
    unfold try_except, result_of, state_after in *.
    destruct (seed_body s lic w1') as [[b|e'] w2]; [discriminate|]. simpl in Hinv.
    exact (seed_except_rolls_back s _ _ p w2 Hinv).
  - exists (stores w). split; [|now left].
    destruct (seed_open_frame k w0 w1 _ Eo) as (Hs1 & _).
    change (rolled_back (stores w) (stores (state_after (seed_except None) w1))).
    rewrite seed_except_unbound, Hs1. apply rolled_back_refl.
Qed.


End SeedingFailure.

Lemma extend_perpetual_license_witness :
  let new_expires :=
    LicenseControl.strftime SampleWorlds.py
      (SampleWorlds.NOW + 30 * LicenseControl.US_PER_DAY) LicenseControl.FORMAT in
  let out :=
    LicenseControl.extend_license SampleWorlds.py SampleWorlds.NOW
      [SampleWorlds.perpetual] "LIC-0001" 30 in
  fst (fst out) = true /\
  find (LicenseControl.keyed "LIC-0001") (snd out)
    = Some (LicenseControl.with_expires_at (Some new_expires) SampleWorlds.perpetual) /\
  (forall r', In r' (snd out) -> LicenseControl.license_key r' = "LIC-0001" ->
              LicenseControl.expires_at r' = Some new_expires /\
              LicenseControl.expires_at r' <> None).
Proof.
  apply (extend_perpetual_license SampleWorlds.py SampleWorlds.NOW [SampleWorlds.perpetual]
           "LIC-0001" 30 SampleWorlds.perpetual).
  - reflexivity.
  - reflexivity.
  - unfold LicenseControl.representable; split; vm_compute; congruence.
  - unfold LicenseControl.representable; split; vm_compute; congruence.
Defined.

(** ** Running the provisioner *)

Section Provisioning.

Import TenantManager.

Lemma bind_storage_op_ok {B} (p : fault_point) (k : unit -> M B) (w : world) :
  storage_fault w <> Some p -> bind (storage_op p) k w = k tt w.
Proof. intros H. unfold bind. now rewrite storage_op_ok. Qed.

Lemma bind_log {B} (e : event) (k : unit -> M B) (w : world) :
  bind (log e) k w = k tt (set_trace (trace w ++ [e])%list w).
Proof. reflexivity. Qed.

Lemma bind_commit {B} (s : sess) (k : unit -> M B) (w : world) (tg : string) :
  Sql.target_of s w = Some tg ->
  bind (Sql.commit s) k w =
    k tt (Sql.settle true s
            (set_trace (trace w ++ [SessCommit tg])%list
               (Sql.on_stores (alter (Sql.end_db true) tg) w))).
Proof. intros H. unfold bind, Sql.commit. now rewrite H. Qed.

(** The end of a transaction of [db.session] under PostgreSQL. *)
Lemma settle_shared (keep : bool) (w : world) :
  PyStr.strip_prefix Sql.SQLITE_PREFIX (config_uri w) = None ->
  Sql.settle keep SharedSession w =
    if keep then set_committed_search_path (search_path w) w
    else set_search_path (committed_search_path w) w.
Proof. intros H. unfold Sql.settle, Sql.on_file. now rewrite H. Qed.

Lemma settle_engine (keep : bool) (path : string) (w : world) :
  Sql.settle keep (EngineSession path) w = w.
Proof. reflexivity. Qed.

Lemma settle_file (keep : bool) (w : world) (path : string) :
  PyStr.strip_prefix Sql.SQLITE_PREFIX (config_uri w) = Some path ->
  Sql.settle keep SharedSession w = w.
Proof. intros H. unfold Sql.settle, Sql.on_file. now rewrite H. Qed.

Lemma bind_commit_shared {B} (k : unit -> M B) (w : world) (tg : string) :
  PyStr.strip_prefix Sql.SQLITE_PREFIX (config_uri w) = None ->
  head (search_path w) = Some tg ->
  bind (Sql.commit SharedSession) k w =
    k tt (set_committed_search_path (search_path w)
            (set_trace (trace w ++ [SessCommit tg])%list
               (Sql.on_stores (alter (Sql.end_db true) tg) w))).
Proof.
  intros Hs Hh. rewrite (bind_commit SharedSession k w tg)
    by (unfold Sql.target_of, Sql.active_target; now rewrite Hs).
  now rewrite settle_shared by exact Hs.
Qed.

Lemma bind_create_all {B} (tg : string) (k : unit -> M B) (w : world) :
  is_Some (stores w !! tg) ->
  bind (Sql.create_all tg) k w = k tt (Sql.on_stores (alter Sql.with_tables tg) w).
Proof. intros [db H]. unfold bind, Sql.create_all. now rewrite H. Qed.

Lemma active_target_shared (w : world) :
  PyStr.strip_prefix Sql.SQLITE_PREFIX (config_uri w) = None ->
  Sql.active_target w = head (search_path w).
Proof. intros H. unfold Sql.active_target. now rewrite H. Qed.

(** What [create_tenant_database] does to the storage target [k] holds,
    under PostgreSQL ([pg]) and under SQLite, for the tenant target [tg]. *)
Definition create_effect (pg : bool) (tg k : string) (o : option tenant_db)
    : option tenant_db :=
  if pg then
    if decide (k = tg) then
      Some (Sql.with_tables (Sql.commit_db (default (mkDb None None) o)))
    else if decide (k = "public") then Sql.commit_db <$> o
    else o
  else
    if decide (k = tg) then
      match o with
      | Some db => Some db
      | None => Some (mkDb (Some empty_tables) None)
      end
    else o.

Definition no_create_fault (w : world) : Prop :=
  storage_fault w <> Some AtCreateSchema /\ storage_fault w <> Some AtCreateTables.

Lemma schema_not_public (k : string) : _schema_name k <> "public".
Proof. unfold _schema_name. discriminate. Qed.

Lemma create_postgres (w : world) (k : string) :
  postgres_deployment w -> no_create_fault w ->
  exists w',
    create_tenant_database k w = (Ret true, w') /\
    (forall key, stores w' !! key = create_effect true (_schema_name k) key (stores w !! key)) /\
    config_uri w' = config_uri w /\ basedir w' = basedir w /\
    storage_fault w' = storage_fault w /\ session w' = session w /\
    search_path w' = ["public"] /\ committed_search_path w' = ["public"].
Proof.
  intros [Hpg Hs] [Hf1 Hf2]. unfold create_tenant_database.
  rewrite bind_log. unfold try_except.
  rewrite bind_gets.
  assert (_is_postgres (set_trace (trace w ++ [CreateTenantDatabase k])%list w) = true) as ->
    by exact Hpg.
  set (w0 := set_trace _ w).
  assert (exists w2,
            (storage_op AtCreateSchema ;;;
             Sql.create_target (_schema_name k) ;;;
             modify (set_search_path [_schema_name k; "public"]) ;;;
             Sql.commit SharedSession ;;;
             storage_op AtCreateTables ;;;
             Sql.create_all (_schema_name k) ;;;
             switch_to_public ;;;
             Sql.commit SharedSession)%monad w0 = (Ret tt, w2) /\
            (forall key, stores w2 !! key
                         = create_effect true (_schema_name k) key (stores w !! key)) /\
            config_uri w2 = config_uri w /\ basedir w2 = basedir w /\
            storage_fault w2 = storage_fault w /\ session w2 = session w /\
            search_path w2 = ["public"] /\ committed_search_path w2 = ["public"])
    as (w2 & Hbody & Hst & Hc & Hb & Hf & Hse & Hp & Hcp).
  { rewrite bind_storage_op_ok by exact Hf1.
    unfold Sql.create_target. rewrite !bind_modify.
    rewrite (bind_commit_shared _ _ (_schema_name k)) by (try exact Hs; reflexivity).
    rewrite bind_storage_op_ok by exact Hf2.
    rewrite bind_create_all.
    2: { simpl. rewrite lookup_alter, decide_True by reflexivity.
         rewrite lookup_partial_alter_eq. destruct (stores w !! _schema_name k); simpl; eauto. }
    unfold switch_to_public. rewrite bind_modify.
    unfold Sql.commit, Sql.target_of. rewrite active_target_shared by exact Hs.
    cbn [head search_path set_search_path]. rewrite settle_shared by exact Hs.
    eexists. split; [reflexivity|]. simpl. repeat split.
    intros key. unfold create_effect.
    rewrite lookup_alter. destruct (decide ("public" = key)) as [<-|Hp].
    - rewrite decide_False by (intros H; symmetry in H; now apply schema_not_public in H).
      rewrite decide_True by reflexivity.
      rewrite !lookup_alter_ne by apply schema_not_public.
      rewrite lookup_partial_alter_ne by apply schema_not_public. reflexivity.
    - rewrite lookup_alter. destruct (decide (_schema_name k = key)) as [<-|Hk].
      + rewrite decide_True by reflexivity.
        rewrite lookup_alter, decide_True by reflexivity.
        rewrite lookup_partial_alter_eq. now destruct (stores w !! _schema_name k).
      + rewrite decide_False by congruence. rewrite decide_False by congruence.
        rewrite lookup_alter_ne by exact Hk. now rewrite lookup_partial_alter_ne. }
  rewrite (bind_ret_eq _ _ _ _ _ (with_app_context_run _ _ _ _ Hbody)).
  eexists. split; [reflexivity|].
  rewrite settle_stores, settle_config, settle_basedir, settle_fault, settle_session.
  rewrite settle_shared by (now rewrite Hc).
  cbn [search_path committed_search_path set_search_path]. rewrite Hcp.
  now repeat split.
Qed.

Lemma create_sqlite (w : world) (k : string) :
  _is_postgres w = false -> no_create_fault w ->
  exists w',
    create_tenant_database k w = (Ret true, w') /\
    (forall key, stores w' !! key =
                 create_effect false (get_tenant_db_path (basedir w) k) key (stores w !! key)) /\
    config_uri w' = config_uri w /\ basedir w' = basedir w /\
    storage_fault w' = storage_fault w /\ session w' = session w /\
    search_path w' = search_path w.
Proof.
  intros Hpg [Hf1 Hf2]. unfold create_tenant_database.
  rewrite bind_log. unfold try_except.
  rewrite bind_gets.
  assert (_is_postgres (set_trace (trace w ++ [CreateTenantDatabase k])%list w) = false) as ->
    by exact Hpg.
  rewrite bind_gets. unfold Sql.target_exists. rewrite bind_gets. simpl.
  set (tg := get_tenant_db_path (basedir w) k).
  destruct (stores w !! tg) as [db|] eqn:E.
  - eexists. split; [reflexivity|]. simpl. repeat split.
    intros key. unfold create_effect. destruct (decide (key = tg)) as [->|]; [|reflexivity].
    now rewrite E.
  - rewrite bind_storage_op_ok by exact Hf1.
    unfold Sql.create_target. rewrite bind_modify.
    rewrite bind_storage_op_ok by exact Hf2.
    rewrite bind_create_all by (simpl; rewrite lookup_partial_alter_eq, E; simpl; eauto).
    eexists. split; [reflexivity|]. simpl. repeat split.
    intros key. unfold create_effect. rewrite lookup_alter.
    destruct (decide (tg = key)) as [<-|Hk].
    + rewrite decide_True by reflexivity. now rewrite lookup_partial_alter_eq, E.
    + rewrite decide_False by congruence. now rewrite lookup_partial_alter_ne.
Qed.

End Provisioning.

(** ** Running the seeding *)

Section Seeding.

Import TenantManager.

(** Two states with the same binding, fault plan and Flask session. *)
Definition same_binding (w w' : world) : Prop :=
  config_uri w' = config_uri w /\ search_path w' = search_path w /\
  basedir w' = basedir w /\ storage_fault w' = storage_fault w /\
  session w' = session w.

Lemma target_of_on_stores (s : sess) (g : gmap string tenant_db -> gmap string tenant_db)
    (w : world) :
  Sql.target_of s (Sql.on_stores g w) = Sql.target_of s w.
Proof. now destruct s. Qed.

Lemma view_at_put (w : world) (tg : string) (t t' : tables) :
  Sql.view_at w tg = Some t ->
  Sql.view_at (Sql.on_stores (alter (Sql.put_db t') tg) w) tg = Some t'.
Proof.
  unfold Sql.view_at. simpl. rewrite lookup_alter, decide_True by reflexivity.
  destruct (stores w !! tg); [reflexivity | discriminate].
Qed.

Lemma bind_run {A B} (s : sess) (f : tables -> tables * A) (k : A -> M B)
    (w : world) (tg : string) (t : tables) :
  Sql.target_of s w = Some tg -> Sql.view_at w tg = Some t ->
  bind (Sql.run s f) k w = k (snd (f t)) (Sql.on_stores (alter (Sql.put_db (fst (f t))) tg) w).
Proof.
  intros Htg Hv. unfold Sql.run, Sql.read, Sql.write, bind, ret. rewrite Htg, Hv.
  destruct (f t) as [t' a]. rewrite Htg. unfold Sql.view_at in Hv.
  destruct (stores w !! tg); [reflexivity | discriminate].
Qed.

Lemma seed_tables_eq (lic : License.t) (t : tables) :
  seed_tables lic t =
    fst (seed_accounts
      (fst (seed_admin_user lic (snd (seed_roles t)) (snd (seed_branch (fst (seed_roles t))))
                             (fst (seed_branch (fst (seed_roles t))))))).
Proof.
  unfold seed_tables. destruct (seed_roles t) as [t1 a]. simpl.
  destruct (seed_branch t1) as [t2 b]. simpl.
  now destruct (seed_admin_user lic a b t2).
Qed.

Lemma target_of_same_binding (s : sess) (w w' : world) :
  same_binding w w' -> Sql.target_of s w' = Sql.target_of s w.
Proof.
  intros (Hc & Hp & _). destruct s; [|reflexivity].
  unfold Sql.target_of, Sql.active_target. now rewrite Hc, Hp.
Qed.

Lemma same_binding_refl (w : world) : same_binding w w.
Proof. now repeat split. Qed.

Lemma same_binding_trans (w1 w2 w3 : world) :
  same_binding w1 w2 -> same_binding w2 w3 -> same_binding w1 w3.
Proof.
  intros (A1 & A2 & A3 & A4 & A5) (B1 & B2 & B3 & B4 & B5).
  repeat split; congruence.
Qed.

(** The session on [tg] sees the rows [t]; nothing else has changed
    since [w0]. *)
Definition in_txn (w0 : world) (tg : string) (t : tables) (w : world) : Prop :=
  same_binding w0 w /\ Sql.view_at w tg = Some t /\
  forall key, key <> tg -> stores w !! key = stores w0 !! key.

Lemma in_txn_start (w : world) (tg : string) (t : tables) :
  Sql.view_at w tg = Some t -> in_txn w tg t w.
Proof. intros H. split; [apply same_binding_refl|]. now split. Qed.

Lemma in_txn_put (w0 w : world) (tg : string) (t t' : tables) :
  in_txn w0 tg t w -> in_txn w0 tg t' (Sql.on_stores (alter (Sql.put_db t') tg) w).
Proof.
  intros (Hb & Hv & Hs). split; [exact Hb|]. split; [now apply (view_at_put w tg t)|].
  intros key Hk. simpl. rewrite lookup_alter_ne by congruence. now apply Hs.
Qed.

Lemma run_in_txn {A B} (s : sess) (f : tables -> tables * A) (k : A -> M B)
    (w0 w : world) (tg : string) (t : tables) :
  Sql.target_of s w0 = Some tg -> in_txn w0 tg t w ->
  exists w', bind (Sql.run s f) k w = k (snd (f t)) w' /\ in_txn w0 tg (fst (f t)) w'.
Proof.
  intros Htg Hin. eexists. split; [|eapply in_txn_put; exact Hin].
  apply bind_run; [|apply Hin].
  rewrite (target_of_same_binding s w0 w) by apply Hin. exact Htg.
Qed.

Lemma op_in_txn {B} (p : fault_point) (k : unit -> M B) (w0 w : world) (tg : string)
    (t : tables) :
  storage_fault w0 = None -> in_txn w0 tg t w -> bind (storage_op p) k w = k tt w.
Proof.
  intros Hf ((_ & _ & _ & Hf' & _) & _). apply bind_storage_op_ok.
  rewrite Hf', Hf. discriminate.
Qed.

Lemma same_binding_commit (s : sess) (w0 w : world) :
  same_binding w0 w -> same_binding w0 (Sql.settle true s w).
Proof.
  intros H. unfold Sql.settle. destruct (Sql.on_file s w); [exact H|].
  destruct H as (A1 & A2 & A3 & A4 & A5). now repeat split.
Qed.

(** The first statement of a session on a target that is there. *)
Lemma bind_connected {B} (s : sess) (k : unit -> M B) (w : world) (tg : string) (t : tables) :
  Sql.target_of s w = Some tg -> Sql.view_at w tg = Some t ->
  bind (Sql.connect s) k w = k tt w.
Proof.
  intros Htg Hv. unfold bind, Sql.connect, Sql.opened. rewrite Htg.
  unfold Sql.view_at in Hv. now destruct (stores w !! tg).
Qed.

Lemma commit_in_txn (s : sess) (w0 w : world) (tg : string) (t : tables) :
  Sql.target_of s w0 = Some tg -> in_txn w0 tg t w ->
  exists w', Sql.commit s w = (Ret tt, w') /\ same_binding w0 w' /\
    forall key, stores w' !! key =
                if decide (key = tg) then Some (mkDb (Some t) None) else stores w0 !! key.
Proof.
  intros Htg (Hb & Hv & Hs). unfold Sql.commit.
  rewrite (target_of_same_binding s w0 w Hb), Htg.
  eexists. split; [reflexivity|]. split; [apply same_binding_commit; exact Hb|].
  intros key. rewrite settle_stores. simpl. rewrite lookup_alter.
  destruct (decide (tg = key)) as [<-|Hk].
  - rewrite decide_True by reflexivity. unfold Sql.view_at in Hv.
    destruct (stores w !! tg) as [db|]; [|discriminate]. simpl.
    unfold Sql.commit_db. now rewrite Hv.
  - rewrite decide_False by congruence. apply Hs. congruence.
Qed.

Lemma seed_rows_commits (s : sess) (lic : License.t) (w : world) (tg : string) (t : tables) :
  storage_fault w = None -> Sql.target_of s w = Some tg -> Sql.view_at w tg = Some t ->
  exists w1,
    seed_rows s lic w = (Ret tt, w1) /\ same_binding w w1 /\
    forall key, stores w1 !! key =
                if decide (key = tg) then Some (mkDb (Some (seed_tables lic t)) None)
                else stores w !! key.
Proof.
  intros Hf Htg Hv. unfold seed_rows. rewrite seed_tables_eq.
  pose proof (in_txn_start w tg t Hv) as H0.
  rewrite (bind_connected s _ w tg t Htg Hv).
  erewrite op_in_txn by eassumption.
  destruct (run_in_txn s seed_roles
              (fun admin_role =>
                 bind (storage_op AtSeedBranch) (fun _ =>
                 bind (Sql.run s seed_branch) (fun main_branch =>
                 bind (storage_op AtSeedAdmin) (fun _ =>
                 bind (Sql.run s (seed_admin_user lic admin_role main_branch)) (fun _ =>
                 bind (storage_op AtSeedAccounts) (fun _ =>
                 bind (Sql.run s seed_accounts) (fun _ =>
                 bind (storage_op AtSeedCommit) (fun _ => Sql.commit s))))))))
              w w tg t Htg H0) as (w1 & -> & H1).
  erewrite op_in_txn by eassumption.
  match goal with
  | |- context [bind (Sql.run s seed_branch) ?k w1] =>
      destruct (run_in_txn s seed_branch k w w1 tg _ Htg H1) as (w2 & -> & H2)
  end.
  erewrite op_in_txn by eassumption.
  match goal with
  | |- context [bind (Sql.run s ?f) ?k w2] =>
      destruct (run_in_txn s f k w w2 tg _ Htg H2) as (w3 & -> & H3)
  end.
  erewrite op_in_txn by eassumption.
  match goal with
  | |- context [bind (Sql.run s ?f) ?k w3] =>
      destruct (run_in_txn s f k w w3 tg _ Htg H3) as (w4 & -> & H4)
  end.
  erewrite op_in_txn by eassumption.
  exact (commit_in_txn s w w4 tg _ Htg H4).
Qed.

End Seeding.

(** ** Provisioning followed by seeding *)

Section ProvisionThenSeed.

Import TenantManager.

Variables (k : string) (lic : License.t).


Lemma seed_open_sqlite (w0 : world) :
  _is_postgres w0 = false -> storage_fault w0 = None ->
  seed_open k w0 = (Ret (EngineSession (get_tenant_db_path (basedir w0) k)), w0).
Proof.
  intros Hpg Hf. unfold seed_open. rewrite bind_gets, Hpg. rewrite bind_gets.
  rewrite bind_storage_op_ok by (rewrite Hf; discriminate).
  unfold get_tenant_db_uri. rewrite Hpg.
  unfold Sql.create_engine, Sql.SQLITE_PREFIX. now rewrite strip_prefix_append.
Qed.



Lemma initialize_sqlite (w0 : world) (t : tables) :
  _is_postgres w0 = false -> storage_fault w0 = None ->
  Sql.view_at w0 (get_tenant_db_path (basedir w0) k) = Some t ->
  exists w',
    initialize_tenant_data k lic w0 = (Ret true, w') /\
    (forall key, stores w' !! key =
       if decide (key = get_tenant_db_path (basedir w0) k) then Some (seeded_db lic t)
       else stores w0 !! key) /\
    config_uri w' = config_uri w0 /\ basedir w' = basedir w0 /\
    storage_fault w' = storage_fault w0 /\ session w' = session w0.
Proof.
  intros Hpg Hf Hv. unfold initialize_tenant_data. rewrite bind_log.
  unfold try_except at 1. rewrite seed_open_sqlite by assumption.
  set (wa := set_trace _ _). set (tg := get_tenant_db_path (basedir wa) k).
  destruct (seed_rows_commits (EngineSession tg) lic wa tg t)
    as (w1 & Hrows & (Hc & Hp & Hb & Hf1 & Hse) & Hst);
    [exact Hf | reflexivity | exact Hv |].
  unfold try_except, seed_body. rewrite (bind_ret_eq _ _ _ _ _ Hrows).
  unfold seed_cleanup.
  assert (storage_fault w1 = None) as Hf1' by (rewrite Hf1; exact Hf).
  unfold bind at 1. rewrite bind_storage_op_ok by (rewrite Hf1'; discriminate).
  rewrite bind_gets, (is_postgres_config w1 w0 Hc), Hpg.
  unfold Sql.close, Sql.target_of, ret.
  eexists. split; [reflexivity|]. simpl. split; [|now repeat split].
  intros key. change (get_tenant_db_path (basedir w0) k) with tg.
  rewrite lookup_alter. destruct (decide (tg = key)) as [<-|Hk].
  - rewrite Hst. repeat case_decide; try congruence. reflexivity.
  - rewrite Hst. repeat case_decide; try congruence. reflexivity.
Qed.

Lemma initialize_sqlite_no_tables (w0 : world) (db : tenant_db) :
  _is_postgres w0 = false -> storage_fault w0 = None ->
  stores w0 !! get_tenant_db_path (basedir w0) k = Some db -> Sql.view db = None ->
  exists w',
    initialize_tenant_data k lic w0 = (Ret false, w') /\
    (forall key, stores w' !! key = stores w0 !! key) /\
    config_uri w' = config_uri w0 /\ basedir w' = basedir w0 /\
    storage_fault w' = storage_fault w0 /\ session w' = session w0.
Proof.
  intros Hpg Hf Hdb Hv. unfold initialize_tenant_data. rewrite bind_log.
  unfold try_except at 1. rewrite seed_open_sqlite by assumption.
  set (wa := set_trace _ _). set (tg := get_tenant_db_path (basedir wa) k).
  assert (stores wa !! tg = Some db) as Hdb' by exact Hdb.
  assert (Sql.opened (EngineSession tg) tg wa = wa) as Hop
    by (unfold Sql.opened; now rewrite Hdb').
  assert (seed_body (EngineSession tg) lic wa = (Raise (OperationalError tg), wa)) as Hbody.
  { unfold seed_body, seed_rows.
    unfold bind at 1. unfold bind at 1. unfold Sql.connect at 1, Sql.target_of.
    rewrite Hop. unfold bind at 1.
    rewrite storage_op_ok
      by (intros E; change (storage_fault w0 = Some AtSeedRoles) in E; congruence).
    unfold bind at 1. unfold Sql.run. unfold bind at 1.
    unfold Sql.read, Sql.target_of, Sql.view_at.
    now rewrite Hdb', Hv, Hop. }
  unfold try_except. rewrite Hbody.
  assert (forall x g, _is_postgres (set_trace x (Sql.on_stores g wa)) = false) as Hpg'
    by (intros; exact Hpg).
  unfold seed_except, bound, try_except, bind, ret, gets, Sql.rollback, Sql.close,
    Sql.target_of.
  rewrite settle_engine, Hpg'. simpl negb. cbv iota.
  eexists. split; [reflexivity|]. simpl. split; [|now repeat split].
  intros key. rewrite !lookup_alter. destruct (decide (tg = key)) as [<-|Hk]; [|reflexivity].
  change (stores w0 !! tg) with (stores wa !! tg).
  rewrite Hdb'. simpl. destruct db as [c x]. unfold Sql.view in Hv. simpl in Hv.
  destruct x; [discriminate|]. subst c. now case_decide.
Qed.

End ProvisionThenSeed.

(** ** The control panel: status changes and extensions *)

Section LicenseStatus.

Import LicenseControl.

Variables (py : datetime_lib) (now : Z) (licenses : list row) (key : string).

Lemma update_keyed_absent (set : row -> row) (l : list row) :
  find (keyed key) l = None -> update_keyed key set l = (l, 0).
Proof.
  unfold update_keyed. induction l as [|r l IH]; [reflexivity|].
  cbn [find]. destruct (keyed key r) eqn:E; [discriminate|]. intros H.
  specialize (IH H). injection IH as IH1 IH2.
  cbn [map]. rewrite E, IH1. f_equal.
  rewrite filter_cons_False by (rewrite E; discriminate). exact IH2.
Qed.

Lemma update_keyed_present (set : row -> row) (l : list row) (r : row) :
  find (keyed key) l = Some r -> (0 <? snd (update_keyed key set l)) = true.
Proof.
  unfold update_keyed. cbn [snd]. induction l as [|r0 l IH]; [discriminate|].
  cbn [find]. destruct (keyed key r0) eqn:E.
  - intros _. rewrite filter_cons_True by exact E. cbn [length]. apply Z.ltb_lt. lia.
  - intros H. rewrite filter_cons_False by (rewrite E; discriminate). now apply IH.
Qed.

Lemma update_keyed_rows (set : row -> row) (l : list row) :
  Forall2 (fun old new => if keyed key old then new = set old else new = old)
          l (fst (update_keyed key set l)).
Proof.
  unfold update_keyed. cbn [fst]. induction l as [|r l IH]; cbn [map]; constructor.
  - now destruct (keyed key r).
  - exact IH.
Qed.

Lemma map_update_twice (f g : row -> row) (l : list row) :
  (forall r, license_key (f r) = license_key r) ->
  map (fun r => if keyed key r then g r else r)
      (map (fun r => if keyed key r then f r else r) l)
  = map (fun r => if keyed key r then g (f r) else r) l.
Proof.
  intros Hf. rewrite map_map. apply map_ext. intros r.
  destruct (keyed key r) eqn:E; [|now rewrite E].
  unfold keyed in *. now rewrite Hf, E.
Qed.

(** X1: a key that no row of the table carries: activation, suspension,
    deactivation and extension all report the failure "license not
    found" and leave the table as it was. *)
Theorem unknown_license_key (reason : string) (days : Z) :
  find (keyed key) licenses = None ->
  activate_license licenses key = ((false, "الترخيص غير موجود"), licenses) /\
  suspend_license licenses key reason = ((false, "الترخيص غير موجود"), licenses) /\
  deactivate_license licenses key = ((false, "الترخيص غير موجود"), licenses) /\
  extend_license py now licenses key days = ((false, "الترخيص غير موجود"), licenses).
Proof.
  intros H. unfold activate_license, suspend_license, deactivate_license, extend_license.
  rewrite !update_keyed_absent by exact H. rewrite H. now repeat split.
Qed.

(** X2: activating a license that is in the table reports success and
    makes every row with that key active and not suspended, with no
    suspension reason; the expiry of these rows is kept as it is (an
    expired license stays expired), and the rows of other keys are not
    touched. *)
Theorem activate_lifts_suspension (r : row) :
  find (keyed key) licenses = Some r ->
  let out := activate_license licenses key in
  fst out = (true, "تم تفعيل الترخيص بنجاح") /\
  Forall2 (fun old new =>
             if keyed key old
             then is_active new = true /\ is_suspended new = false /\
                  suspension_reason new = None /\
                  expires_at new = expires_at old /\ license_key new = key
             else new = old)
          licenses (snd out).
Proof.
  intros H. cbv zeta. unfold activate_license.
  pose proof (update_keyed_present
                (fun r => with_suspension false None (with_is_active true r)) licenses r H) as Hn.
  pose proof (update_keyed_rows
                (fun r => with_suspension false None (with_is_active true r)) licenses) as Hr.
  destruct (update_keyed key _ licenses) as [l' n]. cbn [fst snd] in *. rewrite Hn.
  split; [reflexivity|].
  eapply Forall2_impl; [exact Hr|]. intros old new. cbv beta.
  destruct (keyed key old) eqn:E; [|trivial].
  intros ->. cbn. repeat split. unfold keyed in E. now apply String.eqb_eq.
Qed.

(** X3: activation undoes a suspension and a deactivation: activating
    after either of them leaves the table as activating right away
    does; and a suspension and a deactivation of the same license can
    be done in either order. *)
Theorem activation_restores (reason : string) :
  snd (activate_license (snd (suspend_license licenses key reason)) key)
    = snd (activate_license licenses key) /\
  snd (activate_license (snd (deactivate_license licenses key)) key)
    = snd (activate_license licenses key) /\
  snd (suspend_license (snd (deactivate_license licenses key)) key reason)
    = snd (deactivate_license (snd (suspend_license licenses key reason)) key).
Proof.
  unfold activate_license, suspend_license, deactivate_license, update_keyed. cbn [snd].
  rewrite !map_update_twice by reflexivity. repeat split; reflexivity.
Qed.

(** X4: a stored expiry that parses is what an extension counts from,
    not the current time: the new expiry is the stored one plus the
    days, whatever the clock says (a license that expired long ago may
    still be expired after it). *)
Theorem extend_from_stored_expiry (r : row) (text : string) (e days : Z) :
  find (keyed key) licenses = Some r ->
  expires_at r = Some text -> text <> "" ->
  strptime py text FORMAT = Some e ->
  Z.abs days <= 999999999 ->
  representable (e + days * US_PER_DAY) ->
  let new_expires := strftime py (e + days * US_PER_DAY) FORMAT in
  let out := extend_license py now licenses key days in
  fst (fst out) = true /\
  find (keyed key) (snd out) = Some (with_expires_at (Some new_expires) r) /\
  Forall2 (fun old new =>
             if keyed key old then new = with_expires_at (Some new_expires) old
             else new = old)
          licenses (snd out).
Proof.
  intros Hfind Hexp Htext Hparse Hdays Hrange. cbv zeta. unfold extend_license.
  rewrite Hfind, Hexp. unfold parse_expires, PyStr.truthy, PyStr.or_default.
  apply String.eqb_neq in Htext. rewrite Htext. cbn [negb]. rewrite Hparse.
  unfold timedelta. destruct (Z.leb_spec (Z.abs days) 999999999); [|lia].
  unfold datetime_add.
  assert ((0 <=? e + days * US_PER_DAY) && (e + days * US_PER_DAY <? DATETIME_END) = true)
    as -> by (unfold representable in Hrange; apply andb_true_intro; split;
              [apply Z.leb_le | apply Z.ltb_lt]; lia).
  cbn [fst snd]. split; [reflexivity|]. split.
  - rewrite find_keyed_update by reflexivity. now rewrite Hfind.
  - exact (update_keyed_rows
             (with_expires_at (Some (strftime py (e + days * US_PER_DAY) FORMAT))) licenses).
Qed.

(** X5: an extension that takes the date out of the range of
    [datetime], or by more days than a [timedelta] holds, reports an
    error and leaves the table as it was: the row is not updated. *)
Theorem extend_out_of_range (r : row) (days : Z) :
  find (keyed key) licenses = Some r ->
  999999999 < Z.abs days \/
    ~ representable (parse_expires py now (expires_at r) + days * US_PER_DAY) ->
  exists e, extend_license py now licenses key days = ((false, "خطأ: " +:+ e), licenses).
Proof.
  intros Hfind Hout. unfold extend_license. rewrite Hfind.
  unfold timedelta. destruct (Z.leb_spec (Z.abs days) 999999999) as [Hd|Hd].
  - destruct Hout as [Hout|Hout]; [lia|]. unfold datetime_add.
    set (x := parse_expires py now (expires_at r) + days * US_PER_DAY) in *.
    destruct ((0 <=? x) && (x <? DATETIME_END)) eqn:E; [|eauto].
    apply andb_prop in E as [E1 E2]. apply Z.leb_le in E1. apply Z.ltb_lt in E2.
    exfalso. apply Hout. split; assumption.
  - eauto.
Qed.

End LicenseStatus.

Lemma unknown_license_key_witness :
  LicenseControl.activate_license [SampleWorlds.perpetual] "LIC-0002"
    = ((false, "الترخيص غير موجود"), [SampleWorlds.perpetual]) /\
  LicenseControl.suspend_license [SampleWorlds.perpetual] "LIC-0002" "unpaid"
    = ((false, "الترخيص غير موجود"), [SampleWorlds.perpetual]) /\
  LicenseControl.deactivate_license [SampleWorlds.perpetual] "LIC-0002"
    = ((false, "الترخيص غير موجود"), [SampleWorlds.perpetual]) /\
  LicenseControl.extend_license SampleWorlds.py SampleWorlds.NOW [SampleWorlds.perpetual]
      "LIC-0002" 30
    = ((false, "الترخيص غير موجود"), [SampleWorlds.perpetual]).
Proof.
  apply (unknown_license_key SampleWorlds.py SampleWorlds.NOW [SampleWorlds.perpetual]
           "LIC-0002" "unpaid" 30).
  reflexivity.
Defined.

Lemma activate_lifts_suspension_witness :
  let out := LicenseControl.activate_license [SampleWorlds.suspended] "LIC-0001" in
  fst out = (true, "تم تفعيل الترخيص بنجاح") /\
  Forall2 (fun old new =>
             if LicenseControl.keyed "LIC-0001" old
             then LicenseControl.is_active new = true /\
                  LicenseControl.is_suspended new = false /\
                  LicenseControl.suspension_reason new = None /\
                  LicenseControl.expires_at new = LicenseControl.expires_at old /\
                  LicenseControl.license_key new = "LIC-0001"
             else new = old)
          [SampleWorlds.suspended] (snd out).
Proof.
  apply (activate_lifts_suspension [SampleWorlds.suspended] "LIC-0001" SampleWorlds.suspended).
  reflexivity.
Defined.

Lemma extend_from_stored_expiry_witness :
  let new_expires :=
    LicenseControl.strftime SampleWorlds.clock
      (SampleWorlds.NOW + 30 * LicenseControl.US_PER_DAY) LicenseControl.FORMAT in
  let out :=
    LicenseControl.extend_license SampleWorlds.clock 0 [SampleWorlds.suspended] "LIC-0001" 30 in
  fst (fst out) = true /\
  find (LicenseControl.keyed "LIC-0001") (snd out)
    = Some (LicenseControl.with_expires_at (Some new_expires) SampleWorlds.suspended) /\
  Forall2 (fun old new =>
             if LicenseControl.keyed "LIC-0001" old
             then new = LicenseControl.with_expires_at (Some new_expires) old
             else new = old)
          [SampleWorlds.suspended] (snd out).
Proof.
  apply (extend_from_stored_expiry SampleWorlds.clock 0 [SampleWorlds.suspended] "LIC-0001"
           SampleWorlds.suspended "2025-12-01 00:00:00" SampleWorlds.NOW 30).
  - reflexivity.
  - reflexivity.
  - discriminate.
  - reflexivity.
  - vm_compute. discriminate.
  - unfold LicenseControl.representable; split; vm_compute; congruence.
Defined.

Lemma extend_out_of_range_witness :
  exists e,
    LicenseControl.extend_license SampleWorlds.py SampleWorlds.NOW [SampleWorlds.perpetual]
      "LIC-0001" 1000000000
    = ((false, "خطأ: " +:+ e), [SampleWorlds.perpetual]).
Proof.
  apply (extend_out_of_range SampleWorlds.py SampleWorlds.NOW [SampleWorlds.perpetual]
           "LIC-0001" SampleWorlds.perpetual 1000000000).
  - reflexivity.
  - left. vm_compute. reflexivity.
Defined.

(** ** The locator and the strategy test, read both ways *)

Section LocatorSharing.

Import TenantManager.

(** X6: two license keys share a PostgreSQL schema exactly when they
    agree up to letter case and up to [-] against [_]; they share a
    SQLite file exactly when they agree up to [-] against [_], letter
    case being kept in file names. *)
Theorem locator_sharing (basedir a b : string) :
  (_schema_name a = _schema_name b <-> equivalent_ids a b) /\
  (get_tenant_db_path basedir a = get_tenant_db_path basedir b
     <-> PyStr.replace "-" "_" a = PyStr.replace "-" "_" b).
Proof.
  unfold equivalent_ids. rewrite !spec_normalize_lower_replace. split; split.
  - unfold _schema_name. intros H. now apply String.app_inj in H.
  - unfold _schema_name. now intros ->.
  - apply get_tenant_db_path_inj.
  - unfold get_tenant_db_path. now intros ->.
Qed.

Lemma prefix_append (p s : string) : String.prefix p (p +:+ s) = true.
Proof.
  induction p as [|c p IH]; [now destruct s|].
  rewrite append_cons. cbn [String.prefix]. now destruct (ascii_dec c c).
Qed.

Lemma prefix_append_l (p s b : string) :
  String.prefix p s = true -> String.prefix p (s +:+ b) = true.
Proof.
  revert s. induction p as [|c p IH]; intros s; [now destruct (s +:+ b)|].
  destruct s as [|d s]; [discriminate|]. rewrite append_cons. cbn [String.prefix].
  destruct (ascii_dec c d); [apply IH | discriminate].
Qed.

Lemma contains_append_l (sub s b : string) :
  PyStr.contains sub s = true -> PyStr.contains sub (s +:+ b) = true.
Proof.
  induction s as [|c s IH].
  - cbn [PyStr.contains]. rewrite orb_false_r. intros H. rewrite append_nil_l.
    destruct sub; [now destruct b | now destruct b].
  - rewrite append_cons. cbn [PyStr.contains]. intros H.
    apply orb_prop in H as [H|H]; apply orb_true_intro.
    + left. now apply (prefix_append_l sub (String c s) b).
    + right. now apply IH.
Qed.

Lemma contains_append_r (sub a s : string) :
  PyStr.contains sub s = true -> PyStr.contains sub (a +:+ s) = true.
Proof.
  intros H. induction a as [|c a IH]; [now rewrite append_nil_l|].
  rewrite append_cons. cbn [PyStr.contains]. rewrite IH. apply orb_true_r.
Qed.

Lemma join_contains (sub a b : string) :
  PyStr.startswith b "/" = false ->
  PyStr.contains sub a = true -> PyStr.contains sub (OsPath.join a b) = true.
Proof.
  intros Hb Ha. unfold OsPath.join. rewrite Hb.
  destruct (String.eqb a "" || OsPath.ends_with_sep a).
  - now apply contains_append_l.
  - now apply contains_append_l.
Qed.

(** X7: the strategy is read off the configured URI by a substring
    test, so a SQLite deployment installed under a directory whose path
    contains [postgres] turns into a PostgreSQL one as soon as the code
    binds to one of its own files: the URI of the master file and the
    URI of every tenant file read as PostgreSQL. *)
Theorem sqlite_path_read_as_postgres (w : world) (license_key : string) :
  _is_postgres w = false ->
  PyStr.contains "postgres" (basedir w) = true ->
  _is_postgres (set_config_uri (get_tenant_db_uri w license_key) w) = true /\
  _is_postgres (set_config_uri ("sqlite:///" +:+ get_master_db_path (basedir w)) w) = true.
Proof.
  intros Hpg Hdir. unfold get_tenant_db_uri. rewrite Hpg.
  unfold _is_postgres. cbn [config_uri set_config_uri].
  split; apply orb_true_intro; right; apply contains_append_r.
  - unfold get_tenant_db_path, get_tenants_dir.
    apply join_contains; [reflexivity|]. now apply join_contains.
  - unfold get_master_db_path. now apply join_contains.
Qed.

End LocatorSharing.

Lemma sqlite_path_read_as_postgres_witness :
  let w := mkWorld "/home/postgres/ded" Sample.check 1000 false None "sqlite:///dev.db"
             ["public"] None None None [] [] ∅ [] in
  TenantManager._is_postgres
    (set_config_uri (TenantManager.get_tenant_db_uri w "LIC-0001") w) = true /\
  TenantManager._is_postgres
    (set_config_uri ("sqlite:///" +:+ TenantManager.get_master_db_path (basedir w)) w) = true.
Proof.
  apply (sqlite_path_read_as_postgres
           (mkWorld "/home/postgres/ded" Sample.check 1000 false None "sqlite:///dev.db"
              ["public"] None None None [] [] ∅ []) "LIC-0001").
  - reflexivity.
  - reflexivity.
Defined.

(** ** The rows the seeding adds *)

Section SeedRows.

Import TenantManager.

Lemma find_app {A} (p : A -> bool) (l l' : list A) :
  find p (l ++ l')%list = match find p l with Some x => Some x | None => find p l' end.
Proof. induction l as [|a l IH]; [reflexivity|]. cbn [app find]. now destruct (p a). Qed.

Lemma has_app {A} (p : A -> bool) (l l' : list A) :
  has p (l ++ l')%list = has p l || has p l'.
Proof. unfold has. rewrite find_app. now destruct (find p l). Qed.

Lemma has_one {A} (p : A -> bool) (a : A) : has p [a] = p a.
Proof. unfold has. cbn [find]. now destruct (p a). Qed.

Lemma has_false_app {A} (p : A -> bool) (l l' : list A) :
  has p (l ++ l')%list = false -> has p l = false /\ has p l' = false.
Proof. rewrite has_app. apply orb_false_elim. Qed.

Lemma has_false_In {A} (p : A -> bool) (l : list A) (a : A) :
  has p l = false -> In a l -> p a = false.
Proof.
  unfold has. destruct (find p l) eqn:E; [discriminate|]. intros _.
  now apply find_none.
Qed.

(** *** Extensions by fresh rows *)

Section Fresh.

Context {A : Type} (key : A -> string).

Lemma appends_fresh_refl (l : list A) : appends_fresh key l l.
Proof.
  exists []. rewrite app_nil_r. repeat split; constructor.
Qed.

Lemma appends_fresh_one (l : list A) (a : A) :
  has (fun y => String.eqb (key y) (key a)) l = false ->
  appends_fresh key l (l ++ [a])%list.
Proof.
  intros H. exists [a]. split; [reflexivity|]. split.
  - cbn [map]. apply NoDup_singleton.
  - now constructor.
Qed.

Lemma appends_fresh_trans (l1 l2 l3 : list A) :
  appends_fresh key l1 l2 -> appends_fresh key l2 l3 -> appends_fresh key l1 l3.
Proof.
  intros (a1 & -> & N1 & F1) (a2 & -> & N2 & F2).
  exists (a1 ++ a2)%list. split; [now rewrite app_assoc|]. split.
  - rewrite map_app. apply NoDup_app. split; [exact N1|]. split; [|exact N2].
    intros k Hk1 Hk2.
    apply list_elem_of_In, in_map_iff in Hk1 as (x & <- & Hx).
    apply list_elem_of_In, in_map_iff in Hk2 as (y & Hxy & Hy).
    rewrite Forall_forall in F2. apply list_elem_of_In in Hy. specialize (F2 y Hy).
    apply has_false_app in F2 as [_ F2].
    apply (has_false_In _ _ x F2) in Hx. cbv beta in Hx.
    rewrite Hxy, String.eqb_refl in Hx. discriminate.
  - apply Forall_app. split; [exact F1|].
    eapply Forall_impl; [exact F2|]. intros y Hy. cbv beta in *.
    now apply has_false_app in Hy.
Qed.

End Fresh.

(** *** Roles *)

Lemma add_role_has (n a d : string) (rs : list Role.t) :
  has (role_named n) (add_role n a d rs) = true.
Proof.
  unfold add_role. destruct (has (role_named n) rs) eqn:E; [exact E|].
  rewrite has_app, has_one. unfold role_named at 2. cbn [Role.name].
  rewrite String.eqb_refl. apply orb_true_r.
Qed.

Lemma add_role_keeps (m n a d : string) (rs : list Role.t) :
  has (role_named m) rs = true -> has (role_named m) (add_role n a d rs) = true.
Proof.
  intros H. unfold add_role. destruct (has (role_named n) rs); [exact H|].
  now rewrite has_app, H.
Qed.

Lemma add_role_present (n a d : string) (rs : list Role.t) :
  has (role_named n) rs = true -> add_role n a d rs = rs.
Proof. intros H. unfold add_role. now rewrite H. Qed.

Lemma add_role_fresh (n a d : string) (rs : list Role.t) :
  appends_fresh Role.name rs (add_role n a d rs).
Proof.
  unfold add_role. destruct (has (role_named n) rs) eqn:E.
  - apply appends_fresh_refl.
  - apply appends_fresh_one. exact E.
Qed.

Lemma seed_roles_roles (t : tables) :
  roles (fst (seed_roles t)) = seeded_roles (roles t).
Proof.
  unfold seed_roles, seeded_roles.
  destruct (find (role_named "admin") (roles t)) eqn:E; cbn [fst roles];
    do 2 f_equal; unfold add_role, has; now rewrite E.
Qed.

Lemma seed_roles_frame (t : tables) :
  branches (fst (seed_roles t)) = branches t /\
  users (fst (seed_roles t)) = users t /\
  accounts (fst (seed_roles t)) = accounts t.
Proof. unfold seed_roles. now destruct (find (role_named "admin") (roles t)). Qed.

Lemma seed_roles_admin (t : tables) :
  find (role_named "admin") (roles (fst (seed_roles t))) = Some (snd (seed_roles t)).
Proof.
  assert (forall n a d rs r, find (role_named "admin") rs = Some r ->
                             find (role_named "admin") (add_role n a d rs) = Some r) as Hkeep.
  { intros n a d rs r H. unfold add_role. destruct (has (role_named n) rs); [exact H|].
    now rewrite find_app, H. }
  unfold seed_roles. destruct (find (role_named "admin") (roles t)) as [r|] eqn:E;
    cbn [fst snd roles]; do 2 apply Hkeep.
  - exact E.
  - rewrite find_app, E. reflexivity.
Qed.

Lemma seeded_roles_has (rs : list Role.t) :
  has (role_named "admin") (seeded_roles rs) = true /\
  has (role_named "manager") (seeded_roles rs) = true /\
  has (role_named "user") (seeded_roles rs) = true.
Proof.
  unfold seeded_roles. repeat split.
  - do 2 apply add_role_keeps. apply add_role_has.
  - apply add_role_keeps. apply add_role_has.
  - apply add_role_has.
Qed.

Lemma seeded_roles_fresh (rs : list Role.t) : appends_fresh Role.name rs (seeded_roles rs).
Proof.
  unfold seeded_roles.
  eapply appends_fresh_trans; [apply add_role_fresh|].
  eapply appends_fresh_trans; apply add_role_fresh.
Qed.

Lemma seeded_roles_present (rs : list Role.t) :
  has (role_named "admin") rs = true -> has (role_named "manager") rs = true ->
  has (role_named "user") rs = true -> seeded_roles rs = rs.
Proof.
  intros H1 H2 H3. unfold seeded_roles.
  rewrite (add_role_present "admin" _ _ rs H1), (add_role_present "manager" _ _ rs H2).
  exact (add_role_present "user" _ _ rs H3).
Qed.

(** *** The default branch *)

Lemma seed_branch_branches (t : tables) :
  branches (fst (seed_branch t)) = seeded_branches (branches t).
Proof.
  unfold seed_branch, seeded_branches, has.
  now destruct (find (branch_coded "MAIN") (branches t)).
Qed.

Lemma seed_branch_frame (t : tables) :
  roles (fst (seed_branch t)) = roles t /\
  users (fst (seed_branch t)) = users t /\
  accounts (fst (seed_branch t)) = accounts t.
Proof. unfold seed_branch. now destruct (find (branch_coded "MAIN") (branches t)). Qed.

Lemma seed_branch_main (t : tables) :
  find (branch_coded "MAIN") (branches (fst (seed_branch t))) = Some (snd (seed_branch t)).
Proof.
  unfold seed_branch. destruct (find (branch_coded "MAIN") (branches t)) as [b|] eqn:E;
    cbn [fst snd branches]; [exact E|].
  rewrite find_app, E. reflexivity.
Qed.

Lemma seeded_branches_has (bs : list Branch.t) :
  has (branch_coded "MAIN") (seeded_branches bs) = true.
Proof.
  unfold seeded_branches. destruct (has (branch_coded "MAIN") bs) eqn:E; [exact E|].
  rewrite has_app, has_one. apply orb_true_r.
Qed.

Lemma seeded_branches_fresh (bs : list Branch.t) :
  appends_fresh Branch.code bs (seeded_branches bs).
Proof.
  unfold seeded_branches. destruct (has (branch_coded "MAIN") bs) eqn:E.
  - apply appends_fresh_refl.
  - apply appends_fresh_one. exact E.
Qed.

(** *** The chart of accounts *)

Lemma add_account_has (acs : list Account.t) (acc : string * string * string * string) :
  has (account_coded acc.1.1.1) (add_account acs acc) = true.
Proof.
  destruct acc as [[[c n] e] ty]. cbn [fst]. unfold add_account.
  destruct (has (account_coded c) acs) eqn:E; [exact E|].
  rewrite has_app, has_one. unfold account_coded at 2. cbn [Account.code].
  rewrite String.eqb_refl. apply orb_true_r.
Qed.

Lemma add_account_keeps (c : string) (acs : list Account.t)
    (acc : string * string * string * string) :
  has (account_coded c) acs = true -> has (account_coded c) (add_account acs acc) = true.
Proof.
  destruct acc as [[[c' n] e] ty]. intros H. unfold add_account.
  destruct (has (account_coded c') acs); [exact H|]. now rewrite has_app, H.
Qed.

Lemma add_account_fresh (acs : list Account.t) (acc : string * string * string * string) :
  appends_fresh Account.code acs (add_account acs acc).
Proof.
  destruct acc as [[[c n] e] ty]. unfold add_account.
  destruct (has (account_coded c) acs) eqn:E.
  - apply appends_fresh_refl.
  - apply appends_fresh_one. exact E.
Qed.

Lemma add_accounts_keep (c : string) (chart : list (string * string * string * string))
    (acs : list Account.t) :
  has (account_coded c) acs = true ->
  has (account_coded c) (fold_left add_account chart acs) = true.
Proof.
  revert acs. induction chart as [|acc chart IH]; intros acs H; [exact H|].
  cbn [fold_left]. apply IH. now apply add_account_keeps.
Qed.

Lemma add_accounts_have (chart : list (string * string * string * string))
    (acs : list Account.t) :
  Forall (fun acc : string * string * string * string =>
            has (account_coded acc.1.1.1) (fold_left add_account chart acs) = true) chart.
Proof.
  revert acs. induction chart as [|acc chart IH]; intros acs; constructor.
  - cbn [fold_left]. apply add_accounts_keep. apply add_account_has.
  - cbn [fold_left]. apply IH.
Qed.

Lemma add_accounts_fresh (chart : list (string * string * string * string))
    (acs : list Account.t) :
  appends_fresh Account.code acs (fold_left add_account chart acs).
Proof.
  revert acs. induction chart as [|acc chart IH]; intros acs.
  - apply appends_fresh_refl.
  - cbn [fold_left]. eapply appends_fresh_trans; [apply add_account_fresh | apply IH].
Qed.

Lemma add_accounts_present (chart : list (string * string * string * string))
    (acs : list Account.t) :
  Forall (fun acc : string * string * string * string =>
            has (account_coded acc.1.1.1) acs = true) chart ->
  fold_left add_account chart acs = acs.
Proof.
  induction 1 as [|acc chart H _ IH]; [reflexivity|].
  cbn [fold_left]. destruct acc as [[[c n] e] ty]. unfold add_account at 2.
  cbn [fst] in H. now rewrite H.
Qed.

(** *** The admin user *)

Lemma truthy_some (s : string) : PyStr.truthy (Some s) = true <-> s <> "".
Proof.
  unfold PyStr.truthy. destruct (String.eqb_spec s ""); cbn [negb]; split; congruence.
Qed.

Lemma seed_admin_user_frame (lic : License.t) (a : Role.t) (b : Branch.t) (t : tables) :
  roles (fst (seed_admin_user lic a b t)) = roles t /\
  branches (fst (seed_admin_user lic a b t)) = branches t /\
  accounts (fst (seed_admin_user lic a b t)) = accounts t.
Proof.
  unfold seed_admin_user.
  destruct (License.admin_username lic), (License.admin_password_hash lic); try easy.
  destruct (PyStr.truthy _ && PyStr.truthy _); [|easy].
  now destruct (negb _ && negb _).
Qed.

(** The users after the admin step: as before, or with one user more,
    the admin of the license. *)
Lemma seed_admin_user_users (lic : License.t) (a : Role.t) (b : Branch.t) (t : tables) :
  users (fst (seed_admin_user lic a b t)) = users t \/
  exists u h,
    License.admin_username lic = Some u /\ License.admin_password_hash lic = Some h /\
    u <> "" /\ h <> "" /\
    has (user_named u) (users t) = false /\
    has (user_mailed (admin_email lic u)) (users t) = false /\
    users (fst (seed_admin_user lic a b t)) =
      (users t ++ [User.mk (Sql.next_id User.id (users t)) u (admin_email lic u)
                     (License.client_name lic) (License.client_phone lic)
                     true true (Role.id a) (Branch.id b) h None])%list.
Proof.
  unfold seed_admin_user.
  destruct (License.admin_username lic) as [u|]; [|now left].
  destruct (License.admin_password_hash lic) as [h|]; [|now left].
  destruct (PyStr.truthy (Some u) && PyStr.truthy (Some h)) eqn:E; [|now left].
  destruct (negb (has (user_named u) (users t))
            && negb (has (user_mailed (admin_email lic u)) (users t))) eqn:E'; [|now left].
  right. exists u, h. apply andb_prop in E as [E1 E2]. apply andb_prop in E' as [E3 E4].
  apply truthy_some in E1, E2. apply negb_true_iff in E3, E4. now repeat split.
Qed.

Lemma seed_admin_user_has (lic : License.t) (a : Role.t) (b : Branch.t) (t : tables)
    (u h : string) :
  License.admin_username lic = Some u -> License.admin_password_hash lic = Some h ->
  u <> "" -> h <> "" ->
  has (user_named u) (users (fst (seed_admin_user lic a b t)))
  || has (user_mailed (admin_email lic u)) (users (fst (seed_admin_user lic a b t))) = true.
Proof.
  intros Hu Hh Hu' Hh'. unfold seed_admin_user. rewrite Hu, Hh.
  apply truthy_some in Hu', Hh'. rewrite Hu', Hh'. cbn [andb].
  destruct (has (user_named u) (users t)) eqn:E1; cbn [negb andb fst].
  - now rewrite E1.
  - destruct (has (user_mailed (admin_email lic u)) (users t)) eqn:E2; cbn [negb andb fst].
    + rewrite E2. apply orb_true_r.
    + cbn [users]. rewrite has_app, has_one. unfold user_named at 2. cbn [User.username].
      rewrite String.eqb_refl, orb_true_r. reflexivity.
Qed.

Lemma seed_admin_user_present (lic : License.t) (a : Role.t) (b : Branch.t) (t : tables) :
  (forall u h,
     License.admin_username lic = Some u -> License.admin_password_hash lic = Some h ->
     u <> "" -> h <> "" ->
     has (user_named u) (users t) || has (user_mailed (admin_email lic u)) (users t) = true) ->
  seed_admin_user lic a b t = (t, tt).
Proof.
  intros H. unfold seed_admin_user.
  destruct (License.admin_username lic) as [u|]; [|reflexivity].
  destruct (License.admin_password_hash lic) as [h|]; [|reflexivity].
  destruct (PyStr.truthy (Some u) && PyStr.truthy (Some h)) eqn:E; [|reflexivity].
  apply andb_prop in E as [E1 E2]. apply truthy_some in E1, E2.
  specialize (H u h eq_refl eq_refl E1 E2).
  destruct (has (user_named u) (users t)); [reflexivity|].
  cbn [orb] in H. now rewrite H.
Qed.

(** *** All four steps *)

Lemma seed_tables_rows (lic : License.t) (t : tables) :
  let t1 := fst (seed_roles t) in
  let t2 := fst (seed_branch t1) in
  roles (seed_tables lic t) = seeded_roles (roles t) /\
  branches (seed_tables lic t) = seeded_branches (branches t) /\
  users (seed_tables lic t)
    = users (fst (seed_admin_user lic (snd (seed_roles t)) (snd (seed_branch t1)) t2)) /\
  users t2 = users t /\
  accounts (seed_tables lic t) = fold_left add_account CHART_OF_ACCOUNTS (accounts t).
Proof.
  cbv zeta. rewrite seed_tables_eq. unfold seed_accounts. cbn [fst roles branches users accounts].
  destruct (seed_admin_user_frame lic (snd (seed_roles t))
              (snd (seed_branch (fst (seed_roles t)))) (fst (seed_branch (fst (seed_roles t)))))
    as (F1 & F2 & F3).
  destruct (seed_branch_frame (fst (seed_roles t))) as (G1 & G2 & G3).
  destruct (seed_roles_frame t) as (H1 & H2 & H3).
  rewrite F1, F2, F3, G1, G2, G3, seed_branch_branches, seed_roles_roles, H1, H2, H3.
  now repeat split.
Qed.

Lemma seed_tables_fully_seeded (lic : License.t) (t : tables) :
  fully_seeded lic (seed_tables lic t).
Proof.
  destruct (seed_tables_rows lic t) as (Hr & Hb & Hu & _ & Ha). unfold fully_seeded.
  rewrite Hr, Hb, Hu, Ha.
  destruct (seeded_roles_has (roles t)) as (R1 & R2 & R3).
  repeat split; try assumption.
  - apply seeded_branches_has.
  - intros u h. apply seed_admin_user_has.
  - apply add_accounts_have.
Qed.

Lemma seed_tables_fixpoint (lic : License.t) (t : tables) :
  fully_seeded lic t -> seed_tables lic t = t.
Proof.
  intros (R1 & R2 & R3 & B & U & A). unfold seed_tables.
  assert (seed_roles t = (t, snd (seed_roles t))) as ->.
  { rewrite (surjective_pairing (seed_roles t)) at 1. f_equal.
    destruct (seed_roles_frame t) as (F1 & F2 & F3).
    pose proof (seed_roles_roles t) as Fr. rewrite (seeded_roles_present _ R1 R2 R3) in Fr.
    destruct (fst (seed_roles t)), t. cbn in *. congruence. }
  assert (seed_branch t = (t, snd (seed_branch t))) as ->.
  { rewrite (surjective_pairing (seed_branch t)) at 1. f_equal.
    destruct (seed_branch_frame t) as (F1 & F2 & F3).
    pose proof (seed_branch_branches t) as Fb. unfold seeded_branches in Fb. rewrite B in Fb.
    destruct (fst (seed_branch t)), t. cbn in *. congruence. }
  rewrite (seed_admin_user_present lic _ _ t U).
  unfold seed_accounts. cbn [fst]. rewrite (add_accounts_present _ _ A). now destruct t.
Qed.

(** X8: seeding is idempotent on the rows: seeding what seeding left
    changes nothing, whatever rows the store held before (a store that
    was seeded in part converges after one run). *)
Theorem seeding_idempotent (lic : License.t) (t : tables) :
  seed_tables lic (seed_tables lic t) = seed_tables lic t.
Proof. apply seed_tables_fixpoint, seed_tables_fully_seeded. Qed.

(** X9: seeding is additive: in each of the four tables the rows that
    were there stay as they are, in place, and every row that is added
    carries a natural key (role name, branch code, user name, account
    code) that no row carried before and that no other added row
    carries; at most one user is added. *)
Theorem seeding_additive (lic : License.t) (t : tables) :
  appends_fresh Role.name (roles t) (roles (seed_tables lic t)) /\
  appends_fresh Branch.code (branches t) (branches (seed_tables lic t)) /\
  appends_fresh User.username (users t) (users (seed_tables lic t)) /\
  appends_fresh Account.code (accounts t) (accounts (seed_tables lic t)) /\
  (length (users (seed_tables lic t)) <= S (length (users t)))%nat.
Proof.
  destruct (seed_tables_rows lic t) as (Hr & Hb & Hu & Hu2 & Ha).
  rewrite Hr, Hb, Hu, Ha.
  split; [apply seeded_roles_fresh|]. split; [apply seeded_branches_fresh|].
  destruct (seed_admin_user_users lic (snd (seed_roles t))
              (snd (seed_branch (fst (seed_roles t)))) (fst (seed_branch (fst (seed_roles t)))))
    as [E|(u & h & _ & _ & _ & _ & Hn & _ & E)]; rewrite E, Hu2 in *.
  - split; [apply appends_fresh_refl|]. split; [apply add_accounts_fresh | lia].
  - split; [apply appends_fresh_one; exact Hn|]. split; [apply add_accounts_fresh|].
    rewrite length_app. cbn [length]. lia.
Qed.

(** X10: the admin user that seeding adds is the admin of the license:
    it carries the license's admin name and password hash, is active
    and an administrator, and refers to the role named [admin] and to
    the branch coded [MAIN] that the seeded store holds.  No user is
    added when the name or the e-mail address is already taken. *)
Theorem seeded_admin_user (lic : License.t) (t : tables) :
  let t' := seed_tables lic t in
  users t' = users t \/
  exists admin_user role branch,
    users t' = (users t ++ [admin_user])%list /\
    License.admin_username lic = Some (User.username admin_user) /\
    License.admin_password_hash lic = Some (User.password_hash admin_user) /\
    User.is_active admin_user = true /\ User.is_admin admin_user = true /\
    find (role_named "admin") (roles t') = Some role /\
    User.role_id admin_user = Role.id role /\
    find (branch_coded "MAIN") (branches t') = Some branch /\
    User.branch_id admin_user = Branch.id branch /\
    has (user_named (User.username admin_user)) (users t) = false /\
    has (user_mailed (User.email admin_user)) (users t) = false.
Proof.
  cbv zeta. destruct (seed_tables_rows lic t) as (Hr & Hb & Hu & Hu2 & Ha).
  rewrite Hr, Hb, Hu.
  destruct (seed_admin_user_users lic (snd (seed_roles t))
              (snd (seed_branch (fst (seed_roles t)))) (fst (seed_branch (fst (seed_roles t)))))
    as [E|(u & h & Eu & Eh & _ & _ & Hn & Hm & E)]; rewrite E, Hu2 in *; [now left|].
  right. eexists _, (snd (seed_roles t)), (snd (seed_branch (fst (seed_roles t)))).
  split; [reflexivity|]. cbn [User.username User.password_hash User.is_active User.is_admin
                              User.role_id User.branch_id User.email].
  repeat split; try assumption.
  - rewrite <- seed_roles_roles. apply seed_roles_admin.
  - destruct (seed_roles_frame t) as (F & _). rewrite <- F, <- seed_branch_branches.
    apply seed_branch_main.
Qed.

End SeedRows.

(** ** The provisioner at its boundary *)

Section ProvisionerBoundary.

Import TenantManager.

Lemma try_except_returns {A B} (m : M A) (h : exn -> M B) (k : A -> M B) (w : world) :
  (forall e w', exists b, result_of (h e) w' = Ret b) ->
  (forall a w', exists b, result_of (k a) w' = Ret b) ->
  exists b, result_of (try_except m h k) w = Ret b.
Proof.
  intros Hh Hk. unfold result_of, try_except in *.
  destruct (m w) as [[a|e] w']; [apply Hk | apply Hh].
Qed.

Lemma ret_returns {A} (a : A) (w : world) : exists b, result_of (ret a) w = Ret b.
Proof. now exists a. Qed.

(** X11: the operations of [TenantManager] never raise: whatever the
    deployment, the stores, the request context and the storage failure
    under way, creating, seeding, deleting, switching and listing
    return a value. *)
Theorem tenant_manager_never_raises (w : world) (license_key : string) (lic : License.t) :
  (exists b, result_of (create_tenant_database license_key) w = Ret b) /\
  (exists b, result_of (initialize_tenant_data license_key lic) w = Ret b) /\
  (exists b, result_of (delete_tenant_database license_key) w = Ret b) /\
  (exists b, result_of (switch_tenant_database license_key) w = Ret b) /\
  (exists l, result_of list_all_tenants w = Ret l).
Proof.
  split; [|split; [|split; [|split]]].
  - unfold create_tenant_database, result_of. rewrite bind_log.
    apply try_except_returns; intros; apply ret_returns.
  - apply initialize_never_raises.
  - apply try_except_returns; intros; apply ret_returns.
  - apply try_except_returns; intros; apply ret_returns.
  - apply try_except_returns; intros; apply ret_returns.
Qed.

Lemma seed_open_refused (k : string) (w w1 : world) (s : sess) :
  storage_fault w = Some AtSeedOpen -> seed_open k w = (Ret s, w1) -> False.
Proof.
  intros Hf. unfold seed_open. rewrite bind_gets. destruct (_is_postgres w).
  - erewrite bind_raise_eq; [discriminate|].
    apply with_app_context_run. apply bind_raise_eq, storage_op_raises. exact Hf.
  - rewrite bind_gets. erewrite bind_raise_eq; [discriminate|].
    apply storage_op_raises. exact Hf.
Qed.

Lemma rolled_back_from_none (created : option string) (S0 S : gmap string tenant_db) :
  rolled_back S0 S -> rolled_back_from created S0 S.
Proof.
  intros H tg. specialize (H tg). unfold rolled_back_db in H.
  destruct (S0 !! tg) as [db|]; [exact H|].
  destruct (S !! tg); [contradiction | now left].
Qed.

Lemma rolled_back_from_file (S0 S : gmap string tenant_db) (tg : string) :
  S0 !! tg = None -> rolled_back (<[tg := mkDb None None]> S0) S ->
  rolled_back_from (Some tg) S0 S.
Proof.
  intros Hn H tg'. specialize (H tg'). unfold rolled_back_db in H.
  destruct (decide (tg = tg')) as [<-|Hne].
  - rewrite lookup_insert_eq in H. rewrite Hn.
    destruct (S !! tg) as [[c x]|]; [|contradiction]. cbn in H.
    destruct H as [-> [-> | ->]]; now right.
  - rewrite lookup_insert_ne in H by exact Hne.
    destruct (S0 !! tg') as [db|]; [exact H|].
    destruct (S !! tg'); [contradiction | now left].
Qed.

(** X12: a storage failure at any step of the seeding, from the opening
    of the session to the statements after the commit, makes
    [initialize_tenant_data] return [False]; when the failure comes no
    later than the commit, the stores are rolled back: every target
    that existed keeps its committed tables and no transaction is left
    open on it that was not open before, and a target that did not
    exist is still absent, but for the SQLite file of the seeding
    session, which connecting may have created, empty; nothing is
    created when the failure comes before the session is opened, nor on
    a PostgreSQL server. *)
Theorem seeding_failure_contained (p : fault_point) (w : world) (license_key : string)
    (lic : License.t) :
  is_seed_point p = true -> storage_fault w = Some p ->
  let run := initialize_tenant_data license_key lic in
  result_of run w = Ret false /\
  (before_commit p = true ->
   rolled_back_from (seed_connects w license_key p) (stores w) (stores (state_after run w))).
Proof.
  intros Hp Hw. cbv zeta. split.
  - now apply (initialize_fails_under_fault p).
  - intros Hb.
    destruct (initialize_rolls_back p w license_key lic Hb Hw)
      as (S1 & Hrb & [-> | (s & w1 & Ho & ->)]).
    + now apply rolled_back_from_none.
    + pose proof (seed_open_session _ _ _ _ Ho) as Hs.
      destruct (seed_open_frame _ _ _ _ Ho) as (Hst & Hf1 & Hc & Hbd).
      cbn [stores set_trace config_uri basedir storage_fault] in Hst, Hc, Hbd.
      change (_is_postgres (set_trace (trace w ++ [InitializeTenantData license_key])%list w))
        with (_is_postgres w) in Hs.
      cbn [basedir set_trace] in Hs.
      assert (p <> AtSeedOpen) as Hne.
      { intros ->. refine (seed_open_refused _ _ _ _ _ Ho). exact Hw. }
      rewrite stores_connect, Hst in Hrb.
      destruct (Sql.target_of s w1) as [tg|] eqn:Htg; [|now apply rolled_back_from_none].
      destruct (stores w !! tg) eqn:Hn; [now apply rolled_back_from_none|].
      destruct (Sql.on_file s w1) eqn:Hfile; [|now apply rolled_back_from_none].
      assert (seed_connects w license_key p = Some tg) as ->;
        [|now apply rolled_back_from_file].
      unfold seed_connects. rewrite decide_False by exact Hne.
      destruct (_is_postgres w); subst s.
      * unfold Sql.target_of, Sql.active_target in Htg. unfold Sql.on_file in Hfile.
        rewrite Hc in Htg, Hfile.
        destruct (PyStr.strip_prefix Sql.SQLITE_PREFIX (config_uri w));
          [exact Htg | discriminate].
      * exact Htg.
Qed.

(** X13: creating the store of a tenant that has one keeps its rows:
    with committed tables [t] and no open transaction on the target,
    [create_tenant_database] returns [True] and the target still holds
    exactly [t]; no target other than the tenant's and [public] is
    touched. *)
Theorem create_keeps_rows (w : world) (license_key : string) (t : tables) :
  coherent_deployment w -> no_create_fault w ->
  stores w !! target_for w license_key = Some (mkDb (Some t) None) ->
  exists w',
    create_tenant_database license_key w = (Ret true, w') /\
    stores w' !! target_for w license_key = Some (mkDb (Some t) None) /\
    forall key, key <> target_for w license_key -> key <> "public" ->
                stores w' !! key = stores w !! key.
Proof.
  intros [[Hpg Hs]|[Hpg _]] Hf; unfold target_for; rewrite Hpg; intros Ht.
  - destruct (create_postgres w license_key (conj Hpg Hs) Hf) as (w' & Hr & Hst & _).
    exists w'. split; [exact Hr|]. split.
    + rewrite Hst, Ht. unfold create_effect. now rewrite decide_True by reflexivity.
    + intros key H1 H2. rewrite Hst. unfold create_effect.
      now rewrite !decide_False by assumption.
  - destruct (create_sqlite w license_key Hpg Hf) as (w' & Hr & Hst & _).
    exists w'. split; [exact Hr|]. split.
    + rewrite Hst, Ht. unfold create_effect. now rewrite decide_True by reflexivity.
    + intros key H1 H2. rewrite Hst. unfold create_effect.
      now rewrite decide_False by assumption.
Qed.

(** X14: under PostgreSQL, when [db.create_all()] fails for a tenant
    that had no schema, [create_tenant_database] returns [False] but the
    schema stays created, committed and without tables, and the search
    path of [db.session] stays on the tenant schema: the handler undoes
    nothing. *)
Theorem create_failure_leaves_schema (w : world) (license_key : string) :
  postgres_deployment w -> storage_fault w = Some AtCreateTables ->
  stores w !! _schema_name license_key = None ->
  exists w',
    create_tenant_database license_key w = (Ret false, w') /\
    stores w' !! _schema_name license_key = Some (mkDb None None) /\
    search_path w' = [_schema_name license_key; "public"].
Proof.
  intros [Hpg Hs] Hf Hnone. unfold create_tenant_database.
  rewrite bind_log. unfold try_except.
  rewrite bind_gets.
  assert (_is_postgres (set_trace (trace w ++ [CreateTenantDatabase license_key])%list w) = true)
    as -> by exact Hpg.
  erewrite bind_raise_eq.
  2: { apply with_app_context_run.
       rewrite bind_storage_op_ok by (cbn; rewrite Hf; discriminate).
       unfold Sql.create_target. rewrite !bind_modify.
       rewrite (bind_commit_shared _ _ (_schema_name license_key))
         by (try exact Hs; reflexivity).
       apply bind_raise_eq, storage_op_raises. exact Hf. }
  eexists. split; [reflexivity|].
  rewrite settle_stores, settle_shared by exact Hs.
  cbn [stores search_path committed_search_path set_trace Sql.on_stores set_stores
       set_search_path set_committed_search_path].
  split; [|reflexivity].
  rewrite lookup_alter, decide_True by reflexivity.
  rewrite lookup_partial_alter_eq, Hnone. reflexivity.
Qed.

End ProvisionerBoundary.

Lemma seeding_failure_contained_witness :
  let w := Sample.deployment Sample.SQLITE_URI (Some AtSeedBranch) None [Sample.license] ∅ in
  let run := TenantManager.initialize_tenant_data "LIC-0001" Sample.license in
  result_of run w = Ret false /\
  (before_commit AtSeedBranch = true ->
   rolled_back_from (seed_connects w "LIC-0001" AtSeedBranch) (stores w)
     (stores (state_after run w))).
Proof.
  apply (seeding_failure_contained AtSeedBranch
           (Sample.deployment Sample.SQLITE_URI (Some AtSeedBranch) None [Sample.license] ∅)
           "LIC-0001" Sample.license).
  - reflexivity.
  - reflexivity.
Defined.

Lemma create_keeps_rows_witness :
  exists w',
    TenantManager.create_tenant_database "LIC-0001" (SampleWorlds.postgres None) = (Ret true, w') /\
    stores w' !! target_for (SampleWorlds.postgres None) "LIC-0001"
      = Some (mkDb (Some Sample.seeded) None) /\
    forall key, key <> target_for (SampleWorlds.postgres None) "LIC-0001" -> key <> "public" ->
                stores w' !! key = stores (SampleWorlds.postgres None) !! key.
Proof.
  apply (create_keeps_rows (SampleWorlds.postgres None) "LIC-0001" Sample.seeded).
  - left. split; reflexivity.
  - split; discriminate.
  - reflexivity.
Defined.

Lemma create_failure_leaves_schema_witness :
  exists w',
    TenantManager.create_tenant_database "LIC-0001"
      (Sample.deployment Sample.POSTGRES_URI (Some AtCreateTables) None [Sample.license] ∅)
      = (Ret false, w') /\
    stores w' !! TenantManager._schema_name "LIC-0001" = Some (mkDb None None) /\
    search_path w' = [TenantManager._schema_name "LIC-0001"; "public"].
Proof.
  apply (create_failure_leaves_schema
           (Sample.deployment Sample.POSTGRES_URI (Some AtCreateTables) None [Sample.license] ∅)
           "LIC-0001").
  - split; reflexivity.
  - reflexivity.
  - reflexivity.
Defined.

(** ** Seeding runs *)

Section SeedingRuns.

Import TenantManager.

Variables (license_key : string) (lic : License.t).

Lemma seeded_db_seeded (t : tables) : seeded_db lic (seed_tables lic t) = seeded_db lic t.
Proof.
  unfold seeded_db. now rewrite seed_tables_fixpoint by apply seed_tables_fully_seeded.
Qed.

Lemma run_eq {A} (m : M A) (w w' : world) (r : outcome A) :
  m w = (r, w') -> result_of m w = r /\ state_after m w = w'.
Proof. unfold result_of, state_after. now intros ->. Qed.

Lemma no_fault_no_create_fault (w : world) : storage_fault w = None -> no_create_fault w.
Proof. intros H. split; rewrite H; discriminate. Qed.

(** X15: under SQLite, seeding a store a second time changes nothing:
    on a tenant file that exists with tables, [initialize_tenant_data]
    returns [True] and leaves the file with the seeded rows, committed;
    a second run returns [True] again and leaves every storage target
    as the first run left it. *)
Theorem seeding_twice (w : world) (t : tables) :
  _is_postgres w = false -> storage_fault w = None ->
  Sql.view_at w (get_tenant_db_path (basedir w) license_key) = Some t ->
  let run := initialize_tenant_data license_key lic in
  let w1 := state_after run w in
  result_of run w = Ret true /\
  stores w1 !! get_tenant_db_path (basedir w) license_key
    = Some (mkDb (Some (seed_tables lic t)) None) /\
  result_of run w1 = Ret true /\
  stores (state_after run w1) = stores w1.
Proof.
  intros Hpg Hf Hv. cbv zeta.
  destruct (initialize_sqlite license_key lic w t Hpg Hf Hv)
    as (w1 & E1 & S1 & C1 & B1 & F1 & _).
  apply run_eq in E1 as [-> ->].
  assert (Sql.view_at w1 (get_tenant_db_path (basedir w1) license_key)
          = Some (seed_tables lic t)) as Hv1.
  { unfold Sql.view_at. rewrite B1, S1, decide_True by reflexivity. reflexivity. }
  assert (_is_postgres w1 = false) as Hpg1 by now rewrite (is_postgres_config w1 w C1).
  destruct (initialize_sqlite license_key lic w1 _ Hpg1 (eq_trans F1 Hf) Hv1)
    as (w2 & E2 & S2 & _).
  apply run_eq in E2 as [-> ->].
  split; [reflexivity|]. split; [now rewrite S1, decide_True by reflexivity|].
  split; [reflexivity|].
  apply map_eq. intros key. rewrite S2, B1.
  destruct (decide (key = get_tenant_db_path (basedir w) license_key)) as [->|Hk];
    [|reflexivity].
  rewrite S1, decide_True by reflexivity. now rewrite seeded_db_seeded.
Qed.

Lemma fresh_rows :
  map Role.name (roles (seed_tables lic empty_tables)) = ["admin"; "manager"; "user"] /\
  map Branch.code (branches (seed_tables lic empty_tables)) = ["MAIN"] /\
  map Account.code (accounts (seed_tables lic empty_tables))
    = ["1000"; "2000"; "3000"; "4000"; "5000"] /\
  (length (users (seed_tables lic empty_tables)) <= 1)%nat.
Proof.
  destruct (seed_tables_rows lic empty_tables) as (Hr & Hb & Hu & Hu2 & Ha).
  rewrite Hr, Hb, Hu, Ha. repeat split; try reflexivity.
  destruct (seed_admin_user_users lic (snd (seed_roles empty_tables))
              (snd (seed_branch (fst (seed_roles empty_tables))))
              (fst (seed_branch (fst (seed_roles empty_tables)))))
    as [E|(u & h & _ & _ & _ & _ & _ & _ & E)]; rewrite E, Hu2; cbn; lia.
Qed.

(** X16: a first provisioning under SQLite: for a tenant without a
    file, and without storage failure, [create_tenant_database] and
    then [initialize_tenant_data] both return [True] and leave the
    tenant's file committed with the three roles [admin], [manager] and
    [user], the one branch [MAIN], the five accounts [1000] to [5000]
    and at most one user; the files of other tenants are not touched. *)
Theorem fresh_tenant_provisioned (w : world) :
  _is_postgres w = false -> storage_fault w = None ->
  stores w !! get_tenant_db_path (basedir w) license_key = None ->
  exists w1 w2 t,
    create_tenant_database license_key w = (Ret true, w1) /\
    initialize_tenant_data license_key lic w1 = (Ret true, w2) /\
    stores w2 !! get_tenant_db_path (basedir w) license_key = Some (mkDb (Some t) None) /\
    map Role.name (roles t) = ["admin"; "manager"; "user"] /\
    map Branch.code (branches t) = ["MAIN"] /\
    map Account.code (accounts t) = ["1000"; "2000"; "3000"; "4000"; "5000"] /\
    (length (users t) <= 1)%nat /\
    forall key, key <> get_tenant_db_path (basedir w) license_key ->
                stores w2 !! key = stores w !! key.
Proof.
  intros Hpg Hf Hnone.
  destruct (create_sqlite w license_key Hpg (no_fault_no_create_fault w Hf))
    as (w1 & E1 & S1 & C1 & B1 & F1 & _).
  assert (Sql.view_at w1 (get_tenant_db_path (basedir w1) license_key) = Some empty_tables)
    as Hv1.
  { unfold Sql.view_at. rewrite B1, S1, Hnone. unfold create_effect.
    now rewrite decide_True by reflexivity. }
  assert (_is_postgres w1 = false) as Hpg1 by now rewrite (is_postgres_config w1 w C1).
  destruct (initialize_sqlite license_key lic w1 _ Hpg1 (eq_trans F1 Hf) Hv1)
    as (w2 & E2 & S2 & _).
  exists w1, w2, (seed_tables lic empty_tables).
  split; [exact E1|]. split; [exact E2|].
  split; [now rewrite S2, B1, decide_True by reflexivity|].
  destruct fresh_rows as (R1 & R2 & R3 & R4). repeat split; try assumption.
  intros key H1. rewrite S2, B1, decide_False by exact H1.
  rewrite S1. unfold create_effect. now rewrite decide_False by assumption.
Qed.


End SeedingRuns.

Lemma seeding_twice_witness :
  let w := SampleWorlds.sqlite None in
  let run := TenantManager.initialize_tenant_data "LIC-0001" Sample.license in
  let w1 := state_after run w in
  result_of run w = Ret true /\
  stores w1 !! TenantManager.get_tenant_db_path (basedir w) "LIC-0001"
    = Some (mkDb (Some (TenantManager.seed_tables Sample.license Sample.seeded)) None) /\
  result_of run w1 = Ret true /\
  stores (state_after run w1) = stores w1.
Proof.
  apply (seeding_twice "LIC-0001" Sample.license (SampleWorlds.sqlite None) Sample.seeded).
  - reflexivity.
  - reflexivity.
  - reflexivity.
Defined.

Lemma fresh_tenant_provisioned_witness :
  let w := Sample.deployment Sample.SQLITE_URI None None [Sample.license] ∅ in
  exists w1 w2 t,
    TenantManager.create_tenant_database "LIC-0001" w = (Ret true, w1) /\
    TenantManager.initialize_tenant_data "LIC-0001" Sample.license w1 = (Ret true, w2) /\
    stores w2 !! TenantManager.get_tenant_db_path (basedir w) "LIC-0001"
      = Some (mkDb (Some t) None) /\
    map Role.name (roles t) = ["admin"; "manager"; "user"] /\
    map Branch.code (branches t) = ["MAIN"] /\
    map Account.code (accounts t) = ["1000"; "2000"; "3000"; "4000"; "5000"] /\
    (length (users t) <= 1)%nat /\
    forall key, key <> TenantManager.get_tenant_db_path (basedir w) "LIC-0001" ->
                stores w2 !! key = stores w !! key.
Proof.
  apply (fresh_tenant_provisioned "LIC-0001" Sample.license
           (Sample.deployment Sample.SQLITE_URI None None [Sample.license] ∅)).
  - reflexivity.
  - reflexivity.
  - reflexivity.
Defined.


(** ** Deleting a store and switching to one *)

Section DeleteAndSwitch.

Import TenantManager.

Variables (w : world) (license_key : string).

Lemma view_commit_db (o : option tenant_db) : Sql.view <$> (Sql.commit_db <$> o) = Sql.view <$> o.
Proof. destruct o as [[c [x|]]|]; reflexivity. Qed.

(** X17: [delete_tenant_database] removes the tenant's target and
    nothing else: afterwards the target is gone, and what a session
    sees of every other target is what it saw before.  Under PostgreSQL
    the result is [True] whether or not the schema existed; under
    SQLite it is [True] exactly when the file existed. *)
Theorem delete_removes_store :
  let run := delete_tenant_database license_key in
  let w' := state_after run w in
  stores w' !! target_for w license_key = None /\
  (forall key, key <> target_for w license_key ->
               Sql.view <$> (stores w' !! key) = Sql.view <$> (stores w !! key)) /\
  result_of run w =
    Ret (if _is_postgres w then true
         else match stores w !! target_for w license_key with
              | Some _ => true
              | None => false
              end) /\
  config_uri w' = config_uri w /\ search_path w' = search_path w.
Proof.
  cbv zeta. unfold target_for, state_after, result_of, delete_tenant_database, try_except.
  rewrite bind_gets. destruct (_is_postgres w) eqn:Hpg.
  - unfold Sql.drop_target. rewrite bind_modify. unfold bind, Sql.commit, Sql.target_of.
    change (Sql.active_target (Sql.on_stores (delete (_schema_name license_key)) w))
      with (Sql.active_target w).
    destruct (Sql.active_target w) as [tg|]; cbn;
      rewrite !settle_stores, settle_config, settle_commit_search_path; cbn.
    + repeat split.
      * rewrite lookup_alter. case_decide; [subst|]; now rewrite lookup_delete_eq.
      * intros key Hk. rewrite lookup_alter. case_decide.
        -- subst. rewrite lookup_delete_ne by congruence. apply view_commit_db.
        -- now rewrite lookup_delete_ne by congruence.
    + repeat split.
      * now rewrite lookup_delete_eq.
      * intros key Hk. now rewrite lookup_delete_ne by congruence.
  - rewrite bind_gets. unfold Sql.target_exists. rewrite bind_gets.
    destruct (stores w !! get_tenant_db_path (basedir w) license_key) eqn:E; cbn.
    + repeat split.
      * now rewrite lookup_delete_eq.
      * intros key Hk. now rewrite lookup_delete_ne by congruence.
    + now repeat split.
Qed.

Lemma set_current_tenant_eq (w0 : world) :
  set_current_tenant license_key w0 =
    match session w0 with
    | None => (Raise (RuntimeError Flask.NO_REQUEST_CONTEXT),
               set_g (g_license_data w0) (Some license_key) w0)
    | Some s => (Ret tt,
                 set_session (Some (<["tenant_license_key" := license_key]> s))
                   (set_g (g_license_data w0) (Some license_key) w0))
    end.
Proof.
  unfold set_current_tenant. rewrite bind_modify. unfold Flask.session_set.
  cbn [session set_g]. reflexivity.
Qed.

Lemma switch_unfold_postgres :
  _is_postgres w = true ->
  switch_tenant_database license_key w =
    try_except (set_current_tenant license_key ;;; ret true) (fun _ => ret false) ret
      (set_search_path [_schema_name license_key; "public"] w).
Proof.
  intros Hpg. unfold switch_tenant_database, try_except. rewrite bind_gets, Hpg.
  unfold switch_schema. now rewrite bind_modify.
Qed.

Lemma switch_unfold_sqlite (db : tenant_db) :
  _is_postgres w = false ->
  stores w !! get_tenant_db_path (basedir w) license_key = Some db ->
  switch_tenant_database license_key w =
    try_except (set_current_tenant license_key ;;; ret true) (fun _ => ret false) ret
      (set_config_uri (tenant_uri w license_key) w).
Proof.
  intros Hpg Hdb. unfold switch_tenant_database, try_except. rewrite bind_gets, Hpg.
  rewrite bind_gets. unfold Sql.target_exists. rewrite bind_gets, Hdb. cbn [negb].
  now rewrite bind_modify.
Qed.

(** X18: the two ways [TenantManager.switch_tenant_database] fails.
    Under SQLite, for a tenant without a database file it returns
    [False] and changes nothing.  Outside of a request context it
    returns [False] as well, but only after it has switched: the
    binding is the tenant's (search path, or configured URI) and
    [g.tenant_license_key] is set, although the caller is told that the
    switch failed. *)
Theorem switch_failures :
  (_is_postgres w = false ->
   stores w !! get_tenant_db_path (basedir w) license_key = None ->
   switch_tenant_database license_key w = (Ret false, w)) /\
  (session w = None ->
   (_is_postgres w = false ->
    is_Some (stores w !! get_tenant_db_path (basedir w) license_key)) ->
   let w' := state_after (switch_tenant_database license_key) w in
   result_of (switch_tenant_database license_key) w = Ret false /\
   g_tenant_license_key w' = Some license_key /\
   (if _is_postgres w then search_path w' = [_schema_name license_key; "public"]
    else config_uri w' = tenant_uri w license_key)).
Proof.
  split.
  - intros Hpg Hnone. unfold switch_tenant_database, try_except. rewrite bind_gets, Hpg.
    rewrite bind_gets. unfold Sql.target_exists. now rewrite bind_gets, Hnone.
  - intros Hs Hex. cbv zeta. unfold result_of, state_after.
    destruct (_is_postgres w) eqn:Hpg.
    + rewrite switch_unfold_postgres by exact Hpg.
      unfold try_except, bind. rewrite set_current_tenant_eq. cbn [session set_search_path
        set_config_uri]. rewrite Hs. now cbn.
    + destruct (Hex eq_refl) as [db Hdb].
      rewrite (switch_unfold_sqlite db) by assumption.
      unfold try_except, bind. rewrite set_current_tenant_eq. cbn [session set_search_path
        set_config_uri]. rewrite Hs. now cbn.
Qed.

(** X19: a switch from within a request: when the tenant's store is
    there (always, as far as the code checks, under PostgreSQL),
    [switch_tenant_database] returns [True], binds to the tenant and
    records the key in [g] and in the session, so that
    [get_current_tenant] then gives the key back. *)
Theorem switch_then_current (s : gmap string string) :
  session w = Some s ->
  (_is_postgres w = false ->
   is_Some (stores w !! get_tenant_db_path (basedir w) license_key)) ->
  let w' := state_after (switch_tenant_database license_key) w in
  result_of (switch_tenant_database license_key) w = Ret true /\
  session w' = Some (<["tenant_license_key" := license_key]> s) /\
  (if _is_postgres w then search_path w' = [_schema_name license_key; "public"]
   else config_uri w' = tenant_uri w license_key) /\
  result_of get_current_tenant w' = Ret (Some license_key).
Proof.
  intros Hs Hex. cbv zeta. unfold result_of, state_after.
  destruct (_is_postgres w) eqn:Hpg.
  - rewrite switch_unfold_postgres by exact Hpg.
    unfold try_except, bind. rewrite set_current_tenant_eq. cbn [session set_search_path
      set_config_uri]. rewrite Hs. now cbn.
  - destruct (Hex eq_refl) as [db Hdb].
    rewrite (switch_unfold_sqlite db) by assumption.
    unfold try_except, bind. rewrite set_current_tenant_eq. cbn [session set_search_path
      set_config_uri]. rewrite Hs. now cbn.
Qed.

End DeleteAndSwitch.

Lemma switch_then_current_witness :
  let w := SampleWorlds.sqlite (Some ∅) in
  let w' := state_after (TenantManager.switch_tenant_database "LIC-0001") w in
  result_of (TenantManager.switch_tenant_database "LIC-0001") w = Ret true /\
  session w' = Some (<["tenant_license_key" := "LIC-0001"]> ∅) /\
  (if TenantManager._is_postgres w
   then search_path w' = [TenantManager._schema_name "LIC-0001"; "public"]
   else config_uri w' = tenant_uri w "LIC-0001") /\
  result_of TenantManager.get_current_tenant w' = Ret (Some "LIC-0001").
Proof.
  apply (switch_then_current (SampleWorlds.sqlite (Some ∅)) "LIC-0001" ∅).
  - reflexivity.
  - intros _. eexists. reflexivity.
Defined.

Lemma switch_failures_witness :
  (let w := Sample.deployment Sample.SQLITE_URI None (Some ∅) [Sample.license] ∅ in
   TenantManager.switch_tenant_database "LIC-0001" w = (Ret false, w)) /\
  (let w := SampleWorlds.postgres None in
   let w' := state_after (TenantManager.switch_tenant_database "LIC-0001") w in
   result_of (TenantManager.switch_tenant_database "LIC-0001") w = Ret false /\
   g_tenant_license_key w' = Some "LIC-0001" /\
   search_path w' = [TenantManager._schema_name "LIC-0001"; "public"]).
Proof.
  split.
  - apply (proj1 (switch_failures
                    (Sample.deployment Sample.SQLITE_URI None (Some ∅) [Sample.license] ∅)
                    "LIC-0001")); reflexivity.
  - apply (proj2 (switch_failures (SampleWorlds.postgres None) "LIC-0001")).
    + reflexivity.
    + intros H. discriminate H.
Defined.

(** ** Listing the tenants *)

Section Listing.

Import TenantManager.

Lemma append_nil_r (s : string) : s +:+ "" = s.
Proof. induction s as [|c s IH]; [reflexivity|]. now rewrite append_cons, IH. Qed.

Lemma join_sep (a b : string) :
  PyStr.startswith b "/" = false -> OsPath.join a b = OsPath.join a "" +:+ b.
Proof.
  intros Hb. unfold OsPath.join. rewrite Hb.
  change (PyStr.startswith "" "/") with false. cbv iota.
  destruct (String.eqb a "" || OsPath.ends_with_sep a).
  - now rewrite append_nil_r.
  - rewrite append_assoc. reflexivity.
Qed.

Lemma substring_drop (a b : string) (n : nat) :
  String.substring (String.length a) n (a +:+ b) = String.substring 0 n b.
Proof. induction a as [|c a IH]; [reflexivity|]. rewrite append_cons. exact IH. Qed.

Lemma substring_take (a b : string) : String.substring 0 (String.length a) (a +:+ b) = a.
Proof.
  induction a as [|c a IH]; [now destruct b|].
  rewrite append_cons. cbn [String.length String.substring]. now rewrite IH.
Qed.

Lemma substring_all (s : string) : String.substring 0 (String.length s) s = s.
Proof. rewrite <- (append_nil_r s) at 2. apply substring_take. Qed.

Lemma endswith_append (a p : string) : PyStr.endswith (a +:+ p) p = true.
Proof.
  unfold PyStr.endswith. rewrite append_length. apply andb_true_intro. split.
  - apply Nat.leb_le. lia.
  - replace (String.length a + String.length p - String.length p)%nat
      with (String.length a) by lia.
    rewrite substring_drop, substring_all. apply String.eqb_refl.
Qed.

(** Single characters in a string. *)
Lemma contains_char_cons (c d : ascii) (s : string) :
  PyStr.contains (String c "") (String d s)
  = Ascii.eqb c d || PyStr.contains (String c "") s.
Proof.
  cbn [PyStr.contains String.prefix]. destruct (ascii_dec c d) as [->|Hn].
  - rewrite Ascii.eqb_refl. now destruct s.
  - apply Ascii.eqb_neq in Hn. now rewrite Hn.
Qed.

Lemma contains_char_append (c : ascii) (a b : string) :
  PyStr.contains (String c "") (a +:+ b)
  = PyStr.contains (String c "") a || PyStr.contains (String c "") b.
Proof.
  induction a as [|d a IH]; [now rewrite append_nil_l|].
  rewrite append_cons, !contains_char_cons, IH. apply orb_assoc.
Qed.

Lemma contains_char_replace (c a b : ascii) (s : string) :
  c <> a -> c <> b ->
  PyStr.contains (String c "") (PyStr.replace a b s) = PyStr.contains (String c "") s.
Proof.
  intros Ha Hb. induction s as [|d s IH]; [reflexivity|].
  cbn [PyStr.replace]. rewrite !contains_char_cons, IH. f_equal.
  destruct (Ascii.eqb_spec d a) as [->|Hd].
  - apply Ascii.eqb_neq in Ha, Hb. now rewrite Ha, Hb.
  - reflexivity.
Qed.

Lemma replace_absent (a b : ascii) (s : string) :
  PyStr.contains (String a "") s = false -> PyStr.replace a b s = s.
Proof.
  induction s as [|d s IH]; [reflexivity|].
  rewrite contains_char_cons. intros H. apply orb_false_elim in H as [H1 H2].
  cbn [PyStr.replace]. rewrite Ascii.eqb_sym, H1. now rewrite IH.
Qed.

(** Reading [-] for [_] after reading [_] for [-] leaves [-] for both. *)
Lemma replace_back (s : string) :
  PyStr.replace "_" "-" (PyStr.replace "-" "_" s) = PyStr.replace "_" "-" s.
Proof.
  induction s as [|d s IH]; [reflexivity|]. cbn [PyStr.replace]. rewrite IH. f_equal.
  destruct (Ascii.eqb_spec d "-") as [->|Hd]; [reflexivity|].
  reflexivity.
Qed.

Lemma in_catalog (w : world) (tg : string) (db : tenant_db) :
  stores w !! tg = Some db -> tg ∈ Sql.catalog w.
Proof.
  intros H. unfold Sql.catalog. apply list_elem_of_fmap. exists (tg, db).
  split; [reflexivity|]. now apply elem_of_map_to_list.
Qed.

(** *** Database files *)

Lemma file_name_listed (w : world) (license_key : string) (db : tenant_db) :
  stores w !! get_tenant_db_path (basedir w) license_key = Some db ->
  PyStr.contains "/" license_key = false ->
  ("tenant_" +:+ PyStr.replace "-" "_" license_key +:+ ".db")
    ∈ listdir (get_tenants_dir (basedir w)) w.
Proof.
  intros Hdb Hsep. unfold listdir. apply list_elem_of_omap.
  exists (get_tenant_db_path (basedir w) license_key). split; [now apply (in_catalog w _ db)|].
  unfold get_tenant_db_path.
  rewrite (join_sep _ ("tenant_" +:+ PyStr.replace "-" "_" license_key +:+ ".db"))
    by reflexivity.
  rewrite strip_prefix_append.
  assert (PyStr.contains "/" ("tenant_" +:+ PyStr.replace "-" "_" license_key +:+ ".db") = false)
    as ->.
  { rewrite !contains_char_append, contains_char_replace by discriminate.
    now rewrite Hsep. }
  reflexivity.
Qed.

Lemma key_of_file_name (license_key : string) :
  key_of_file ("tenant_" +:+ PyStr.replace "-" "_" license_key +:+ ".db")
  = PyStr.replace "_" "-" license_key.
Proof.
  unfold key_of_file.
  assert (PyStr.slice 7 3 ("tenant_" +:+ PyStr.replace "-" "_" license_key +:+ ".db")
          = PyStr.replace "-" "_" license_key) as ->.
  { unfold PyStr.slice. rewrite !append_length. cbn [String.length].
    rewrite (substring_drop "tenant_").
    replace (7 + (String.length (PyStr.replace "-" "_" license_key) + 3) - 3 - 7)%nat
      with (String.length (PyStr.replace "-" "_" license_key)) by lia.
    apply substring_take. }
  apply replace_back.
Qed.

(** X20: under SQLite [list_all_tenants] lists every tenant that has a
    database file, under the key it reads off the file name: the
    tenant's key with [-] for every [_].  A key without [_] (and without
    a path separator) is listed as it is; a key with one is listed under
    another name. *)
Theorem listed_sqlite_tenant (w : world) (license_key : string) (db : tenant_db) :
  _is_postgres w = false ->
  stores w !! get_tenant_db_path (basedir w) license_key = Some db ->
  PyStr.contains "/" license_key = false ->
  exists l,
    result_of list_all_tenants w = Ret l /\
    PyStr.replace "_" "-" license_key ∈ l /\
    (PyStr.contains "_" license_key = false -> license_key ∈ l).
Proof.
  intros Hpg Hdb Hsep. unfold result_of, list_all_tenants, try_except.
  rewrite bind_gets, Hpg. rewrite !bind_gets. unfold ret. cbn [fst].
  eexists. split; [reflexivity|].
  assert (PyStr.replace "_" "-" license_key
            ∈ map key_of_file
                (filter (fun f => PyStr.startswith f "tenant_" && PyStr.endswith f ".db" = true)
                        (listdir (get_tenants_dir (basedir w)) w))) as Hin.
  { apply list_elem_of_In, in_map_iff.
    exists ("tenant_" +:+ PyStr.replace "-" "_" license_key +:+ ".db").
    split; [apply key_of_file_name|].
    apply list_elem_of_In, list_elem_of_filter. split; [|now apply (file_name_listed w _ db)].
    apply andb_true_intro. split.
    - apply prefix_append.
    - rewrite <- append_assoc. apply endswith_append. }
  split; [exact Hin|]. intros Hu. now rewrite (replace_absent "_" "-") in Hin.
Qed.

(** *** Schemas *)

Lemma replace_from_skip (old new a s : string) :
  PyStr.replace_from old new (String.length a) (a +:+ s) = PyStr.replace_from old new 0 s.
Proof. induction a as [|c a IH]; [reflexivity|]. rewrite append_cons. exact IH. Qed.

Lemma replace_from_absent (old new s : string) :
  PyStr.contains old s = false -> PyStr.replace_from old new 0 s = s.
Proof.
  induction s as [|c s IH]; [reflexivity|].
  cbn [PyStr.contains PyStr.replace_from]. intros H. apply orb_false_elim in H as [H1 H2].
  rewrite H1. now rewrite IH.
Qed.

Lemma replace_str_schema (x : string) :
  PyStr.contains "tenant_" x = false -> PyStr.replace_str "tenant_" "" ("tenant_" +:+ x) = x.
Proof.
  intros H. unfold PyStr.replace_str.
  change ("tenant_" +:+ x) with (String "t" ("enant_" +:+ x)).
  assert (String.prefix "tenant_" (String "t" ("enant_" +:+ x)) = true) as Hp
    by exact (prefix_append "tenant_" x).
  change (PyStr.replace_from "tenant_" "" 0 (String "t" ("enant_" +:+ x)))
    with (if String.prefix "tenant_" (String "t" ("enant_" +:+ x))
          then "" +:+ PyStr.replace_from "tenant_" "" (String.length "enant_") ("enant_" +:+ x)
          else String "t" (PyStr.replace_from "tenant_" "" 0 ("enant_" +:+ x))).
  rewrite Hp, append_nil_l, replace_from_skip. now apply replace_from_absent.
Qed.

Lemma key_char (c : ascii) :
  PyStr.upper_char
    (let c2 := PyStr.lower_char (if Ascii.eqb c "-" then "_"%char else c) in
     if Ascii.eqb c2 "_" then "-"%char else c2)
  = PyStr.upper_char (if Ascii.eqb c "_" then "-"%char else c).
Proof. destruct c as [[|] [|] [|] [|] [|] [|] [|] [|]]; reflexivity. Qed.

Lemma key_of_normalized (s : string) :
  PyStr.upper (PyStr.replace "_" "-" (PyStr.lower (PyStr.replace "-" "_" s)))
  = PyStr.upper (PyStr.replace "_" "-" s).
Proof.
  induction s as [|c s IH]; [reflexivity|].
  cbn [PyStr.replace PyStr.lower PyStr.upper]. rewrite IH. f_equal. apply key_char.
Qed.

(** X21: under PostgreSQL [list_all_tenants] lists every tenant that has
    a schema, under the key it reads off the schema name: the tenant's
    key in upper case with [-] for every [_], provided the key does not
    contain the text that is cut out as the schema prefix.  A key in
    upper case without [_] is listed as it is; any other key is listed
    under another name. *)
Theorem listed_postgres_tenant (w : world) (license_key : string) (db : tenant_db) :
  _is_postgres w = true ->
  stores w !! _schema_name license_key = Some db ->
  PyStr.contains "tenant_" (PyStr.lower (PyStr.replace "-" "_" license_key)) = false ->
  exists l,
    result_of list_all_tenants w = Ret l /\
    PyStr.upper (PyStr.replace "_" "-" license_key) ∈ l /\
    (PyStr.upper license_key = license_key -> PyStr.contains "_" license_key = false ->
     license_key ∈ l).
Proof.
  intros Hpg Hdb Hcut. unfold result_of, list_all_tenants, try_except.
  rewrite bind_gets, Hpg. rewrite !bind_gets. unfold ret. cbn [fst].
  eexists. split; [reflexivity|].
  assert (PyStr.upper (PyStr.replace "_" "-" license_key)
            ∈ map key_of_schema (filter (fun n => like_tenant n = true) (Sql.catalog w))) as Hin.
  { apply list_elem_of_In, in_map_iff. exists (_schema_name license_key). split.
    - unfold key_of_schema, _schema_name. rewrite replace_str_schema by exact Hcut.
      apply key_of_normalized.
    - apply list_elem_of_In, list_elem_of_filter. split; [|now apply (in_catalog w _ db)].
      unfold like_tenant, _schema_name. apply andb_true_intro. split.
      + apply (prefix_append_l "tenant" "tenant_"). reflexivity.
      + apply Nat.leb_le. rewrite append_length. cbn [String.length]. lia. }
  split; [exact Hin|]. intros Hup Hu.
  now rewrite (replace_absent "_" "-") , Hup in Hin.
Qed.

End Listing.

Lemma listed_sqlite_tenant_witness :
  exists l,
    result_of TenantManager.list_all_tenants (SampleWorlds.sqlite None) = Ret l /\
    PyStr.replace "_" "-" "LIC-0001" ∈ l /\
    (PyStr.contains "_" "LIC-0001" = false -> "LIC-0001" ∈ l).
Proof.
  apply (listed_sqlite_tenant (SampleWorlds.sqlite None) "LIC-0001" (mkDb (Some Sample.seeded) None)).
  - reflexivity.
  - reflexivity.
  - reflexivity.
Defined.

Lemma listed_postgres_tenant_witness :
  exists l,
    result_of TenantManager.list_all_tenants (SampleWorlds.postgres None) = Ret l /\
    PyStr.upper (PyStr.replace "_" "-" "LIC-0001") ∈ l /\
    (PyStr.upper "LIC-0001" = "LIC-0001" -> PyStr.contains "_" "LIC-0001" = false ->
     "LIC-0001" ∈ l).
Proof.
  apply (listed_postgres_tenant (SampleWorlds.postgres None) "LIC-0001"
           (mkDb (Some Sample.seeded) None)).
  - reflexivity.
  - reflexivity.
  - reflexivity.
Defined.

(** ** The request hook on its other paths *)

Section HookPaths.

Import TenantManager TenantMiddleware.



Variables (w : world) (path tenant_license_key : string) (s : gmap string string).

Hypothesis not_exempt : is_exempt path = false.
Hypothesis in_request : session w = Some s.

(** X23: a request without a tenant in its session (no key, or the
    empty string) is turned away before any lookup: the hook redirects
    to the login page, or, for an authenticated user, flashes an error
    and redirects to the logout; the binding, the session, [g] and the
    stores are left as they are. *)
Theorem request_without_tenant :
  s !! "tenant_license_key" = None \/ s !! "tenant_license_key" = Some "" ->
  let run := switch_tenant_database path in
  let w' := state_after run w in
  result_of run w
    = Ret (Some (Redirect (if is_authenticated w then "auth.logout" else "auth.login"))) /\
  config_uri w' = config_uri w /\ search_path w' = search_path w /\
  session w' = session w /\ stores w' = stores w /\
  g_license_data w' = g_license_data w /\ g_tenant_license_key w' = g_tenant_license_key w /\
  flashes w' =
    if is_authenticated w
    then (flashes w ++ [("خطأ في تحديد الترخيص. يرجى تسجيل الدخول مرة أخرى.", "error")])%list
    else flashes w.
Proof.
  intros Hkey. cbv zeta.
  assert (switch_tenant_database path w =
            if is_authenticated w
            then (Ret (Some (Redirect "auth.logout")),
                  set_flashes
                    (flashes w ++ [("خطأ في تحديد الترخيص. يرجى تسجيل الدخول مرة أخرى.",
                                    "error")])%list w)
            else (Ret (Some (Redirect "auth.login")), w)) as Hrun.
  { unfold switch_tenant_database.
    rewrite not_exempt. unfold bind at 1, Flask.session_get. rewrite in_request.
    assert (PyStr.truthy (s !! "tenant_license_key") = false) as ->
      by (destruct Hkey as [->| ->]; reflexivity).
    cbn [negb]. rewrite bind_gets. now destruct (is_authenticated w). }
  unfold result_of, state_after. rewrite Hrun.
  destruct (is_authenticated w); cbn; now repeat split.
Qed.

Hypothesis bound_session : s !! "tenant_license_key" = Some tenant_license_key.
Hypothesis key_not_empty : tenant_license_key <> "".

Lemma validate_passes (license : License.t) :
  storage_fault w = None ->
  active_license tenant_license_key w = Some license ->
  MultiTenantLogin.expired license (utcnow w) = false ->
  validate tenant_license_key w =
    (Ret None, set_g (Some (snapshot license)) (Some tenant_license_key) (at_master w)).
Proof.
  intros Hf Hl He. unfold validate. rewrite bind_gets. unfold at_master, master_uri.
  assert (forall w0 : world,
            storage_fault w0 = None -> licenses w0 = licenses w -> utcnow w0 = utcnow w ->
            bind (storage_op AtLicenseLookup) (fun _ =>
            bind (gets (active_license tenant_license_key)) (fun license =>
            match license with
            | None =>
                bind (Flask.flash "الترخيص غير نشط أو معلق. يرجى الاتصال بالدعم." "error")
                  (fun _ => bind (Flask.session_pop "tenant_license_key")
                  (fun _ => ret (Some (Redirect "auth.login"))))
            | Some license =>
                bind (gets utcnow) (fun now =>
                if MultiTenantLogin.expired license now
                then
                  bind (Flask.flash "انتهت صلاحية الترخيص. يرجى تجديد الترخيص." "error")
                    (fun _ => bind (Flask.session_pop "tenant_license_key")
                    (fun _ => ret (Some (Redirect "auth.login"))))
                else
                  bind (storage_op AtSnapshot) (fun _ =>
                  bind (modify (set_g (Some (snapshot license)) (Some tenant_license_key)))
                    (fun _ => ret None)))
            end)) w0
            = (Ret None, set_g (Some (snapshot license)) (Some tenant_license_key) w0)) as Hrest.
  { intros w0 Hf0 Hlic Hnow.
    rewrite bind_storage_op_ok by (rewrite Hf0; discriminate). rewrite bind_gets.
    assert (active_license tenant_license_key w0 = Some license) as ->
      by (unfold active_license in *; now rewrite Hlic).
    rewrite bind_gets, Hnow, He.
    rewrite bind_storage_op_ok by (rewrite Hf0; discriminate).
    now rewrite bind_modify. }
  destruct (_is_postgres w).
  - unfold bind at 1. unfold bind at 1.
    rewrite storage_op_ok by (rewrite Hf; discriminate).
    unfold switch_to_public, modify. now apply Hrest.
  - unfold bind at 1. unfold bind at 1. unfold modify.
    rewrite storage_op_ok by (cbn; rewrite Hf; discriminate).
    now apply Hrest.
Qed.

(** X24: a request of a session whose license is in force passes: when
    the registry holds an active, unsuspended, unexpired row for the
    session's key and no storage operation fails, the hook returns
    [None] (the request proceeds), publishes the snapshot of that row in
    [g.license_data] (which the context processor hands to the
    templates) and the key in [g.tenant_license_key], binds to the
    tenant's target, and leaves the session, the flashes and the stores
    as they are. *)
Theorem valid_request_passes (license : License.t) :
  coherent_deployment w -> storage_fault w = None ->
  active_license tenant_license_key w = Some license ->
  MultiTenantLogin.expired license (utcnow w) = false ->
  let run := switch_tenant_database path in
  let w' := state_after run w in
  result_of run w = Ret None /\
  g_license_data w' = Some (snapshot license) /\
  g_tenant_license_key w' = Some tenant_license_key /\
  result_of inject_license w' = Ret (Some (snapshot license)) /\
  (if _is_postgres w then search_path w' = [_schema_name tenant_license_key; "public"]
   else config_uri w' = tenant_uri w tenant_license_key) /\
  session w' = session w /\ flashes w' = flashes w /\ stores w' = stores w.
Proof.
  intros Hdep Hf Hl He. cbv zeta.
  pose proof (validate_passes license Hf Hl He) as Hv.
  set (w1 := set_g (Some (snapshot license)) (Some tenant_license_key) (at_master w)) in Hv.
  assert (switch_tenant_database path w
          = (Ret None, state_after (switch_to_tenant false tenant_license_key) w1)) as Hrun
    by (apply (hook_returns w path tenant_license_key s); try assumption; exact Hv).
  unfold result_of, state_after. rewrite Hrun. cbn [fst snd]. unfold state_after.
  assert (_is_postgres w1 = _is_postgres w) as Hpg by exact (at_master_is_postgres w Hdep).
  destruct (_is_postgres w) eqn:E.
  - rewrite (switch_to_tenant_schema false tenant_license_key w1 Hpg). subst w1. cbn.
    rewrite at_master_session, at_master_stores. unfold at_master. rewrite E. now cbn.
  - rewrite (switch_to_tenant_file false tenant_license_key w1 Hpg). subst w1.
    unfold tenant_uri, get_tenant_db_uri. cbn.
    rewrite at_master_session, at_master_stores, at_master_basedir.
    unfold at_master. rewrite E. now cbn.
Qed.

(** X25: the hook has no [except] clause: when binding to the master
    store or the license lookup raises, an exception leaves the hook
    (the request fails) and the session still carries the tenant's key;
    nothing is published in [g].  Under SQLite the exception is the one
    of the lookup.  Under PostgreSQL the failed statement has aborted
    the transaction of [db.session], the [SET search_path] of the
    [finally] clause is refused, and its exception replaces the one of
    the lookup. *)
Theorem lookup_failure_propagates (p : fault_point) :
  coherent_deployment w ->
  p = AtBindMaster \/ p = AtLicenseLookup -> storage_fault w = Some p ->
  let run := switch_tenant_database path in
  let w' := state_after run w in
  result_of run w
    = Raise (if _is_postgres w then InFailedSqlTransaction else StorageFault p) /\
  session w' = session w /\
  g_license_data w' = g_license_data w /\ g_tenant_license_key w' = g_tenant_license_key w.
Proof.
  intros Hdep Hp Hf. cbv zeta.
  assert (exists w1, validate tenant_license_key w = (Raise (StorageFault p), w1) /\
                     session w1 = session w /\ g_license_data w1 = g_license_data w /\
                     g_tenant_license_key w1 = g_tenant_license_key w) as (w1 & Hv & H1 & H2 & H3).
  { unfold validate. rewrite bind_gets.
    destruct (_is_postgres w), Hp as [-> | ->];
      unfold bind, storage_op, switch_to_public, modify; cbn;
      repeat (case_decide; try congruence; cbn); eauto. }
  assert (in_failed_transaction (Raise (StorageFault p) : outcome (option response)) = true)
    as Hab by (destruct Hp as [-> | ->]; reflexivity).
  unfold result_of, state_after.
  rewrite (switch_tenant_database_unfold w path tenant_license_key s) by assumption.
  rewrite (try_finally_on_run _ _ _ _ _ Hv). cbv beta. rewrite Hab.
  destruct Hdep as [[Hpg Hs]|[Hpg Hm]]; rewrite Hpg.
  - pose proof (validate_config_postgres w tenant_license_key Hpg) as Hc.
    unfold state_after in Hc. rewrite Hv in Hc. cbn [snd] in Hc.
    rewrite switch_to_tenant_schema by now rewrite (is_postgres_config w1 w Hc).
    cbn [fst snd]. now repeat split.
  - destruct (validate_config_sqlite w tenant_license_key Hpg) as [Hc _].
    unfold state_after in Hc. rewrite Hv in Hc. cbn [snd] in Hc.
    rewrite switch_to_tenant_file
      by now rewrite (is_postgres_config w1 (set_config_uri (master_uri w) w) Hc).
    cbn [fst snd session g_license_data g_tenant_license_key set_config_uri].
    now repeat split.
Qed.

End HookPaths.


Lemma request_without_tenant_witness :
  let w := SampleWorlds.sqlite (Some ∅) in
  let run := TenantMiddleware.switch_tenant_database "/inventory" in
  let w' := state_after run w in
  result_of run w
    = Ret (Some (TenantMiddleware.Redirect
                   (if is_authenticated w then "auth.logout" else "auth.login"))) /\
  config_uri w' = config_uri w /\ search_path w' = search_path w /\
  session w' = session w /\ stores w' = stores w /\
  g_license_data w' = g_license_data w /\ g_tenant_license_key w' = g_tenant_license_key w /\
  flashes w' =
    if is_authenticated w
    then (flashes w ++ [("خطأ في تحديد الترخيص. يرجى تسجيل الدخول مرة أخرى.", "error")])%list
    else flashes w.
Proof.
  apply (request_without_tenant (SampleWorlds.sqlite (Some ∅)) "/inventory" ∅).
  - reflexivity.
  - reflexivity.
  - left. reflexivity.
Defined.

Lemma valid_request_passes_witness :
  let w := SampleWorlds.postgres (Some {[ "tenant_license_key" := "LIC-0001" ]}) in
  let run := TenantMiddleware.switch_tenant_database "/inventory" in
  let w' := state_after run w in
  result_of run w = Ret None /\
  g_license_data w' = Some (TenantMiddleware.snapshot Sample.license) /\
  g_tenant_license_key w' = Some "LIC-0001" /\
  result_of TenantMiddleware.inject_license w'
    = Ret (Some (TenantMiddleware.snapshot Sample.license)) /\
  (if TenantManager._is_postgres w
   then search_path w' = [TenantManager._schema_name "LIC-0001"; "public"]
   else config_uri w' = tenant_uri w "LIC-0001") /\
  session w' = session w /\ flashes w' = flashes w /\ stores w' = stores w.
Proof.
  apply (valid_request_passes
           (SampleWorlds.postgres (Some {[ "tenant_license_key" := "LIC-0001" ]}))
           "/inventory" "LIC-0001" {[ "tenant_license_key" := "LIC-0001" ]}).
  - reflexivity.
  - reflexivity.
  - reflexivity.
  - discriminate.
  - left. split; reflexivity.
  - reflexivity.
  - reflexivity.
  - reflexivity.
Defined.

Lemma lookup_failure_propagates_witness :
  let w := Sample.deployment Sample.POSTGRES_URI (Some AtLicenseLookup)
             (Some {[ "tenant_license_key" := "LIC-0001" ]}) [Sample.license] ∅ in
  let run := TenantMiddleware.switch_tenant_database "/inventory" in
  let w' := state_after run w in
  result_of run w = Raise InFailedSqlTransaction /\
  session w' = session w /\
  g_license_data w' = g_license_data w /\ g_tenant_license_key w' = g_tenant_license_key w.
Proof.
  apply (lookup_failure_propagates
           (Sample.deployment Sample.POSTGRES_URI (Some AtLicenseLookup)
              (Some {[ "tenant_license_key" := "LIC-0001" ]}) [Sample.license] ∅)
           "/inventory" "LIC-0001" {[ "tenant_license_key" := "LIC-0001" ]})
    with (p := AtLicenseLookup).
  - reflexivity.
  - reflexivity.
  - reflexivity.
  - discriminate.
  - left. split; reflexivity.
  - right. reflexivity.
  - reflexivity.
Defined.

(** ** The login sequence on its other failures *)

Section LoginRejections.

Import TenantManager MultiTenantLogin.

Variables (w : world) (username password license_key : string).

(** X26: a license key that the registry does not hold: the login
    returns the wrong-key failure without a call to the provisioner
    (the call log is as it was) and leaves the stores and the Flask
    session as they were. *)
Theorem unknown_key_rejected :
  license_by_key license_key w = None ->
  let run := authenticate_with_license username password license_key in
  result_of run w = Ret (false, MSG_BAD_KEY, None) /\
  trace (state_after run w) = trace w /\
  stores (state_after run w) = stores w /\
  session (state_after run w) = session w.
Proof.
  intros Hk. cbv zeta.
  assert (verify_license license_key w
          = (Ret (inl (false, MSG_BAD_KEY, None)), at_master w)) as Hv.
  { unfold verify_license. erewrite bind_ret_eq by apply bind_master_eq.
    rewrite bind_gets.
    assert (license_by_key license_key (at_master w) = None) as ->
      by (unfold at_master; now destruct (_is_postgres w)).
    reflexivity. }
  unfold result_of, state_after, authenticate_with_license.
  erewrite with_app_context_run
    by (unfold login_steps; apply finish_inl, next_inl; exact Hv).
  cbn [fst snd]. rewrite settle_trace, settle_stores, settle_session.
  now rewrite at_master_trace, at_master_stores, at_master_session.
Qed.

Variables (lic : License.t) (t : tables).

Hypothesis deployment : coherent_deployment w.
Hypothesis license_found : license_by_key license_key w = Some lic.
Hypothesis license_valid : valid_license (utcnow w) lic.
Hypothesis store_exists : Sql.view_at w (target_for w license_key) = Some t.

(** Step 3 on an existing store hands the row it finds to the checks. *)
Lemma stage3_found :
  exists w',
    authenticate_user username password license_key (at_master w)
      = check_credentials password (find (user_named username) (users t)) w' /\
    session w' = session w /\ check_password_hash w' = check_password_hash w /\
    trace w' = trace w.
Proof.
  unfold authenticate_user. rewrite bind_gets, at_master_is_postgres by assumption.
  pose proof store_exists as Hv. unfold target_for in Hv.
  destruct deployment as [Hpg|[Hpg Hm]].
  - destruct Hpg as [Hpg Hs]. rewrite Hpg in Hv |- *. cbv iota in Hv.
    assert (postgres_deployment (at_master w)) as Hd
      by (apply at_master_postgres; now split).
    erewrite bind_ret_eq
      by (apply find_user_in_schema_eq; [exact Hd | rewrite at_master_view; exact Hv]).
    eexists. split; [reflexivity|]. cbn [session check_password_hash trace set_search_path].
    now rewrite at_master_session, at_master_check, at_master_trace.
  - rewrite Hpg in Hv |- *. cbv iota in Hv.
    destruct (find_user_in_file_eq (at_master w) username license_key t)
      as (w' & Hf & Hs & Hc & Hp).
    { rewrite at_master_view, at_master_basedir. exact Hv. }
    erewrite bind_ret_eq by exact Hf.
    exists w'. split; [reflexivity|]. split; [now rewrite Hs, at_master_session|].
    assert (check_password_hash w' = check_password_hash (at_master w) /\
            trace w' = trace (at_master w)) as [-> ->].
    { change w' with (snd (Ret (find (user_named username) (users t)), w')).
      rewrite <- Hf.
      apply (invariant_find_user_in_file
               (fun x => check_password_hash x = check_password_hash (at_master w) /\
                         trace x = trace (at_master w)));
        first [now intros ? ? ? | now split]. }
    now rewrite at_master_check, at_master_trace.
Qed.

Lemma login_stage3 (r : login_result) (w' : world) :
  authenticate_user username password license_key (at_master w) = (Ret (inl r), w') ->
  authenticate_with_license username password license_key w
    = (Ret r, Sql.settle false SharedSession w').
Proof.
  intros H3. unfold authenticate_with_license.
  assert (exists db, stores w !! target_for w license_key = Some db) as [db Hdb].
  { unfold Sql.view_at in store_exists.
    destruct (stores w !! target_for w license_key); [eauto | discriminate]. }
  apply with_app_context_run. unfold login_steps. apply finish_inl.
  erewrite next_inr by (apply verify_license_accepts; eassumption).
  erewrite next_inr
    by (eapply ensure_tenant_existing;
        rewrite at_master_stores, at_master_target_for by assumption; exact Hdb).
  apply next_inl. exact H3.
Qed.

(** X27: with a valid license and an existing tenant store, a user name
    that the store does not hold makes the login return the
    unknown-user failure, and a right password for an account that is
    not active the inactive-account failure; in both cases the Flask
    session is left as it was and the provisioner is not called. *)
Theorem credentials_rejected :
  let run := authenticate_with_license username password license_key in
  (find (user_named username) (users t) = None ->
   result_of run w = Ret (false, MSG_NO_USER, None) /\
   session (state_after run w) = session w /\ trace (state_after run w) = trace w) /\
  (forall user,
     find (user_named username) (users t) = Some user ->
     check_password_hash w (User.password_hash user) password = true ->
     User.is_active user = false ->
     result_of run w = Ret (false, MSG_ACCOUNT_INACTIVE, None) /\
     session (state_after run w) = session w /\ trace (state_after run w) = trace w).
Proof.
  cbv zeta. destruct stage3_found as (w' & H3 & Hs & Hc & Ht). split.
  - intros Hnone. rewrite Hnone in H3.
    unfold result_of, state_after. rewrite (login_stage3 _ w' H3). cbn [fst snd].
    now rewrite settle_session, settle_trace.
  - intros user Hu Hp Ha. rewrite Hu in H3.
    assert (check_credentials password (Some user) w'
            = (Ret (inl (false, MSG_ACCOUNT_INACTIVE, None)), w')) as Hcheck.
    { unfold check_credentials. rewrite bind_gets, Hc, Hp, Ha. reflexivity. }
    rewrite Hcheck in H3.
    unfold result_of, state_after. rewrite (login_stage3 _ w' H3). cbn [fst snd].
    now rewrite settle_session, settle_trace.
Qed.

End LoginRejections.

Lemma unknown_key_rejected_witness :
  let w := SampleWorlds.postgres (Some ∅) in
  let run := MultiTenantLogin.authenticate_with_license "admin" "secret" "LIC-9999" in
  result_of run w = Ret (false, MultiTenantLogin.MSG_BAD_KEY, None) /\
  trace (state_after run w) = trace w /\
  stores (state_after run w) = stores w /\
  session (state_after run w) = session w.
Proof.
  apply (unknown_key_rejected (SampleWorlds.postgres (Some ∅)) "admin" "secret" "LIC-9999").
  reflexivity.
Defined.

Lemma credentials_rejected_witness :
  let w := SampleWorlds.sqlite (Some ∅) in
  let run := MultiTenantLogin.authenticate_with_license "clerk" "secret" "LIC-0001" in
  result_of run w = Ret (false, MultiTenantLogin.MSG_NO_USER, None) /\
  session (state_after run w) = session w /\ trace (state_after run w) = trace w.
Proof.
  refine (proj1 (credentials_rejected (SampleWorlds.sqlite (Some ∅)) "clerk" "secret" "LIC-0001"
                   Sample.license Sample.seeded _ _ _ _) _).
  - right. split; reflexivity.
  - reflexivity.
  - repeat split; reflexivity.
  - reflexivity.
  - reflexivity.
Defined.

(** ** Provisioning failures during a login *)

Section ProvisioningAtLogin.

Import TenantManager MultiTenantLogin.

Variables (w : world) (username password license_key : string) (lic : License.t).
Variable p : fault_point.

Hypothesis deployment : coherent_deployment w.
Hypothesis license_found : license_by_key license_key w = Some lic.
Hypothesis license_valid : valid_license (utcnow w) lic.
Hypothesis store_absent : stores w !! target_for w license_key = None.
Hypothesis fault : storage_fault w = Some p.







End ProvisioningAtLogin.

